(** * GrContext: scratch textures, draw-buffer flushing and draw routing

    A shallow embedding of [src/gpu/GrContext.cpp].  The context owns a
    device ([fGpu]), a resource cache ([fTextureCache]), the shared draw
    state, and a deferred draw buffer.  Every cache lookup and every
    device-visible action is appended to a trace carried by the context,
    so that ordering properties ("flush before write", "probe order")
    become statements about lists.

    Conventions.
    - C++ [int] values are modelled on [Z].  In the helper functions of
      the translation unit every [int] operation is checked against the
      32-bit range and has no result when it overflows (undefined
      behaviour in C++).  The two doublings of [lockScratchTexture] are
      taken on [Z]; they are the code's as long as the doubled size
      fits, which the theorems on the probe order assume.
    - Bit fields are [Z] with [Z.land]/[Z.lor]/[Z.lnot].
    - [GrAssert] is compiled out of release builds and is not modelled;
      the asserted conditions are recalled in comments.
    - [SkScalar] values are finite [float]s, modelled as the rationals
      they denote.  Comparisons are exact; arithmetic whose result is
      rounded is left to the platform as a parameter.
    - A function returns [None] where the C++ has no defined result: a
      NULL pointer is dereferenced or an [int] overflows.
    - Loops and re-entrant calls that are not structurally recursive take
      a [fuel] argument and return [None] when it runs out; totality
      lemmas give the fuel that always suffices. *)

From Stdlib Require Import ZArith QArith Qabs Qround Lia Lqa List Bool.
From stdpp Require Import base list option.

Open Scope Z_scope.

(** ** Descriptors, flags and keys *)

Inductive GrPixelConfig :=
| kUnknown_GrPixelConfig
| kAlpha_8_GrPixelConfig
| kIndex_8_GrPixelConfig
| kRGB_565_GrPixelConfig
| kRGBA_4444_GrPixelConfig
| kRGBA_8888_GrPixelConfig
| kBGRA_8888_GrPixelConfig.

#[global] Instance GrPixelConfig_eq_dec : EqDecision GrPixelConfig.
Proof. solve_decision. Defined.

(** Modelled from the spec: the [GrTextureFlags] enumerators live in
    GrTypes.h, which is not part of the tree; the spec names the usage
    flags "render-target-capable" and "stencil-less".  They are distinct
    one-bit masks. *)
Definition kNone_GrTextureFlags : Z := 0.
Definition kRenderTarget_GrTextureFlagBit : Z := 1.
Definition kNoStencil_GrTextureFlagBit : Z := 2.

(** Modelled from the spec: [PixelOpsFlags] (GrContext.h), the
    "dont-flush" suppression flag and the unpremultiplied-pixels flag. *)
Definition kDontFlush_PixelOpsFlag : Z := 1.
Definition kUnpremul_PixelOpsFlag : Z := 2.

(** Modelled from the spec: [FlushBits] (GrContext.h), flags
    [{Discard, ForceCurrentTarget}] of [flush]. *)
Definition kForceCurrentRenderTarget_FlushBit : Z := 1.
Definition kDiscard_FlushBit : Z := 2.

(** A C++ condition [(a & b)] used as a boolean. *)
Definition hasBit (a b : Z) : bool := negb (Z.land a b =? 0).

Record GrTextureDesc := mkDesc {
  fFlags : Z;
  fWidth : Z;
  fHeight : Z;
  fConfig : GrPixelConfig
}.

#[global] Instance GrTextureDesc_eq_dec : EqDecision GrTextureDesc.
Proof. solve_decision. Defined.

Definition desc_setFlags (f : Z) (d : GrTextureDesc) : GrTextureDesc :=
  mkDesc f (fWidth d) (fHeight d) (fConfig d).
Definition desc_setWidth (w : Z) (d : GrTextureDesc) : GrTextureDesc :=
  mkDesc (fFlags d) w (fHeight d) (fConfig d).
Definition desc_setHeight (h : Z) (d : GrTextureDesc) : GrTextureDesc :=
  mkDesc (fFlags d) (fWidth d) h (fConfig d).

Inductive ScratchTexMatch := kExact_ScratchTexMatch | kApprox_ScratchTexMatch.

#[global] Instance ScratchTexMatch_eq_dec : EqDecision ScratchTexMatch.
Proof. solve_decision. Defined.

Inductive BufferedDraw := kNo_BufferedDraw | kYes_BufferedDraw.

#[global] Instance BufferedDraw_eq_dec : EqDecision BufferedDraw.
Proof. solve_decision. Defined.

(** [GrMax] (GrTypes.h): [(b < a) ? a : b]. *)
Definition GrMax (a b : Z) : Z := if b <? a then a else b.

(** Modelled from the spec: [GrNextPow2] (GrTypes.h, not in the tree)
    "rounds up to the next power-of-two"; a power of two is its own
    image and 0 is sent to 1. *)
Definition GrNextPow2 (n : Z) : Z := 2 ^ Z.log2_up n.

(** Modelled from the spec: [GrBytesPerPixel] (GrTypes.h). *)
Definition GrBytesPerPixel (c : GrPixelConfig) : Z :=
  match c with
  | kUnknown_GrPixelConfig => 0
  | kAlpha_8_GrPixelConfig | kIndex_8_GrPixelConfig => 1
  | kRGB_565_GrPixelConfig | kRGBA_4444_GrPixelConfig => 2
  | kRGBA_8888_GrPixelConfig | kBGRA_8888_GrPixelConfig => 4
  end.

(** Modelled from the spec: [GrPixelConfigSwapRAndB] (GrTypes.h): the
    config with red and blue exchanged, unknown when there is none. *)
Definition GrPixelConfigSwapRAndB (c : GrPixelConfig) : GrPixelConfig :=
  match c with
  | kRGBA_8888_GrPixelConfig => kBGRA_8888_GrPixelConfig
  | kBGRA_8888_GrPixelConfig => kRGBA_8888_GrPixelConfig
  | _ => kUnknown_GrPixelConfig
  end.

(** Modelled from the spec: [GrTexture::ComputeKey] is defined outside
    the tree.  The spec describes the content key as "derived from
    dimensions, pixel format, creation flags, and a scratch/permanent
    discriminator"; the sampler parameters are [NULL] on every scratch
    path of this file and are left out. *)
Record GrResourceKey := mkKey {
  key_desc : GrTextureDesc;
  key_scratch : bool
}.

#[global] Instance GrResourceKey_eq_dec : EqDecision GrResourceKey.
Proof. solve_decision. Defined.

Definition ComputeKey (desc : GrTextureDesc) (scratch : bool) : GrResourceKey :=
  mkKey desc scratch.

Definition IsScratchTexture (k : GrResourceKey) : bool := key_scratch k.

(** A texture object: a device handle and the descriptor it was created
    with.  Handles stand for the C++ pointer identity. *)
Record GrTexture := mkTexture {
  tex_id : nat;
  tex_desc : GrTextureDesc
}.

#[global] Instance GrTexture_eq_dec : EqDecision GrTexture.
Proof. solve_decision. Defined.

Definition sizeInBytes (t : GrTexture) : Z :=
  fWidth (tex_desc t) * fHeight (tex_desc t) * GrBytesPerPixel (fConfig (tex_desc t)).

(** ** The resource cache *)

Module ResourceCache.

(** Modelled from the spec: GrResourceCache.cpp is not in the tree.
    Section 4.1 of the spec gives the contract used here: [findAndLock]
    "increments lock count and returns a matching resource if present"
    (the nested lock type may return a resource already locked);
    [createAndLock] registers a resource locked once and then evicts
    unlocked entries, oldest first, until within budget; [detach]
    "removes the resource from the lookup structure without destroying
    it or changing its lock count"; [reattachAndUnlock] reinserts it
    and drops one lock. *)
Record Entry := mkEntry {
  entry_key : GrResourceKey;
  entry_resource : GrTexture;
  entry_lockCount : nat
}.

Record t := mkCache {
  attached : list Entry;      (* most recently used first *)
  detached : list Entry;      (* checked out, invisible to lookups *)
  maxCount : nat;
  maxBytes : Z
}.

Definition entry_id (e : Entry) : nat := tex_id (entry_resource e).

Definition lockEntry (e : Entry) : Entry :=
  mkEntry (entry_key e) (entry_resource e) (S (entry_lockCount e)).
Definition unlockEntry (e : Entry) : Entry :=
  mkEntry (entry_key e) (entry_resource e) (pred (entry_lockCount e)).

(** First attached entry with the key, locked once more. *)
Fixpoint lockFirst (k : GrResourceKey) (es : list Entry)
  : option (GrTexture * list Entry) :=
  match es with
  | [] => None
  | e :: rest =>
      if decide (entry_key e = k)
      then Some (entry_resource e, lockEntry e :: rest)
      else match lockFirst k rest with
           | Some (r, rest') => Some (r, e :: rest')
           | None => None
           end
  end.

Definition findAndLock (k : GrResourceKey) (c : t) : option GrTexture * t :=
  match lockFirst k (attached c) with
  | Some (r, es) =>
      (Some r, mkCache es (detached c) (maxCount c) (maxBytes c))
  | None => (None, c)
  end.

Definition totalBytes (es : list Entry) : Z :=
  fold_right (fun e acc => sizeInBytes (entry_resource e) + acc) 0 es.

(** Eviction walks the entries oldest first and drops unlocked ones
    while a total is above its maximum. *)
Fixpoint evict (oldestFirst : list Entry) (count : nat) (bytes : Z)
         (maxC : nat) (maxB : Z) : list Entry :=
  match oldestFirst with
  | [] => []
  | e :: rest =>
      if (count <=? maxC)%nat && (bytes <=? maxB) then e :: rest
      else if (entry_lockCount e =? 0)%nat
           then evict rest (pred count) (bytes - sizeInBytes (entry_resource e)) maxC maxB
           else e :: evict rest count bytes maxC maxB
  end.

Definition purgeAsNeeded (c : t) : t :=
  mkCache (rev (evict (rev (attached c)) (length (attached c))
                      (totalBytes (attached c)) (maxCount c) (maxBytes c)))
          (detached c) (maxCount c) (maxBytes c).

Definition createAndLock (k : GrResourceKey) (r : GrTexture) (c : t) : t :=
  purgeAsNeeded
    (mkCache (mkEntry k r 1 :: attached c) (detached c)
             (maxCount c) (maxBytes c)).

Definition isEntryOf (id : nat) (e : Entry) : bool := (entry_id e =? id)%nat.

(** [detach]: out of the lookup structure, lock count untouched. *)
Definition detach (id : nat) (c : t) : t :=
  mkCache (filter (fun e => negb (isEntryOf id e)) (attached c))
          (filter (fun e => isEntryOf id e) (attached c) ++ detached c)
          (maxCount c) (maxBytes c).

(** [reattachAndUnlock]: back at the head of the lookup structure with
    one lock less. *)
Definition reattachAndUnlock (id : nat) (c : t) : t :=
  mkCache (map unlockEntry (filter (fun e => isEntryOf id e) (detached c)) ++ attached c)
          (filter (fun e => negb (isEntryOf id e)) (detached c))
          (maxCount c) (maxBytes c).

(** [unlock]: one lock less; the entry becomes the most recently
    unlocked one and stays attached. *)
Definition unlock (id : nat) (c : t) : t :=
  mkCache (map unlockEntry (filter (fun e => isEntryOf id e) (attached c))
             ++ filter (fun e => negb (isEntryOf id e)) (attached c))
          (detached c) (maxCount c) (maxBytes c).

Definition ids (es : list Entry) : list nat := map entry_id es.

End ResourceCache.

(** ** Geometry and paint *)

Definition SkScalar := Q.

Record SkRect := mkRect { fLeft : SkScalar; fTop : SkScalar; fRight : SkScalar; fBottom : SkScalar }.

Record SkIRect := mkIRect { iLeft : Z; iTop : Z; iRight : Z; iBottom : Z }.

Record SkPoint := mkPoint { fX : SkScalar; fY : SkScalar }.

(** [SkMatrix]: the nine entries, row major. *)
Record SkMatrix := mkMatrix {
  kMScaleX : SkScalar; kMSkewX : SkScalar; kMTransX : SkScalar;
  kMSkewY : SkScalar; kMScaleY : SkScalar; kMTransY : SkScalar;
  kMPersp0 : SkScalar; kMPersp1 : SkScalar; kMPersp2 : SkScalar
}.

Definition SkMatrix_I : SkMatrix :=
  mkMatrix 1%Q 0%Q 0%Q 0%Q 1%Q 0%Q 0%Q 0%Q 1%Q.

(** Modelled from the spec: the type mask of [SkMatrix] (SkMatrix.h is
    not in the tree); the glossary's "uniform scale, rotation, and
    translation (no skew/perspective)" refers to these classes. *)
Definition kTranslate_Mask : Z := 1.
Definition kScale_Mask : Z := 2.
Definition kAffine_Mask : Z := 4.
Definition kPerspective_Mask : Z := 8.

Definition Qnonzero (x : Q) : bool := negb (Qeq_bool x 0%Q).

Definition getType (m : SkMatrix) : Z :=
  (if Qnonzero (kMTransX m) || Qnonzero (kMTransY m) then kTranslate_Mask else 0)
  + (if negb (Qeq_bool (kMScaleX m) 1%Q) || negb (Qeq_bool (kMScaleY m) 1%Q) then kScale_Mask else 0)
  + (if Qnonzero (kMSkewX m) || Qnonzero (kMSkewY m) then kAffine_Mask else 0)
  + (if Qnonzero (kMPersp0 m) || Qnonzero (kMPersp1 m) || negb (Qeq_bool (kMPersp2 m) 1%Q)
     then kPerspective_Mask else 0).

Definition isIdentity (m : SkMatrix) : bool := getType m =? 0.
Definition hasPerspective (m : SkMatrix) : bool := hasBit (getType m) kPerspective_Mask.

Inductive SkPath :=
| EmptyPath
| OvalPath (r : SkRect)
| OtherPath (id : Z).

Definition addOval (r : SkRect) : SkPath := OvalPath r.

Inductive GrPathFill :=
| kWinding_GrPathFill
| kEvenOdd_GrPathFill
| kInverseWinding_GrPathFill
| kInverseEvenOdd_GrPathFill
| kHairLine_GrPathFill.

Definition GrIsFillInverted (f : GrPathFill) : bool :=
  match f with
  | kInverseWinding_GrPathFill | kInverseEvenOdd_GrPathFill => true
  | _ => false
  end.

(** Modelled from the spec: [GrSamplerState] and [GrPaint] (headers not
    in the tree).  A sampler has a custom stage, the effect that makes
    its stage enabled, and the rest of its configuration; a paint stage
    is enabled when its sampler has a custom stage. *)
Record GrSamplerState := mkSampler {
  customStage : option Z;
  samplerConfig : Z
}.

Definition defaultSampler : GrSamplerState := mkSampler None 0.

Record GrPaint := mkPaint {
  fTextureSamplers : list GrSamplerState;
  fMaskSamplers : list GrSamplerState;
  fColor : Z;
  fDither : bool;
  fAntiAlias : bool;
  fColorMatrixEnabled : bool;
  fColorMatrix : list SkScalar;
  fSrcBlendCoeff : Z;
  fDstBlendCoeff : Z;
  fColorFilterColor : Z;
  fColorFilterXfermode : Z;
  fCoverage : Z
}.

Definition getTextureSampler (p : GrPaint) (i : nat) : GrSamplerState :=
  nth i (fTextureSamplers p) defaultSampler.
Definition getMaskSampler (p : GrPaint) (i : nat) : GrSamplerState :=
  nth i (fMaskSamplers p) defaultSampler.
Definition isTextureStageEnabled (p : GrPaint) (i : nat) : bool :=
  bool_decide (is_Some (customStage (getTextureSampler p i))).
Definition isMaskStageEnabled (p : GrPaint) (i : nat) : bool :=
  bool_decide (is_Some (customStage (getMaskSampler p i))).

Record GrRenderTarget := mkRenderTarget {
  rt_id : nat;
  rt_width : Z;
  rt_height : Z;
  rt_config : GrPixelConfig;
  rt_isMultisampled : bool;
  rt_asTexture : option GrTexture
}.

(** The render target of a render-target capable texture. *)
Definition renderTargetOf (t : GrTexture) : GrRenderTarget :=
  mkRenderTarget (tex_id t) (fWidth (tex_desc t)) (fHeight (tex_desc t))
                 (fConfig (tex_desc t)) false (Some t).

(** [GrTexture::asRenderTarget]: NULL unless the texture was created
    render-target capable. *)
Definition asRenderTarget (t : GrTexture) : option GrRenderTarget :=
  if hasBit (fFlags (tex_desc t)) kRenderTarget_GrTextureFlagBit
  then Some (renderTargetOf t)
  else None.

Inductive VertexEdgeType := kHairLine_EdgeType | kCircle_EdgeType.

Record GrDrawState := mkDrawState {
  ds_samplers : list GrSamplerState;
  ds_firstCoverageStage : nat;
  ds_color : Z;
  ds_flagBits : Z;
  ds_colorMatrix : list SkScalar;
  ds_srcBlend : Z;
  ds_dstBlend : Z;
  ds_colorFilterColor : Z;
  ds_colorFilterMode : Z;
  ds_coverage : Z;
  ds_viewMatrix : SkMatrix;
  ds_renderTarget : option GrRenderTarget;
  ds_vertexEdgeType : VertexEdgeType
}.

(** ** Commands, device trace, draw buffer *)

Inductive GrPathRenderer :=
| ChainRenderer (id : nat)
| SoftwareRenderer.

(** What a draw target is asked to do.  The circle of [drawOval] is
    recorded by the inputs its four vertices are computed from. *)
Inductive DrawCmd :=
| CmdClear (rect : option SkIRect) (color : Z) (target : option GrRenderTarget)
| CmdCircle (rect : SkRect) (vm : SkMatrix) (strokeWidth : SkScalar) (rtHeight : Z)
| CmdPath (pr : GrPathRenderer) (path : SkPath) (fill : GrPathFill)
          (translate : option SkPoint) (aa : bool)
| CmdOther (tag : Z).

(** The state installed on the device for the conversion blit of
    [readRenderTargetPixels]. *)
Record BlitState := mkBlit {
  blit_target : GrRenderTarget;
  blit_unpremul : bool;
  blit_flipY : bool;
  blit_left : Z;
  blit_top : Z;
  blit_swapRAndB : bool;
  blit_src : GrTexture
}.

Inductive Config8888 :=
| kRGBA_Premul_Config8888
| kRGBA_Unpremul_Config8888
| kBGRA_Premul_Config8888
| kBGRA_Unpremul_Config8888.

(** One entry of the trace: a call the context makes on the resource
    cache lookup, on the device, or on the draw buffer's replay. *)
Inductive Event :=
| EvFindAndLock (key : GrResourceKey) (result : option nat)
| EvCreateTexture (desc : GrTextureDesc) (result : option nat)
| EvFlushTo
| EvDraw (c : DrawCmd)
| EvWriteTexturePixels (tex : GrTexture) (left top width height : Z)
                       (config : GrPixelConfig) (rowBytes : Z)
| EvDrawSimpleRect (width height : Z) (st : BlitState)
| EvReadPixels (target : GrRenderTarget) (left top width height : Z)
               (config : GrPixelConfig) (rowBytes : Z) (flipY : bool)
| EvConvertConfig8888 (width height : Z) (dst src : Config8888)
| EvForceRenderTargetFlush.

Record GrGpu := mkGpu {
  gpu_nextHandle : nat;
  gpu_clip : Z
}.

(** A recorded command.  Replaying a draw may first need an antialiased
    clip mask; the software path renderer then uploads the mask through
    [GrContext::writeTexturePixels] while the replay is running. *)
Inductive BufferedCmd :=
| Recorded (c : DrawCmd)
| RecordedWithSWClipMask (mask : GrTexture) (c : DrawCmd).

Record GrInOrderDrawBuffer := mkBuffer {
  buf_cmds : list BufferedCmd;
  buf_clip : Z
}.

Definition buf_reset (b : GrInOrderDrawBuffer) : GrInOrderDrawBuffer :=
  mkBuffer [] (buf_clip b).
Definition buf_setClip (c : Z) (b : GrInOrderDrawBuffer) : GrInOrderDrawBuffer :=
  mkBuffer (buf_cmds b) c.

(** [prepareToDraw] returns one of two draw targets: the deferred draw
    buffer or the device itself. *)
Inductive GrDrawTarget := TargetDrawBuffer | TargetGpu.

Record GrPathRendererChain := mkChain {
  chain_getPathRenderer : SkPath -> GrPathFill -> GrDrawTarget -> bool -> option nat
}.

Record GrContext := mkContext {
  fGpu : GrGpu;
  fDrawState : GrDrawState;
  fTextureCache : ResourceCache.t;
  fDrawBuffer : option GrInOrderDrawBuffer;
  fLastDrawWasBuffered : BufferedDraw;
  fPathRendererChain : option GrPathRendererChain;
  fSoftwarePathRenderer : option GrPathRenderer;
  trace : list Event      (* oldest first *)
}.

Definition set_fGpu (g : GrGpu) (c : GrContext) : GrContext :=
  mkContext g (fDrawState c) (fTextureCache c) (fDrawBuffer c)
            (fLastDrawWasBuffered c) (fPathRendererChain c) (fSoftwarePathRenderer c) (trace c).
Definition set_fDrawState (d : GrDrawState) (c : GrContext) : GrContext :=
  mkContext (fGpu c) d (fTextureCache c) (fDrawBuffer c)
            (fLastDrawWasBuffered c) (fPathRendererChain c) (fSoftwarePathRenderer c) (trace c).
Definition set_fTextureCache (t : ResourceCache.t) (c : GrContext) : GrContext :=
  mkContext (fGpu c) (fDrawState c) t (fDrawBuffer c)
            (fLastDrawWasBuffered c) (fPathRendererChain c) (fSoftwarePathRenderer c) (trace c).
Definition set_fDrawBuffer (b : option GrInOrderDrawBuffer) (c : GrContext) : GrContext :=
  mkContext (fGpu c) (fDrawState c) (fTextureCache c) b
            (fLastDrawWasBuffered c) (fPathRendererChain c) (fSoftwarePathRenderer c) (trace c).
Definition set_fLastDrawWasBuffered (b : BufferedDraw) (c : GrContext) : GrContext :=
  mkContext (fGpu c) (fDrawState c) (fTextureCache c) (fDrawBuffer c)
            b (fPathRendererChain c) (fSoftwarePathRenderer c) (trace c).
Definition set_fPathRendererChain (p : option GrPathRendererChain) (c : GrContext) : GrContext :=
  mkContext (fGpu c) (fDrawState c) (fTextureCache c) (fDrawBuffer c)
            (fLastDrawWasBuffered c) p (fSoftwarePathRenderer c) (trace c).
Definition set_fSoftwarePathRenderer (p : option GrPathRenderer) (c : GrContext) : GrContext :=
  mkContext (fGpu c) (fDrawState c) (fTextureCache c) (fDrawBuffer c)
            (fLastDrawWasBuffered c) (fPathRendererChain c) p (trace c).

Definition emit (e : Event) (c : GrContext) : GrContext :=
  mkContext (fGpu c) (fDrawState c) (fTextureCache c) (fDrawBuffer c)
            (fLastDrawWasBuffered c) (fPathRendererChain c) (fSoftwarePathRenderer c)
            (trace c ++ [e]).

(** ** What the tree leaves outside

    Constants of headers that are not in the tree and the answers of the
    device and of the path-renderer chain are gathered in one record;
    every definition below takes it as a parameter, and the theorems
    hold for every such record. *)
Record Externals := mkExternals {
  (* GrPaint.h / GrDrawState.h *)
  kMaxTextures : nat;
  kMaxMasks : nat;
  kFirstTextureStage : nat;
  kFirstMaskStage : nat;
  kTotalStages : nat;
  kNumStages : nat;
  kDither_StateBit : Z;
  kHWAntialias_StateBit : Z;
  kColorMatrix_StateBit : Z;
  (* GrConfig.h *)
  GR_DISABLE_DRAW_BUFFERING : bool;
  (* SkScalar.h *)
  SK_ScalarNearlyZero : SkScalar;
  SkScalarNearlyZero : SkScalar -> SkScalar -> bool;
  SkScalarNearlyEqual : SkScalar -> SkScalar -> SkScalar -> bool;
  (* GrGpu: does the n-th texture allocation succeed *)
  createTexture_ok : nat -> GrTextureDesc -> bool;
  canPreserveReadWriteUnpremulPixels : bool;
  preferredReadPixelsConfig : GrPixelConfig -> GrPixelConfig;
  readPixelsWillPayForYFlip : GrRenderTarget -> Z -> Z -> Z -> Z -> GrPixelConfig -> Z -> bool;
  fullReadPixelsIsFasterThanPartial : bool;
  readPixels_ok : GrRenderTarget -> Z -> Z -> Z -> Z -> GrPixelConfig -> bool;
  (* GrDrawTarget *)
  canApplyCoverage : GrDrawTarget -> GrDrawState -> bool;
  deviceCoordDraw_ok : GrDrawTarget -> GrDrawState -> bool;
  reserveGeometry_ok : GrDrawTarget -> bool;
  (* does replaying this command under this clip need a software clip mask *)
  swClipMaskFor : Z -> DrawCmd -> option GrTexture;
  (* GrPathRendererChain built with kNone_UsageFlag *)
  newPathRendererChain : GrPathRendererChain;
  (* single-precision arithmetic of SkRect.h, SkPoint.h and SkScalar.h: the
     results are rounded, so they are left to the platform *)
  rect_width : SkRect -> SkScalar;
  rect_height : SkRect -> SkScalar;
  dot : SkPoint -> SkPoint -> SkScalar;
  lengthSqd : SkPoint -> SkScalar;
  SkScalarSquare : SkScalar -> SkScalar
}.

(** ** GrContext operations *)

Section Context.

Variable X : Externals.

(** Modelled from the spec: [GrGpu::createTexture] belongs to the device
    abstraction, "createTexture(desc, pixels, rowBytes) -> Texture|null".
    The device either fails (NULL) or hands out a texture with the
    descriptor it was given and a handle never used before. *)
Definition createTexture (desc : GrTextureDesc) (c : GrContext)
  : option GrTexture * GrContext :=
  let g := fGpu c in
  if createTexture_ok X (gpu_nextHandle g) desc
  then (Some (mkTexture (gpu_nextHandle g) desc),
        emit (EvCreateTexture desc (Some (gpu_nextHandle g)))
             (set_fGpu (mkGpu (S (gpu_nextHandle g)) (gpu_clip g)) c))
  else (None, emit (EvCreateTexture desc None) c).

(** [fTextureCache->findAndLock(key, kNested_LockType)]. *)
Definition findAndLock (key : GrResourceKey) (c : GrContext)
  : option GrTexture * GrContext :=
  let '(resource, cache) := ResourceCache.findAndLock key (fTextureCache c) in
  (resource, emit (EvFindAndLock key (tex_id <$> resource)) (set_fTextureCache cache c)).

(** *** lockScratchTexture *)

Definition MIN_SIZE : Z := 256.

(** The if/else chain run after a miss.  [None] is the final [break].
    [desc.fWidth *= 2] and [desc.fHeight *= 2] multiply [int]s; the
    products here are exact, and are the code's while the size that is
    doubled is below 2^30; [doublingFits] bounds the request so. *)
Definition relax (inDesc : GrTextureDesc) (origWidth : Z)
           (desc : GrTextureDesc) (doubledW doubledH : bool)
  : option (GrTextureDesc * bool * bool) :=
  if negb (hasBit (fFlags desc) kRenderTarget_GrTextureFlagBit) then
    Some (desc_setFlags (Z.lor (fFlags desc) kRenderTarget_GrTextureFlagBit) desc,
          doubledW, doubledH)
  else if hasBit (fFlags desc) kNoStencil_GrTextureFlagBit then
    Some (desc_setFlags (Z.land (fFlags desc) (Z.lnot kNoStencil_GrTextureFlagBit)) desc,
          doubledW, doubledH)
  else if negb doubledW then
    Some (desc_setWidth (fWidth desc * 2) (desc_setFlags (fFlags inDesc) desc),
          true, doubledH)
  else if negb doubledH then
    Some (desc_setHeight (fHeight desc * 2)
            (desc_setWidth origWidth (desc_setFlags (fFlags inDesc) desc)),
          doubledW, true)
  else None.

(** The [do { ... } while (true)] loop. *)
Fixpoint scratchLoop (fuel : nat) (inDesc : GrTextureDesc) (match_ : ScratchTexMatch)
         (origWidth : Z) (desc : GrTextureDesc) (doubledW doubledH : bool)
         (c : GrContext)
  : option (option GrTexture * GrTextureDesc * GrContext) :=
  match fuel with
  | O => None
  | S fuel' =>
      let key := ComputeKey desc true in
      let '(resource, c1) := findAndLock key c in
      if bool_decide (is_Some resource) || bool_decide (match_ = kExact_ScratchTexMatch)
      then Some (resource, desc, c1)
      else match relax inDesc origWidth desc doubledW doubledH with
           | Some (desc', dW, dH) =>
               scratchLoop fuel' inDesc match_ origWidth desc' dW dH c1
           | None => Some (resource, desc, c1)
           end
  end.

Definition lockScratchTexture (fuel : nat) (inDesc : GrTextureDesc)
           (match_ : ScratchTexMatch) (c : GrContext)
  : option (option GrTexture * GrContext) :=
  let desc :=
    if bool_decide (match_ ≠ kExact_ScratchTexMatch)
    then desc_setHeight (GrMax MIN_SIZE (GrNextPow2 (fHeight inDesc)))
           (desc_setWidth (GrMax MIN_SIZE (GrNextPow2 (fWidth inDesc))) inDesc)
    else inDesc in
  let origWidth := fWidth desc in
  let origHeight := fHeight desc in
  '(resource, desc1, c1) ←
    scratchLoop fuel inDesc match_ origWidth desc false false c;
  let '(resource2, c2) :=
    match resource with
    | Some r => (Some r, c1)
    | None =>
        let desc2 := desc_setHeight origHeight
                       (desc_setWidth origWidth (desc_setFlags (fFlags inDesc) desc1)) in
        match createTexture desc2 c1 with
        | (Some texture, c') =>
            let key := ComputeKey (tex_desc texture) true in
            (Some texture,
             set_fTextureCache (ResourceCache.createAndLock key texture (fTextureCache c')) c')
        | (None, c') => (None, c')
        end
    end in
  match resource2 with
  | Some r =>
      Some (Some r, set_fTextureCache (ResourceCache.detach (tex_id r) (fTextureCache c2)) c2)
  | None => Some (None, c2)
  end.

(** *** unlockTexture *)

(** Modelled from the spec: [GrResource::getCacheEntry].  The entry of
    a texture is the one holding it; a scratch texture sits on the
    detached list while it is checked out. *)
Definition getCacheEntry (t : GrTexture) (c : GrContext) : option ResourceCache.Entry :=
  List.find (ResourceCache.isEntryOf (tex_id t))
            (ResourceCache.detached (fTextureCache c) ++ ResourceCache.attached (fTextureCache c)).

(** [texture->getCacheEntry()->key()] dereferences the entry
    ([GrAssert(NULL != texture->getCacheEntry())] is compiled out of a
    release build): for a texture without entry there is no result. *)
Definition unlockTexture (t : GrTexture) (c : GrContext) : option GrContext :=
  e ← getCacheEntry t c;
  if IsScratchTexture (ResourceCache.entry_key e)
  then Some (set_fTextureCache
               (ResourceCache.reattachAndUnlock (tex_id t) (fTextureCache c)) c)
  else Some (set_fTextureCache (ResourceCache.unlock (tex_id t) (fTextureCache c)) c).

(** *** setPaint *)

(** Modelled from the spec: the accessors of [GrDrawState]
    (GrDrawState.h is not in the tree) "copy paint-level configuration
    into the live Draw State"; each one assigns the field it names.
    [setSampler s smp] stands for [*fDrawState->sampler(s) = smp]. *)
Definition setSampler (s : nat) (smp : GrSamplerState) (ds : GrDrawState) : GrDrawState :=
  mkDrawState (<[s := smp]> (ds_samplers ds)) (ds_firstCoverageStage ds) (ds_color ds)
    (ds_flagBits ds) (ds_colorMatrix ds) (ds_srcBlend ds) (ds_dstBlend ds)
    (ds_colorFilterColor ds) (ds_colorFilterMode ds) (ds_coverage ds)
    (ds_viewMatrix ds) (ds_renderTarget ds) (ds_vertexEdgeType ds).

Definition clearCustomStage (smp : GrSamplerState) : GrSamplerState :=
  mkSampler None (samplerConfig smp).

(** [disableStage(s)]: [fSamplers[s].setCustomStage(NULL)]. *)
Definition disableStage (s : nat) (ds : GrDrawState) : GrDrawState :=
  mkDrawState (alter clearCustomStage s (ds_samplers ds)) (ds_firstCoverageStage ds)
    (ds_color ds) (ds_flagBits ds) (ds_colorMatrix ds) (ds_srcBlend ds) (ds_dstBlend ds)
    (ds_colorFilterColor ds) (ds_colorFilterMode ds) (ds_coverage ds)
    (ds_viewMatrix ds) (ds_renderTarget ds) (ds_vertexEdgeType ds).

(** [disableStages()], run by the destructor of [AutoStageDisable]. *)
Definition disableStages (ds : GrDrawState) : GrDrawState :=
  mkDrawState (map clearCustomStage (ds_samplers ds)) (ds_firstCoverageStage ds)
    (ds_color ds) (ds_flagBits ds) (ds_colorMatrix ds) (ds_srcBlend ds) (ds_dstBlend ds)
    (ds_colorFilterColor ds) (ds_colorFilterMode ds) (ds_coverage ds)
    (ds_viewMatrix ds) (ds_renderTarget ds) (ds_vertexEdgeType ds).

Definition stagesDisabled (ds : GrDrawState) : bool :=
  forallb (fun smp => negb (bool_decide (is_Some (customStage smp)))) (ds_samplers ds).

Definition setFirstCoverageStage (n : nat) (ds : GrDrawState) : GrDrawState :=
  mkDrawState (ds_samplers ds) n (ds_color ds) (ds_flagBits ds) (ds_colorMatrix ds)
    (ds_srcBlend ds) (ds_dstBlend ds) (ds_colorFilterColor ds) (ds_colorFilterMode ds)
    (ds_coverage ds) (ds_viewMatrix ds) (ds_renderTarget ds) (ds_vertexEdgeType ds).

Definition setColor (c : Z) (ds : GrDrawState) : GrDrawState :=
  mkDrawState (ds_samplers ds) (ds_firstCoverageStage ds) c (ds_flagBits ds)
    (ds_colorMatrix ds) (ds_srcBlend ds) (ds_dstBlend ds) (ds_colorFilterColor ds)
    (ds_colorFilterMode ds) (ds_coverage ds) (ds_viewMatrix ds) (ds_renderTarget ds)
    (ds_vertexEdgeType ds).

Definition setFlagBits (b : Z) (ds : GrDrawState) : GrDrawState :=
  mkDrawState (ds_samplers ds) (ds_firstCoverageStage ds) (ds_color ds) b
    (ds_colorMatrix ds) (ds_srcBlend ds) (ds_dstBlend ds) (ds_colorFilterColor ds)
    (ds_colorFilterMode ds) (ds_coverage ds) (ds_viewMatrix ds) (ds_renderTarget ds)
    (ds_vertexEdgeType ds).

(** [enableState(bits)]: [fFlagBits |= bits];
    [disableState(bits)]: [fFlagBits &= ~bits]. *)
Definition enableState (bits : Z) (ds : GrDrawState) : GrDrawState :=
  setFlagBits (Z.lor (ds_flagBits ds) bits) ds.
Definition disableState (bits : Z) (ds : GrDrawState) : GrDrawState :=
  setFlagBits (Z.land (ds_flagBits ds) (Z.lnot bits)) ds.

Definition setColorMatrix (m : list SkScalar) (ds : GrDrawState) : GrDrawState :=
  mkDrawState (ds_samplers ds) (ds_firstCoverageStage ds) (ds_color ds) (ds_flagBits ds)
    m (ds_srcBlend ds) (ds_dstBlend ds) (ds_colorFilterColor ds)
    (ds_colorFilterMode ds) (ds_coverage ds) (ds_viewMatrix ds) (ds_renderTarget ds)
    (ds_vertexEdgeType ds).

Definition setBlendFunc (src dst : Z) (ds : GrDrawState) : GrDrawState :=
  mkDrawState (ds_samplers ds) (ds_firstCoverageStage ds) (ds_color ds) (ds_flagBits ds)
    (ds_colorMatrix ds) src dst (ds_colorFilterColor ds)
    (ds_colorFilterMode ds) (ds_coverage ds) (ds_viewMatrix ds) (ds_renderTarget ds)
    (ds_vertexEdgeType ds).

Definition setColorFilter (c mode : Z) (ds : GrDrawState) : GrDrawState :=
  mkDrawState (ds_samplers ds) (ds_firstCoverageStage ds) (ds_color ds) (ds_flagBits ds)
    (ds_colorMatrix ds) (ds_srcBlend ds) (ds_dstBlend ds) c mode
    (ds_coverage ds) (ds_viewMatrix ds) (ds_renderTarget ds) (ds_vertexEdgeType ds).

(** [setCoverage(uint8_t)]: the byte replicated into the four channels. *)
Definition setCoverage (coverage : Z) (ds : GrDrawState) : GrDrawState :=
  mkDrawState (ds_samplers ds) (ds_firstCoverageStage ds) (ds_color ds) (ds_flagBits ds)
    (ds_colorMatrix ds) (ds_srcBlend ds) (ds_dstBlend ds) (ds_colorFilterColor ds)
    (ds_colorFilterMode ds) (coverage * 16843009) (ds_viewMatrix ds) (ds_renderTarget ds)
    (ds_vertexEdgeType ds).

Definition setVertexEdgeType (t : VertexEdgeType) (ds : GrDrawState) : GrDrawState :=
  mkDrawState (ds_samplers ds) (ds_firstCoverageStage ds) (ds_color ds) (ds_flagBits ds)
    (ds_colorMatrix ds) (ds_srcBlend ds) (ds_dstBlend ds) (ds_colorFilterColor ds)
    (ds_colorFilterMode ds) (ds_coverage ds) (ds_viewMatrix ds) (ds_renderTarget ds) t.

Definition textureStageStep (paint : GrPaint) (ds : GrDrawState) (i : nat) : GrDrawState :=
  let s := (i + kFirstTextureStage X)%nat in
  if isTextureStageEnabled paint i then setSampler s (getTextureSampler paint i) ds else ds.

Definition maskStageStep (paint : GrPaint) (ds : GrDrawState) (i : nat) : GrDrawState :=
  let s := (i + kFirstMaskStage X)%nat in
  if isMaskStageEnabled paint i then setSampler s (getMaskSampler paint i) ds else ds.

(** [setPaint] on the draw state.  The entry assertion
    [GrAssert(fDrawState->stagesDisabled())] is a debug-only check. *)
Definition applyPaint (paint : GrPaint) (ds0 : GrDrawState) : GrDrawState :=
  let ds1 := fold_left (textureStageStep paint) (seq 0 (kMaxTextures X)) ds0 in
  let ds2 := setFirstCoverageStage (kFirstMaskStage X) ds1 in
  let ds3 := fold_left (maskStageStep paint) (seq 0 (kMaxMasks X)) ds2 in
  let ds4 := fold_left (fun ds s => disableStage s ds)
               (seq (kTotalStages X) (kNumStages X - kTotalStages X)) ds3 in
  let ds5 := setColor (fColor paint) ds4 in
  let ds6 := if fDither paint then enableState (kDither_StateBit X) ds5
             else disableState (kDither_StateBit X) ds5 in
  let ds7 := if fAntiAlias paint then enableState (kHWAntialias_StateBit X) ds6
             else disableState (kHWAntialias_StateBit X) ds6 in
  let ds8 := if fColorMatrixEnabled paint
             then setColorMatrix (fColorMatrix paint) (enableState (kColorMatrix_StateBit X) ds7)
             else disableState (kColorMatrix_StateBit X) ds7 in
  let ds9 := setBlendFunc (fSrcBlendCoeff paint) (fDstBlendCoeff paint) ds8 in
  let ds10 := setColorFilter (fColorFilterColor paint) (fColorFilterXfermode paint) ds9 in
  setCoverage (fCoverage paint) ds10.

Definition setPaint (paint : GrPaint) (c : GrContext) : GrContext :=
  set_fDrawState (applyPaint paint (fDrawState c)) c.

(** *** flush, flushDrawBuffer, writeTexturePixels *)

(** [writeTexturePixels], given the [flush()] it can call. *)
Definition writeTexturePixels_with (flush0 : GrContext -> option GrContext)
           (texture : GrTexture) (left top width height : Z)
           (config : GrPixelConfig) (rowBytes : Z) (flags : Z) (c : GrContext)
  : option GrContext :=
  if hasBit kUnpremul_PixelOpsFlag flags then Some c
  else
    c1 ← (if negb (hasBit kDontFlush_PixelOpsFlag flags) then flush0 c else Some c);
    Some (emit (EvWriteTexturePixels texture left top width height config rowBytes) c1).

(** [flush(flagsBitfield)], given [flushDrawBuffer].  With the discard
    bit the buffer is reset through [fDrawBuffer->reset()], which
    dereferences the member: on a context without draw buffer there is
    no result. *)
Definition flush_with (flushDrawBuffer0 : GrContext -> option GrContext)
           (flagsBitfield : Z) (c : GrContext) : option GrContext :=
  c1 ← (if hasBit kDiscard_FlushBit flagsBitfield
        then buf ← fDrawBuffer c; Some (set_fDrawBuffer (Some (buf_reset buf)) c)
        else flushDrawBuffer0 c);
  if hasBit kForceCurrentRenderTarget_FlushBit flagsBitfield
  then Some (emit EvForceRenderTargetFlush c1)
  else Some c1.

(** Modelled from the spec: "some device-side operations invoked during
    flush (e.g., software rasterization fallback that itself needs to
    upload pixels) may themselves request a flush".  The software path
    renderer uploads a clip mask through [writeTexturePixels] with the
    default pixel-op flags. *)
Definition uploadClipMask (flush0 : GrContext -> option GrContext)
           (mask : GrTexture) (c : GrContext) : option GrContext :=
  writeTexturePixels_with flush0 mask 0 0 (fWidth (tex_desc mask)) (fHeight (tex_desc mask))
    kAlpha_8_GrPixelConfig (fWidth (tex_desc mask)) 0 c.

(** Modelled from the spec: GrInOrderDrawBuffer.cpp is not in the tree;
    a flush is the "replay of all recorded commands to the device, then
    clearing the recording buffer", in recording order. *)
Fixpoint replay (flush0 : GrContext -> option GrContext)
         (cmds : list BufferedCmd) (c : GrContext) : option GrContext :=
  match cmds with
  | [] => Some c
  | Recorded d :: rest => replay flush0 rest (emit (EvDraw d) c)
  | RecordedWithSWClipMask mask d :: rest =>
      c1 ← uploadClipMask flush0 mask c;
      replay flush0 rest (emit (EvDraw d) c1)
  end.

(** [GrInOrderDrawBuffer::flushTo(fGpu)]. *)
Definition flushTo (flush0 : GrContext -> option GrContext)
           (buf : GrInOrderDrawBuffer) (c : GrContext) : option GrContext :=
  replay flush0 (buf_cmds buf) (emit EvFlushTo c).

Fixpoint flushDrawBuffer (fuel : nat) (c : GrContext) : option GrContext :=
  match fuel with
  | O => None
  | S fuel' =>
      match fDrawBuffer c with
      | Some temp =>
          let c1 := set_fDrawBuffer None c in
          c2 ← flushTo (flush_with (flushDrawBuffer fuel') 0) temp c1;
          Some (set_fDrawBuffer (Some (buf_reset temp)) c2)
      | None => Some c
      end
  end.

Definition flush (fuel : nat) (flagsBitfield : Z) (c : GrContext) : option GrContext :=
  flush_with (flushDrawBuffer fuel) flagsBitfield c.

Definition writeTexturePixels (fuel : nat) (texture : GrTexture)
           (left top width height : Z) (config : GrPixelConfig) (rowBytes : Z)
           (flags : Z) (c : GrContext) : option GrContext :=
  writeTexturePixels_with (flush fuel 0) texture left top width height config rowBytes flags c.

(** *** prepareToDraw *)

Definition DEFAULT_BUFFERING : BufferedDraw :=
  if GR_DISABLE_DRAW_BUFFERING X then kNo_BufferedDraw else kYes_BufferedDraw.

(** [fDrawBuffer->setClip(fGpu->getClip())] dereferences the member: a
    buffered request on a context without draw buffer has no result. *)
Definition prepareToDraw (fuel : nat) (paint : option GrPaint) (buffered : BufferedDraw)
           (c : GrContext) : option (GrDrawTarget * GrContext) :=
  c1 ← (if bool_decide (kNo_BufferedDraw = buffered)
           && bool_decide (kYes_BufferedDraw = fLastDrawWasBuffered c)
        then c' ← flushDrawBuffer fuel c; Some (set_fLastDrawWasBuffered kNo_BufferedDraw c')
        else Some c);
  let c2 := match paint with Some p => setPaint p c1 | None => c1 end in
  if bool_decide (kYes_BufferedDraw = buffered)
  then buf ← fDrawBuffer c2;
       Some (TargetDrawBuffer,
             set_fLastDrawWasBuffered kYes_BufferedDraw
               (set_fDrawBuffer (Some (buf_setClip (gpu_clip (fGpu c2)) buf)) c2))
  else Some (TargetGpu, c2).

(** Modelled from the spec: a draw call on a [GrDrawTarget] is recorded
    when the target is the draw buffer ("commands are appended in call
    order") and executed at once when it is the device. *)
Definition record (d : DrawCmd) (b : GrInOrderDrawBuffer) : GrInOrderDrawBuffer :=
  mkBuffer (buf_cmds b ++ [match swClipMaskFor X (buf_clip b) d with
                           | Some mask => RecordedWithSWClipMask mask d
                           | None => Recorded d
                           end]) (buf_clip b).

Definition draw (target : GrDrawTarget) (d : DrawCmd) (c : GrContext) : GrContext :=
  match target with
  | TargetGpu => emit (EvDraw d) c
  | TargetDrawBuffer => set_fDrawBuffer (record d <$> fDrawBuffer c) c
  end.

(** *** readRenderTargetPixels *)

Definition grconfig_to_config8888 (config : GrPixelConfig) (unpremul : bool)
  : option Config8888 :=
  match config with
  | kRGBA_8888_GrPixelConfig =>
      Some (if unpremul then kRGBA_Unpremul_Config8888 else kRGBA_Premul_Config8888)
  | kBGRA_8888_GrPixelConfig =>
      Some (if unpremul then kBGRA_Unpremul_Config8888 else kBGRA_Premul_Config8888)
  | _ => None
  end.

(** The body of [readRenderTargetPixels] from the unpremultiply test on;
    [self] is the function itself, for the one nested call.
    [GrAutoScratchTexture ast] unlocks its texture when the function
    returns; [AutoStateRestore] puts the device's draw state back, so the
    blit state only shows in the trace. *)
Definition readPixelsAfterFlush
           (self : option GrRenderTarget -> Z -> Z -> Z -> Z -> GrPixelConfig -> Z -> Z ->
                   GrContext -> option (bool * GrContext))
           (fuel : nat) (target : GrRenderTarget)
           (left top width height : Z) (config : GrPixelConfig) (rowBytes : Z)
           (flags : Z) (c1 : GrContext) : option (bool * GrContext) :=
  if hasBit kUnpremul_PixelOpsFlag flags && negb (canPreserveReadWriteUnpremulPixels X)
  then
    match grconfig_to_config8888 (rt_config target) false,
          grconfig_to_config8888 config true with
    | Some srcConfig8888, Some dstConfig8888 =>
        '(_, c2) ← self (Some target) left top width height
                     (rt_config target) rowBytes kDontFlush_PixelOpsFlag c1;
        Some (true, emit (EvConvertConfig8888 width height dstConfig8888 srcConfig8888) c2)
    | _, _ => Some (false, c1)
    end
  else
    let src := rt_asTexture target in
    let swapRAndB :=
      bool_decide (is_Some src)
      && bool_decide (preferredReadPixelsConfig X config = GrPixelConfigSwapRAndB config) in
    let flipY :=
      bool_decide (is_Some src)
      && readPixelsWillPayForYFlip X target left top width height config rowBytes in
    let unpremul := hasBit kUnpremul_PixelOpsFlag flags in
    match src with
    | None =>
        if unpremul then Some (false, c1)
        else Some (readPixels_ok X target left top width height config,
                   emit (EvReadPixels target left top width height config rowBytes flipY) c1)
    | Some srcTex =>
        if flipY || swapRAndB || unpremul then
          let config := if swapRAndB then GrPixelConfigSwapRAndB config else config in
          let desc := mkDesc kRenderTarget_GrTextureFlagBit width height config in
          let match_ :=
            if (0 =? left) && (0 =? top) && (rt_width target =? width)
               && (rt_height target =? height) && fullReadPixelsIsFasterThanPartial X
            then kExact_ScratchTexMatch else kApprox_ScratchTexMatch in
          '(texture, c2) ← lockScratchTexture fuel desc match_ c1;
          match texture with
          | None => Some (false, c2)
          | Some texture =>
              let target := renderTargetOf texture in
              let c3 := emit (EvDrawSimpleRect width height
                                (mkBlit target unpremul flipY left top swapRAndB srcTex)) c2 in
              let c4 := emit (EvReadPixels target 0 0 width height config rowBytes flipY) c3 in
              c5 ← unlockTexture texture c4;
              Some (readPixels_ok X target 0 0 width height config, c5)
          end
        else Some (readPixels_ok X target left top width height config,
                   emit (EvReadPixels target left top width height config rowBytes flipY) c1)
    end.

Fixpoint readRenderTargetPixels (fuel : nat) (target : option GrRenderTarget)
         (left top width height : Z) (config : GrPixelConfig) (rowBytes : Z)
         (flags : Z) (c : GrContext) : option (bool * GrContext) :=
  match fuel with
  | O => None
  | S fuel' =>
      match (match target with
             | Some t => Some t
             | None => ds_renderTarget (fDrawState c)
             end) with
      | None => Some (false, c)
      | Some target =>
          c1 ← (if negb (hasBit kDontFlush_PixelOpsFlag flags) then flush fuel' 0 c else Some c);
          readPixelsAfterFlush (readRenderTargetPixels fuel') fuel' target
            left top width height config rowBytes flags c1
      end
  end.

(** *** Path rendering *)

Definition getRenderTarget (c : GrContext) : option GrRenderTarget :=
  ds_renderTarget (fDrawState c).

Definition getMatrix (c : GrContext) : SkMatrix := ds_viewMatrix (fDrawState c).

Definition DISABLE_COVERAGE_AA_FOR_BLEND : bool := true.

Definition disable_coverage_aa_for_blend (target : GrDrawTarget) (c : GrContext) : bool :=
  DISABLE_COVERAGE_AA_FOR_BLEND && negb (canApplyCoverage X target (fDrawState c)).

Definition getPathRenderer (path : SkPath) (fill : GrPathFill) (target : GrDrawTarget)
           (antiAlias allowSW : bool) (c : GrContext)
  : option GrPathRenderer * GrContext :=
  let c1 := match fPathRendererChain c with
            | None => set_fPathRendererChain (Some (newPathRendererChain X)) c
            | Some _ => c
            end in
  let pr := match fPathRendererChain c1 with
            | Some chain => ChainRenderer <$> chain_getPathRenderer chain path fill target antiAlias
            | None => None
            end in
  if bool_decide (pr = None) && allowSW then
    let c2 := match fSoftwarePathRenderer c1 with
              | None => set_fSoftwarePathRenderer (Some SoftwareRenderer) c1
              | Some _ => c1
              end in
    (fSoftwarePathRenderer c2, c2)
  else (pr, c1).

(** Scope exit of [AutoStageDisable atr(fDrawState)]. *)
Definition autoStageDisable_exit (c : GrContext) : GrContext :=
  set_fDrawState (disableStages (fDrawState c)) c.

(** [paint.fAntiAlias && !this->getRenderTarget()->isMultisampled()]:
    the render target is dereferenced when, and only when, the paint is
    antialiased; without a render target there is then no result. *)
Definition internalDrawPath (fuel : nat) (paint : GrPaint) (path : SkPath)
           (fill : GrPathFill) (translate : option SkPoint) (c : GrContext)
  : option GrContext :=
  '(target, c1) ← prepareToDraw fuel (Some paint) DEFAULT_BUFFERING c;
  prAA ← (if fAntiAlias paint
          then rt ← getRenderTarget c1; Some (negb (rt_isMultisampled rt))
          else Some false);
  let prAA := if disable_coverage_aa_for_blend target c1 then false else prAA in
  let '(pr, c2) := getPathRenderer path fill target prAA true c1 in
  match pr with
  | None => Some (autoStageDisable_exit c2)
  | Some pr =>
      Some (autoStageDisable_exit (draw target (CmdPath pr path fill translate prAA) c2))
  end.

(** *** drawOval *)

(** The comparisons with zero are exact; the dot product, the squared
    lengths and the squared tolerance are single-precision results. *)
Definition isSimilarityTransformation (matrix : SkMatrix) (tol : SkScalar) : bool :=
  if isIdentity matrix || (getType matrix =? kTranslate_Mask) then true
  else if hasPerspective matrix then false
  else
    let mx := kMScaleX matrix in
    let sx := kMSkewX matrix in
    let my := kMScaleY matrix in
    let sy := kMSkewY matrix in
    if Qeq_bool mx 0%Q && Qeq_bool sx 0%Q && Qeq_bool my 0%Q && Qeq_bool sy 0%Q then false
    else
      let vec0 := mkPoint mx sx in
      let vec1 := mkPoint sy my in
      SkScalarNearlyZero X (dot X vec0 vec1) (SkScalarSquare X tol)
      && SkScalarNearlyEqual X (lengthSqd X vec0) (lengthSqd X vec1) (SkScalarSquare X tol).

(** Which of its two routes [drawOval] takes.  The last test compares
    the two single-precision results [rect.height()] and [rect.width()]. *)
Inductive OvalRoute := CircleFastPath | GenericPath.

Definition ovalRoute (paint : GrPaint) (rect : SkRect) (c : GrContext) : OvalRoute :=
  if negb (isSimilarityTransformation (getMatrix c) (SK_ScalarNearlyZero X))
     || negb (fAntiAlias paint)
     || negb (Qeq_bool (rect_height X rect) (rect_width X rect))
  then GenericPath else CircleFastPath.

(** [GrAssert(strokeWidth <= 0)] is the caller's obligation. *)
Definition drawOval (fuel : nat) (paint : GrPaint) (rect : SkRect)
           (strokeWidth : SkScalar) (c : GrContext) : option GrContext :=
  match ovalRoute paint rect c with
  | GenericPath =>
      let path := addOval rect in
      let fill := if Qeq_bool strokeWidth 0%Q
                  then kHairLine_GrPathFill else kWinding_GrPathFill in
      internalDrawPath fuel paint path fill None c
  | CircleFastPath =>
      '(target, c1) ← prepareToDraw fuel (Some paint) DEFAULT_BUFFERING c;
      let vm := ds_viewMatrix (fDrawState c1) in
      match ds_renderTarget (fDrawState c1) with
      | None => Some (autoStageDisable_exit c1)
      | Some rt =>
          if negb (deviceCoordDraw_ok X target (fDrawState c1))
          then Some (autoStageDisable_exit c1)
          else if negb (reserveGeometry_ok X target)
          then Some (autoStageDisable_exit c1)
          else
            let c2 := set_fDrawState (setVertexEdgeType kCircle_EdgeType (fDrawState c1)) c1 in
            Some (autoStageDisable_exit
                    (draw target (CmdCircle rect vm strokeWidth (rt_height rt)) c2))
      end
  end.

End Context.

(** ** Vocabulary of the statements *)

(** The descriptor the relaxation search starts from: the request
    itself for an exact match, its power-of-two bin otherwise. *)
Definition binned (inDesc : GrTextureDesc) (match_ : ScratchTexMatch) : GrTextureDesc :=
  match match_ with
  | kExact_ScratchTexMatch => inDesc
  | kApprox_ScratchTexMatch =>
      mkDesc (fFlags inDesc) (GrMax MIN_SIZE (GrNextPow2 (fWidth inDesc)))
             (GrMax MIN_SIZE (GrNextPow2 (fHeight inDesc))) (fConfig inDesc)
  end.

Definition addRenderTarget (f : Z) : Z :=
  if hasBit f kRenderTarget_GrTextureFlagBit then f
  else Z.lor f kRenderTarget_GrTextureFlagBit.

(** The probes made at one size: the descriptor as it is, then with the
    render-target bit if it was missing, then without the no-stencil bit
    if it was set. *)
Definition flagSteps (d : GrTextureDesc) : list GrTextureDesc :=
  [d]
  ++ (if hasBit (fFlags d) kRenderTarget_GrTextureFlagBit then []
      else [desc_setFlags (addRenderTarget (fFlags d)) d])
  ++ (if hasBit (fFlags d) kNoStencil_GrTextureFlagBit
      then [desc_setFlags (Z.land (addRenderTarget (fFlags d))
                                  (Z.lnot kNoStencil_GrTextureFlagBit)) d]
      else []).

(** All probes of an approximate search, in order: the flag steps at the
    binned size, at doubled width, at doubled height. *)
Definition probeSequence (d0 : GrTextureDesc) : list GrTextureDesc :=
  flagSteps d0
  ++ flagSteps (desc_setWidth (fWidth d0 * 2) d0)
  ++ flagSteps (desc_setHeight (fHeight d0 * 2) d0).

(** The relaxation order as the specification words it: four
    relaxations, each tried once. *)
Definition specRelaxationOrder (d0 : GrTextureDesc) : list GrTextureDesc :=
  [d0]
  ++ (if hasBit (fFlags d0) kRenderTarget_GrTextureFlagBit then []
      else [desc_setFlags (addRenderTarget (fFlags d0)) d0])
  ++ (if hasBit (fFlags d0) kNoStencil_GrTextureFlagBit
      then [desc_setFlags (Z.land (addRenderTarget (fFlags d0))
                                  (Z.lnot kNoStencil_GrTextureFlagBit)) d0]
      else [])
  ++ [desc_setWidth (fWidth d0 * 2) d0]
  ++ [desc_setHeight (fHeight d0 * 2) d0].

Definition scratchKey (d : GrTextureDesc) : GrResourceKey := ComputeKey d true.

Definition probeMiss (d : GrTextureDesc) : Event := EvFindAndLock (scratchKey d) None.

(** Probing descriptors in order until the first hit. *)
Fixpoint tryProbes (ds : list GrTextureDesc) (c : GrContext)
  : option GrTexture * GrContext :=
  match ds with
  | [] => (None, c)
  | d :: rest =>
      match findAndLock (scratchKey d) c with
      | (Some r, c1) => (Some r, c1)
      | (None, c1) => tryProbes rest c1
      end
  end.

(** The probes of a search, by match mode. *)
Definition probes (inDesc : GrTextureDesc) (m : ScratchTexMatch) : list GrTextureDesc :=
  match m with
  | kExact_ScratchTexMatch => [inDesc]
  | kApprox_ScratchTexMatch => probeSequence (binned inDesc m)
  end.

(** What follows the search: creation on a miss, then the detach. *)
Definition createOnMiss (X : Externals) (d : GrTextureDesc)
           (rc : option GrTexture * GrContext) : option GrTexture * GrContext :=
  match rc with
  | (Some r, c1) => (Some r, c1)
  | (None, c1) =>
      match createTexture X d c1 with
      | (Some t, c') =>
          (Some t, set_fTextureCache
                     (ResourceCache.createAndLock (scratchKey (tex_desc t)) t (fTextureCache c')) c')
      | (None, c') => (None, c')
      end
  end.

Definition detachResult (rc : option GrTexture * GrContext) : option GrTexture * GrContext :=
  match rc with
  | (Some r, c2) =>
      (Some r, set_fTextureCache (ResourceCache.detach (tex_id r) (fTextureCache c2)) c2)
  | (None, c2) => (None, c2)
  end.

(** The keys looked up in the cache, read off a trace. *)
Definition probedKeys (tr : list Event) : list GrResourceKey :=
  flat_map (fun e => match e with EvFindAndLock k _ => [k] | _ => [] end) tr.

(** The descriptors the device was asked to create. *)
Definition createdDescs (tr : list Event) : list GrTextureDesc :=
  flat_map (fun e => match e with EvCreateTexture d _ => [d] | _ => [] end) tr.

Definition isFlushTo (e : Event) : bool :=
  match e with EvFlushTo => true | _ => false end.

Definition flushCount (tr : list Event) : nat := length (List.filter isFlushTo tr).

(** Every lookup of a scratch key misses. *)
Definition missesAll (ds : list GrTextureDesc) (c : GrContext) : Prop :=
  Forall (fun d => ResourceCache.lockFirst (scratchKey d)
                     (ResourceCache.attached (fTextureCache c)) = None) ds.

(** Every attached texture carries a handle the device has already
    handed out. *)
Definition handlesIssued (c : GrContext) : Prop :=
  Forall (fun e => (ResourceCache.entry_id e < gpu_nextHandle (fGpu c))%nat)
         (ResourceCache.attached (fTextureCache c)).

Definition emitAll (es : list Event) (c : GrContext) : GrContext :=
  mkContext (fGpu c) (fDrawState c) (fTextureCache c) (fDrawBuffer c)
            (fLastDrawWasBuffered c) (fPathRendererChain c) (fSoftwarePathRenderer c)
            (trace c ++ es).

(** What the replay of a recorded command leaves in the trace when
    nested flush requests do nothing. *)
Definition replayEvents (cmds : list BufferedCmd) : list Event :=
  flat_map (fun b => match b with
                     | Recorded d => [EvDraw d]
                     | RecordedWithSWClipMask mask d =>
                         [EvWriteTexturePixels mask 0 0 (fWidth (tex_desc mask))
                            (fHeight (tex_desc mask)) kAlpha_8_GrPixelConfig
                            (fWidth (tex_desc mask));
                          EvDraw d]
                     end) cmds.

(** The context after a flush of the live buffer [buf]: the replay is in
    the trace and the emptied buffer is installed. *)
Definition flushed (buf : GrInOrderDrawBuffer) (c : GrContext) : GrContext :=
  emitAll (EvFlushTo :: replayEvents (buf_cmds buf))
          (set_fDrawBuffer (Some (buf_reset buf)) c).

(** [setPaint] when a paint is given. *)
Definition applyOptPaint (X : Externals) (paint : option GrPaint) (c : GrContext) : GrContext :=
  match paint with
  | Some p => setPaint X p c
  | None => c
  end.

(** From [c] to [c'] the trace only grew, no flush of the draw buffer
    was started, and the draw buffer is the same. *)
Definition quiet (c c' : GrContext) : Prop :=
  exists evs, trace c' = trace c ++ evs /\ flushCount evs = 0%nat
              /\ fDrawBuffer c' = fDrawBuffer c.

(** What a pixel operation adds to the trace before it touches the
    device. *)
Definition flushPrefix (flags : Z) (buf : GrInOrderDrawBuffer) : list Event :=
  if hasBit kDontFlush_PixelOpsFlag flags then []
  else EvFlushTo :: replayEvents (buf_cmds buf).

(** The chain [getPathRenderer] consults: the one installed, or the one
    it builds on first use. *)
Definition chainInUse (X : Externals) (c : GrContext) : GrPathRendererChain :=
  match fPathRendererChain c with
  | Some chain => chain
  | None => newPathRendererChain X
  end.

(** The entry a draw buffer makes for a command. *)
Definition recorded (X : Externals) (clip : Z) (d : DrawCmd) : BufferedCmd :=
  match swClipMaskFor X clip d with
  | Some mask => RecordedWithSWClipMask mask d
  | None => Recorded d
  end.

(** The oval routing as the specification words it: the fast path
    "under a similarity transform and zero stroke width". *)
Definition specOvalRoute (similarity : bool) (strokeWidth : SkScalar) : OvalRoute :=
  if similarity && Qeq_bool strokeWidth 0%Q then CircleFastPath else GenericPath.

(** Ways a sampler can be rewritten by one pass of [setPaint]: left
    alone, stripped of its custom stage, or replaced by a fixed
    sampler. *)
Inductive Overwrite (h : GrSamplerState -> GrSamplerState) : Prop :=
| ow_id : (forall x, h x = x) -> Overwrite h
| ow_clear : (forall x, h x = clearCustomStage x) -> Overwrite h
| ow_const (v : GrSamplerState) : (forall x, h x = v) -> Overwrite h.

(** A transformation of the sampler array that acts on each index on its
    own, by an [Overwrite]. *)
Definition Elementwise (g : list GrSamplerState -> list GrSamplerState) : Prop :=
  exists h : nat -> GrSamplerState -> GrSamplerState,
    (forall l j, g l !! j = h j <$> (l !! j)) /\ forall j, Overwrite (h j).

Definition withSamplers (l : list GrSamplerState) (ds : GrDrawState) : GrDrawState :=
  mkDrawState l (ds_firstCoverageStage ds) (ds_color ds) (ds_flagBits ds)
    (ds_colorMatrix ds) (ds_srcBlend ds) (ds_dstBlend ds) (ds_colorFilterColor ds)
    (ds_colorFilterMode ds) (ds_coverage ds) (ds_viewMatrix ds) (ds_renderTarget ds)
    (ds_vertexEdgeType ds).

(** What [setPaint] does to the sampler array and to the state bits. *)
Definition paintSamplers (X : Externals) (paint : GrPaint) (l : list GrSamplerState)
  : list GrSamplerState :=
  let l1 := fold_left (fun l i => if isTextureStageEnabled paint i
                                  then <[(i + kFirstTextureStage X)%nat := getTextureSampler paint i]> l
                                  else l)
                      (seq 0 (kMaxTextures X)) l in
  let l2 := fold_left (fun l i => if isMaskStageEnabled paint i
                                  then <[(i + kFirstMaskStage X)%nat := getMaskSampler paint i]> l
                                  else l)
                      (seq 0 (kMaxMasks X)) l1 in
  fold_left (fun l s => alter clearCustomStage s l)
            (seq (kTotalStages X) (kNumStages X - kTotalStages X)) l2.

Definition setOrClearBits (on : bool) (bits x : Z) : Z :=
  if on then Z.lor x bits else Z.land x (Z.lnot bits).

Definition paintFlagBits (X : Externals) (paint : GrPaint) (x : Z) : Z :=
  setOrClearBits (fColorMatrixEnabled paint) (kColorMatrix_StateBit X)
    (setOrClearBits (fAntiAlias paint) (kHWAntialias_StateBit X)
       (setOrClearBits (fDither paint) (kDither_StateBit X) x)).

Definition attachedIds (c : GrContext) : list nat :=
  ResourceCache.ids (ResourceCache.attached (fTextureCache c)).

(** ** Sample data for the closed instances *)

Definition sampleExternals : Externals :=
  mkExternals 2 1 0 2 3 5 1 2 16 false (1 # 4096)
    (fun x tol => Qle_bool (Qabs x) tol) (fun x y tol => Qle_bool (Qabs (x - y)) tol)
    (fun _ _ => true) true (fun c => c) (fun _ _ _ _ _ _ _ => false) false
    (fun _ _ _ _ _ _ => true) (fun _ _ => true) (fun _ _ => true) (fun _ => true)
    (fun _ _ => None) (mkChain (fun _ _ _ _ => None))
    (fun r => fRight r - fLeft r)%Q (fun r => fBottom r - fTop r)%Q
    (fun a b => fX a * fX b + fY a * fY b)%Q (fun a => fX a * fX a + fY a * fY a)%Q
    (fun x => x * x)%Q.

Definition sampleDrawState : GrDrawState :=
  mkDrawState (replicate 5 defaultSampler) 0 0 0 [] 0 0 0 0 0 SkMatrix_I None kHairLine_EdgeType.

Definition sampleContext : GrContext :=
  mkContext (mkGpu 0 0) sampleDrawState
    (ResourceCache.mkCache [] [] 256 (16 * 1024 * 1024))
    (Some (mkBuffer [] 0)) kNo_BufferedDraw None None [].

Definition sampleDesc : GrTextureDesc := mkDesc 0 100 100 kRGBA_8888_GrPixelConfig.

Definition sampleMask : GrTexture := mkTexture 7 (mkDesc 0 64 64 kAlpha_8_GrPixelConfig).

(** A buffer holding two draws, the second of which needs a software
    clip mask when it is replayed. *)
Definition sampleBuffer : GrInOrderDrawBuffer :=
  mkBuffer [Recorded (CmdOther 1); RecordedWithSWClipMask sampleMask (CmdOther 2)] 0.

Definition sampleBuffered : GrContext :=
  set_fLastDrawWasBuffered kYes_BufferedDraw
    (set_fDrawBuffer (Some sampleBuffer) sampleContext).

Definition sampleRenderTarget : GrRenderTarget :=
  mkRenderTarget 3 640 480 kRGBA_8888_GrPixelConfig false None.

Definition sampleWithTarget : GrContext :=
  set_fDrawState
    (mkDrawState (replicate 5 defaultSampler) 0 0 0 [] 0 0 0 0 0 SkMatrix_I
                 (Some sampleRenderTarget) kHairLine_EdgeType)
    sampleContext.

Definition samplePaint (aa : bool) : GrPaint :=
  mkPaint [defaultSampler; defaultSampler] [defaultSampler] 255 false aa false [] 1 0 0 0 255.

Definition sampleTexturedPaint : GrPaint :=
  mkPaint [mkSampler (Some 42) 0; defaultSampler] [defaultSampler] 255 false true false []
          1 0 0 0 255.

Definition sampleCircle : SkRect := mkRect 0%Q 0%Q 10%Q 10%Q.

Definition resultContext {A} (r : option (A * GrContext)) : GrContext :=
  match r with
  | Some (_, c) => c
  | None => sampleContext
  end.

Definition sampleAfterFirst : GrContext :=
  resultContext (lockScratchTexture sampleExternals 9 sampleDesc kApprox_ScratchTexMatch
                   sampleContext).

Definition sampleAfterSecond : GrContext :=
  resultContext (lockScratchTexture sampleExternals 9 sampleDesc kApprox_ScratchTexMatch
                   sampleAfterFirst).

(** ** Helpers of the translation unit *)

(** C++ [int] and [GrFixed] are 32 bits wide.  An arithmetic result that
    does not fit is undefined behaviour: [int z] is [z] when it fits and
    no result otherwise. *)
Definition INT_MIN : Z := - 2 ^ 31.
Definition INT_MAX : Z := 2 ^ 31 - 1.

Definition int (z : Z) : option Z :=
  if (INT_MIN <=? z) && (z <=? INT_MAX) then Some z else None.

(** [n << 16] on [int]: defined for a non-negative [n] whose shifted
    value fits. *)
Definition shl16 (n : Z) : option Z :=
  if 0 <=? n then int (Z.shiftl n 16) else None.

(** [a / b] on [int]: truncating, undefined for a zero divisor. *)
Definition idiv (a b : Z) : option Z :=
  if b =? 0 then None else int (Z.quot a b).

(** [memcpy(dst + dstOff, src + srcOff, n)] on byte buffers; [None] when
    a range leaves its buffer. *)
Definition memcpy (dst : list Byte.byte) (dstOff : Z) (src : list Byte.byte)
           (srcOff n : Z) : option (list Byte.byte) :=
  if (0 <=? dstOff) && (0 <=? srcOff) && (0 <=? n)
     && (srcOff + n <=? Z.of_nat (length src))
     && (dstOff + n <=? Z.of_nat (length dst))
  then Some (take (Z.to_nat dstOff) dst
             ++ take (Z.to_nat n) (drop (Z.to_nat srcOff) src)
             ++ drop (Z.to_nat (dstOff + n)) dst)
  else None.

(** The inner loop of [stretchImage]:
    [for (i = 0; i < dstXLimit; i += bpp) { memcpy(...); x += dx; }].
    The byte offsets are [int] products added to a pointer; the
    accumulators [x] and [i] are [int], also in their last increment. *)
Fixpoint stretchRow (fuel : nat) (dst src : list Byte.byte) (dstRow srcRow : Z)
         (dstXLimit bpp dx : Z) (i x : Z) : option (list Byte.byte) :=
  if i <? dstXLimit then
    match fuel with
    | O => None
    | S fuel' =>
        srcCol ← int (Z.shiftr x 16 * bpp);
        dst' ← memcpy dst (dstRow + i) src (srcRow + srcCol) bpp;
        x' ← int (x + dx);
        i' ← int (i + bpp);
        stretchRow fuel' dst' src dstRow srcRow dstXLimit bpp dx i' x'
    end
  else Some dst.

(** The outer loop: [for (j = 0; j < dstH; ++j) { ...; y += dy; }]. *)
Fixpoint stretchRows (fuel rowFuel : nat) (dst src : list Byte.byte)
         (dstW dstH srcW bpp dx dy dstXLimit : Z) (j y : Z) : option (list Byte.byte) :=
  if j <? dstH then
    match fuel with
    | O => None
    | S fuel' =>
        let x := Z.shiftr dx 1 in
        srcLine ← int (Z.shiftr y 16 * srcW);
        srcRow ← int (srcLine * bpp);
        dstLine ← int (j * dstW);
        dstRow ← int (dstLine * bpp);
        dst' ← stretchRow rowFuel dst src dstRow srcRow dstXLimit bpp dx 0 x;
        y' ← int (y + dy);
        j' ← int (j + 1);
        stretchRows fuel' rowFuel dst' src dstW dstH srcW bpp dx dy dstXLimit j' y'
    end
  else Some dst.

(** [stretchImage]: nearest-neighbour resampling in 16.16 fixed point.
    The two shifts and divisions come first, so a zero destination
    width or height, or a source size of 2^15 or more, has no result. *)
Definition stretchImage (fuel : nat) (dst : list Byte.byte) (dstW dstH : Z)
           (src : list Byte.byte) (srcW srcH bpp : Z) : option (list Byte.byte) :=
  srcWFixed ← shl16 srcW;
  dx ← idiv srcWFixed dstW;
  srcHFixed ← shl16 srcH;
  dy ← idiv srcHFixed dstH;
  let y := Z.shiftr dy 1 in
  dstXLimit ← int (dstW * bpp);
  stretchRows fuel fuel dst src dstW dstH srcW bpp dx dy dstXLimit 0 y.

(** The bytes of the source pixel in row [r], column [c]. *)
Definition pixelAt (src : list Byte.byte) (srcW bpp r c : Z) : list Byte.byte :=
  take (Z.to_nat bpp) (drop (Z.to_nat ((r * srcW + c) * bpp)) src).

(** The source column sampled for destination column [i], and likewise
    for rows: the value of [x >> 16] in iteration [i].  It is the value
    the code computes as long as [srcN << 16] and the accumulator fit an
    [int], which the theorems that use it assume. *)
Definition sampleIndex (srcN dstN i : Z) : Z :=
  let d := Z.quot (Z.shiftl srcN 16) dstN in
  Z.shiftr (Z.shiftr d 1 + i * d) 16.

Definition stretched (src : list Byte.byte) (dstW dstH srcW srcH bpp : Z)
  : list Byte.byte :=
  flat_map (fun j =>
              flat_map (fun i => pixelAt src srcW bpp
                                   (sampleIndex srcH dstH (Z.of_nat j))
                                   (sampleIndex srcW dstW (Z.of_nat i)))
                       (seq 0 (Z.to_nat dstW)))
           (seq 0 (Z.to_nat dstH)).

Definition sampleImage : list Byte.byte :=
  [Byte.x01; Byte.x02; Byte.x03; Byte.x04].

(** [MAX_BLUR_SIGMA 4.0f]. *)
Definition MAX_BLUR_SIGMA : SkScalar := 4%Q.

(** The loop of [adjust_sigma]:
    while [sigma > MAX_BLUR_SIGMA], double the scale factor and halve sigma.
    [sigma] is a finite [float]; halving a value above 4 only lowers its
    exponent and is exact.  The scale factor is an [int]. *)
Fixpoint adjust_sigma_loop (fuel : nat) (sigma : SkScalar) (scaleFactor : Z)
  : option (SkScalar * Z) :=
  if Qlt_le_dec MAX_BLUR_SIGMA sigma then
    match fuel with
    | O => None
    | S fuel' =>
        scaleFactor' ← int (scaleFactor * 2);
        adjust_sigma_loop fuel' (sigma * (1 # 2))%Q scaleFactor'
    end
  else Some (sigma, scaleFactor).

Section Blur.

(** The single-precision product [a * b], rounded as the platform
    rounds it. *)
Variable fmul : SkScalar -> SkScalar -> SkScalar.

(** [adjust_sigma]: the returned sigma with the two out-parameters
    [scaleFactor] and [radius]; the radius is
    [static_cast<int>(ceilf(sigma * 3.0f))].  The assertion that the
    radius stays within [kMaxKernelRadius] is the subject of a theorem
    below. *)
Definition adjust_sigma (fuel : nat) (sigma : SkScalar) : option (SkScalar * Z * Z) :=
  '(sigma', scaleFactor) ← adjust_sigma_loop fuel sigma 1;
  radius ← int (Qceiling (fmul sigma' 3%Q));
  Some (sigma', scaleFactor, radius).

End Blur.

(** [setOrClear(bits, shift, pred)].  The mask [1 << shift] is computed
    on [int] and only then widened to [intptr_t]: up to a shift of 30 it
    is the single bit, at 31 it is [INT_MIN], whose sign extension has
    every bit from 31 upwards set, and any other shift is undefined.
    [intptr_t] values are integers in two's complement. *)
Definition setOrClear (bits shift pred : Z) : option Z :=
  mask ← (if (0 <=? shift) && (shift <? 31) then Some (Z.shiftl 1 shift)
          else if shift =? 31 then Some INT_MIN
          else None);
  Some (if negb (pred =? 0) then Z.lor bits mask else Z.land bits (Z.lnot mask)).

Section Index8.

(** [GrIsPow2] (GrTypes.h) and the two capabilities
    [supportsIndex8PixelConfig] reads from [fGpu->getCaps()]. *)
Variable GrIsPow2 : Z -> bool.
Variable f8BitPaletteSupport : bool.
Variable fNPOTTextureTileSupport : bool.

(** [params] is [None] for a NULL pointer and otherwise carries
    [params->isTiled()]. *)
Definition supportsIndex8PixelConfig (params : option bool) (width height : Z) : bool :=
  if negb f8BitPaletteSupport then false
  else
    let isPow2 := GrIsPow2 width && GrIsPow2 height in
    if negb isPow2 then
      let tiled := match params with Some isTiled => isTiled | None => false end in
      if tiled && negb fNPOTTextureTileSupport then false else true
    else true.

End Index8.

(** ** Further operations of the context *)

Section ContextOps.

Variable X : Externals.

(** [clear]: [prepareToDraw(NULL, DEFAULT_BUFFERING)->clear(rect, color, target)]. *)
Definition clear (fuel : nat) (rect : option SkIRect) (color : Z)
           (target : option GrRenderTarget) (c : GrContext) : option GrContext :=
  '(t, c1) ← prepareToDraw X fuel None (DEFAULT_BUFFERING X) c;
  Some (draw X t (CmdClear rect color target) c1).

(** [readTexturePixels]: only textures that are also render targets can
    be read. *)
Definition readTexturePixels (fuel : nat) (texture : GrTexture)
           (left top width height : Z) (config : GrPixelConfig) (rowBytes : Z)
           (flags : Z) (c : GrContext) : option (bool * GrContext) :=
  match asRenderTarget texture with
  | Some target =>
      readRenderTargetPixels X fuel (Some target) left top width height config rowBytes flags c
  | None => Some (false, c)
  end.

(** [SkPath::isEmpty] and [SkPath::isOval] on the paths of the model. *)
Definition isEmpty (p : SkPath) : bool :=
  match p with EmptyPath => true | _ => false end.
Definition isOval (p : SkPath) : option SkRect :=
  match p with OvalPath r => Some r | _ => None end.

Definition isHairLine (fill : GrPathFill) : bool :=
  match fill with kHairLine_GrPathFill => true | _ => false end.

(** [drawPaint] of this file inverts the view matrix and draws a
    rectangle; it is taken as a parameter here, as is [SkRect::offset]. *)
Variable drawPaint : GrPaint -> GrContext -> option GrContext.
Variable rect_offset : SkRect -> SkPoint -> SkRect.

Definition drawPath (fuel : nat) (paint : GrPaint) (path : SkPath) (fill : GrPathFill)
           (translate : option SkPoint) (c : GrContext) : option GrContext :=
  if isEmpty path then
    if GrIsFillInverted fill then drawPaint paint c else Some c
  else
    match (if negb (GrIsFillInverted fill) then isOval path else None) with
    | Some ovalRect =>
        let ovalRect := match translate with
                        | Some t => rect_offset ovalRect t
                        | None => ovalRect
                        end in
        let width := if isHairLine fill then 0%Q else (- 1)%Q in
        drawOval X fuel paint ovalRect width c
    | None => internalDrawPath X fuel paint path fill translate c
    end.

End ContextOps.

(** ** Losing and freeing the device resources *)

Section Lifecycle.

(** Calls into code outside the tree: the device's
    [abandonResources], [purgeResources] and [markContextDirty], the
    cache's [removeAll], and the draw buffer that [setupDrawBuffer]
    allocates.  The font cache and the rectangle renderer hold no state
    of the model. *)
Variable abandonResources : GrGpu -> GrGpu.
Variable purgeResources : GrGpu -> GrGpu.
Variable markContextDirty : GrGpu -> GrGpu.
Variable removeAll : ResourceCache.t -> ResourceCache.t.
Variable newDrawBuffer : GrInOrderDrawBuffer.

Definition setupDrawBuffer (c : GrContext) : GrContext :=
  set_fDrawBuffer (Some newDrawBuffer) c.

Definition contextDestroyed (c : GrContext) : GrContext :=
  let c1 := set_fGpu (abandonResources (fGpu c)) c in
  let c2 := set_fPathRendererChain None c1 in
  let c3 := set_fSoftwarePathRenderer None c2 in
  let c4 := set_fDrawBuffer None c3 in
  let c5 := set_fTextureCache (removeAll (fTextureCache c4)) c4 in
  set_fGpu (markContextDirty (fGpu c5)) c5.

Definition contextLost (c : GrContext) : GrContext :=
  setupDrawBuffer (contextDestroyed c).

Definition freeGpuResources (fuel : nat) (c : GrContext) : option GrContext :=
  c1 ← flush fuel 0 c;
  let c2 := set_fGpu (purgeResources (fGpu c1)) c1 in
  let c3 := set_fTextureCache (removeAll (fTextureCache c2)) c2 in
  let c4 := set_fPathRendererChain None c3 in
  Some (set_fSoftwarePathRenderer None c4).

End Lifecycle.

(** ** Vocabulary of the further statements *)

(** The draw commands the device has executed, read off a trace. *)
Definition drawsOf (tr : list Event) : list DrawCmd :=
  flat_map (fun e => match e with EvDraw d => [d] | _ => [] end) tr.

Definition cmdOf (b : BufferedCmd) : DrawCmd :=
  match b with
  | Recorded d => d
  | RecordedWithSWClipMask _ d => d
  end.


(** A device on which unpremultiplied pixels do not survive a round
    trip and on which every pixel read fails. *)
Definition sampleFailingExternals : Externals :=
  mkExternals 2 1 0 2 3 5 1 2 16 false (1 # 4096)
    (fun x tol => Qle_bool (Qabs x) tol) (fun x y tol => Qle_bool (Qabs (x - y)) tol)
    (fun _ _ => true) false (fun c => c) (fun _ _ _ _ _ _ _ => false) false
    (fun _ _ _ _ _ _ => false) (fun _ _ => true) (fun _ _ => true) (fun _ => true)
    (fun _ _ => None) (mkChain (fun _ _ _ _ => None))
    (fun r => fRight r - fLeft r)%Q (fun r => fBottom r - fTop r)%Q
    (fun a b => fX a * fX b + fY a * fY b)%Q (fun a => fX a * fX a + fY a * fY a)%Q
    (fun x => x * x)%Q.

(** ** Invariant of the resource cache *)

(** All entries of a cache, attached or checked out. *)
Definition allEntries (cache : ResourceCache.t) : list ResourceCache.Entry :=
  ResourceCache.attached cache ++ ResourceCache.detached cache.

(** No two entries hold the same texture, every texture in the cache
    has a handle below [n], and every scratch entry is keyed by the
    descriptor of its own texture. *)
Definition cacheOk (n : nat) (cache : ResourceCache.t) : Prop :=
  NoDup (ResourceCache.ids (allEntries cache))
  /\ Forall (fun e => (ResourceCache.entry_id e < n)%nat) (allEntries cache)
  /\ Forall (fun e => key_scratch (ResourceCache.entry_key e) = true ->
                      ResourceCache.entry_key e
                      = scratchKey (tex_desc (ResourceCache.entry_resource e)))
            (allEntries cache).

Definition cacheInv (c : GrContext) : Prop :=
  cacheOk (gpu_nextHandle (fGpu c)) (fTextureCache c).

(** No attached entry of [A] answers a lookup of the scratch key of
    [d]. *)
Definition missedBy (A : list ResourceCache.Entry) (d : GrTextureDesc) : Prop :=
  Forall (fun e => ResourceCache.entry_key e <> scratchKey d) A.

(** The lookups of a trace that found something. *)
Definition probeHits (tr : list Event) : list nat :=
  flat_map (fun e => match e with EvFindAndLock _ (Some id) => [id] | _ => [] end) tr.

(** A cache holding one unlocked scratch texture of 256 by 256. *)
Definition sampleCached : GrContext :=
  set_fGpu (mkGpu 1 0)
    (set_fTextureCache
       (ResourceCache.mkCache
          [ResourceCache.mkEntry
             (scratchKey (mkDesc 1 256 256 kRGBA_8888_GrPixelConfig))
             (mkTexture 0 (mkDesc 1 256 256 kRGBA_8888_GrPixelConfig)) 0]
          [] 256 (16 * 1024 * 1024))
       sampleContext).

Definition sampleScratch : GrTexture :=
  mkTexture 0 (mkDesc 1 256 256 kRGBA_8888_GrPixelConfig).

Definition sampleCheckedOut : GrContext :=
  resultContext (lockScratchTexture sampleExternals 9 sampleDesc kApprox_ScratchTexMatch
                   sampleCached).

(** From [c] to [c'] the cache keeps its invariant and nothing more is
    checked out than before. *)
Definition balanced (c c' : GrContext) : Prop :=
  cacheInv c ->
  cacheInv c'
  /\ ResourceCache.detached (fTextureCache c') = ResourceCache.detached (fTextureCache c).

(** ** Creating textures with content *)

Section TextureCreation.

Variable X : Externals.

(** [GrTextureParams] and [GrCacheData] only go into the resource key.
    [contentKey params desc cacheData] stands for
    [GrTexture::ComputeKey(fGpu, params, desc, cacheData, false)], and
    [NeedsResizing] and [NeedsFiltering] read a key; all three are
    defined outside the tree. *)
Variable GrTextureParams GrCacheData : Type.
Variable contentKey : option GrTextureParams -> GrTextureDesc -> GrCacheData -> GrResourceKey.
Variable NeedsResizing NeedsFiltering : GrResourceKey -> bool.

(** The device side of the stretch in [createResizedTexture]: between
    the [AutoStateRestore] and [releaseRenderTarget] every statement is
    a call on the device, its draw state or the new texture. *)
Variable gpuStretch : GrTexture -> GrTexture -> bool -> GrContext -> GrContext.

Definition findAndLockTexture (desc : GrTextureDesc) (cacheData : GrCacheData)
           (params : option GrTextureParams) (c : GrContext)
  : option GrTexture * GrContext :=
  findAndLock (contentKey params desc cacheData) c.

(** [createResizedTexture], given the [createAndLockTexture] it calls.
    In the branch taken when the device has no render target texture
    for the stretch, the C++ declares a second [texture] inside the
    block; the function returns the outer one. *)
Definition createResizedTexture_with
           (createAndLockTexture0 :
              option GrTextureParams -> GrTextureDesc -> GrCacheData -> list Byte.byte -> Z ->
              GrContext -> option (option GrTexture * GrContext))
           (fuel : nat) (desc : GrTextureDesc) (cacheData : GrCacheData)
           (srcData : list Byte.byte) (rowBytes : Z) (needsFiltering : bool) (c : GrContext)
  : option (option GrTexture * GrContext) :=
  let '(found, c1) := findAndLockTexture desc cacheData None c in
  '(clampedTexture, c2) ←
    match found with
    | Some t => Some (Some t, c1)
    | None => createAndLockTexture0 None desc cacheData srcData rowBytes c1
    end;
  match clampedTexture with
  | None => Some (None, c2)
  | Some clampedTexture =>
      let rtDesc :=
        mkDesc (Z.lor (Z.lor (fFlags desc) kRenderTarget_GrTextureFlagBit)
                      kNoStencil_GrTextureFlagBit)
               (GrNextPow2 (GrMax (fWidth desc) 64))
               (GrNextPow2 (GrMax (fHeight desc) 64)) (fConfig desc) in
      let '(texture, c3) := createTexture X rtDesc c2 in
      '(texture, c4) ←
        match texture with
        | Some texture =>
            Some (Some texture, gpuStretch texture clampedTexture needsFiltering c3)
        | None =>
            let rtDesc := mkDesc kNone_GrTextureFlags (GrNextPow2 (fWidth desc))
                                 (GrNextPow2 (fHeight desc)) (fConfig desc) in
            let bpp := GrBytesPerPixel (fConfig desc) in
            rowSize ← int (bpp * fWidth rtDesc);
            size ← int (rowSize * fHeight rtDesc);
            stretchedPixels ←
              stretchImage fuel (replicate (Z.to_nat size) Byte.x00)
                (fWidth rtDesc) (fHeight rtDesc) srcData (fWidth desc) (fHeight desc) bpp;
            stretchedRowBytes ← int (fWidth rtDesc * bpp);
            let '(_, c3') := createTexture X rtDesc c3 in
            Some (None, c3')
        end;
      c5 ← unlockTexture clampedTexture c4;
      Some (texture, c5)
  end.

Fixpoint createAndLockTexture (fuel : nat) (params : option GrTextureParams)
         (desc : GrTextureDesc) (cacheData : GrCacheData) (srcData : list Byte.byte)
         (rowBytes : Z) (c : GrContext) : option (option GrTexture * GrContext) :=
  match fuel with
  | O => None
  | S fuel' =>
      let resourceKey := contentKey params desc cacheData in
      '(texture, c1) ←
        (if NeedsResizing resourceKey
         then createResizedTexture_with (createAndLockTexture fuel') fuel' desc cacheData
                srcData rowBytes (NeedsFiltering resourceKey) c
         else Some (createTexture X desc c));
      match texture with
      | Some t =>
          Some (Some t,
                set_fTextureCache
                  (ResourceCache.createAndLock resourceKey t (fTextureCache c1)) c1)
      | None => Some (None, c1)
      end
  end.

Definition createResizedTexture (fuel : nat) :=
  createResizedTexture_with (createAndLockTexture fuel) fuel.

End TextureCreation.

Arguments findAndLockTexture {GrTextureParams GrCacheData} contentKey desc cacheData params c.
Arguments createResizedTexture_with X {GrTextureParams GrCacheData} contentKey gpuStretch
  createAndLockTexture0 fuel desc cacheData srcData rowBytes needsFiltering c.
Arguments createAndLockTexture X {GrTextureParams GrCacheData} contentKey NeedsResizing
  NeedsFiltering gpuStretch fuel params desc cacheData srcData rowBytes c.
Arguments createResizedTexture X {GrTextureParams GrCacheData} contentKey NeedsResizing
  NeedsFiltering gpuStretch fuel.

(** The two descriptors [createResizedTexture] asks the device for. *)
Definition resizedTargetDesc (desc : GrTextureDesc) : GrTextureDesc :=
  mkDesc (Z.lor (Z.lor (fFlags desc) kRenderTarget_GrTextureFlagBit)
                kNoStencil_GrTextureFlagBit)
         (GrNextPow2 (GrMax (fWidth desc) 64))
         (GrNextPow2 (GrMax (fHeight desc) 64)) (fConfig desc).

Definition stretchedDesc (desc : GrTextureDesc) : GrTextureDesc :=
  mkDesc kNone_GrTextureFlags (GrNextPow2 (fWidth desc)) (GrNextPow2 (fHeight desc))
         (fConfig desc).

(** A device that has no render target textures, and a cache holding
    one unlocked two-by-two texture under its content key. *)
Definition sampleNoTargetExternals : Externals :=
  mkExternals 2 1 0 2 3 5 1 2 16 false (1 # 4096)
    (fun x tol => Qle_bool (Qabs x) tol) (fun x y tol => Qle_bool (Qabs (x - y)) tol)
    (fun _ d => negb (hasBit (fFlags d) kRenderTarget_GrTextureFlagBit))
    true (fun c => c) (fun _ _ _ _ _ _ _ => false) false
    (fun _ _ _ _ _ _ => true) (fun _ _ => true) (fun _ _ => true) (fun _ => true)
    (fun _ _ => None) (mkChain (fun _ _ _ _ => None))
    (fun r => fRight r - fLeft r)%Q (fun r => fBottom r - fTop r)%Q
    (fun a b => fX a * fX b + fY a * fY b)%Q (fun a => fX a * fX a + fY a * fY a)%Q
    (fun x => x * x)%Q.

Definition sampleSmallDesc : GrTextureDesc := mkDesc 0 2 2 kAlpha_8_GrPixelConfig.

Definition sampleContentKey (params : option bool) (desc : GrTextureDesc) (cacheData : unit)
  : GrResourceKey :=
  ComputeKey desc false.

Definition sampleClamped : GrTexture := mkTexture 0 sampleSmallDesc.

Definition sampleWithClamped : GrContext :=
  set_fGpu (mkGpu 1 0)
    (set_fTextureCache
       (ResourceCache.mkCache
          [ResourceCache.mkEntry (sampleContentKey None sampleSmallDesc tt) sampleClamped 0]
          [] 256 (16 * 1024 * 1024))
       sampleContext).
(** ** Vocabulary and sample data of the range and lifetime statements *)

(** The requests for which the two doublings of an approximate search
    stay within a C++ [int]: the binned width and height are then at
    most 2^29, and the doubled ones at most 2^30.  An exact request is
    never relaxed. *)
Definition doublingFits (inDesc : GrTextureDesc) (m : ScratchTexMatch) : Prop :=
  m = kApprox_ScratchTexMatch ->
  0 < fWidth inDesc <= 2 ^ 29 /\ 0 < fHeight inDesc <= 2 ^ 29.

(** A context after [contextDestroyed]: the last draw was buffered, the
    recorded commands are gone with the draw buffer, the cache is empty. *)
Definition sampleDestroyed : GrContext :=
  contextDestroyed (fun g => g) (fun g => g)
    (fun cache => ResourceCache.mkCache [] [] (ResourceCache.maxCount cache)
                    (ResourceCache.maxBytes cache))
    sampleBuffered.

(** The context [flushDrawBuffer] runs [flushTo] on: the draw buffer of
    [sampleBuffered] has been taken out for the duration of the flush. *)
Definition sampleFlushing : GrContext := set_fDrawBuffer None sampleBuffered.

Definition samplePath : SkPath := OtherPath 1.

(** A second request made on [sampleCheckedOut], while the texture of
    the first is still checked out. *)
Definition sampleCheckedOutTwice : GrContext :=
  resultContext (lockScratchTexture sampleExternals 9 sampleDesc kApprox_ScratchTexMatch
                   sampleCheckedOut).

(** The value of the accumulator [x] of [stretchImage] after its last
    increment (and likewise of [y]): [dx / 2 + dstN * dx] with
    [dx = (srcN << 16) / dstN]. *)
Definition lastStep (srcN dstN : Z) : Z :=
  let d := Z.quot (Z.shiftl srcN 16) dstN in
  Z.shiftr d 1 + dstN * d.

(** What a draw dereferences without a test: the draw buffer, when
    draws are buffered, and the render target, when the paint is
    antialiased. *)
Definition bufferReady (X : Externals) (c : GrContext) : Prop :=
  GR_DISABLE_DRAW_BUFFERING X = false -> is_Some (fDrawBuffer c).

Definition targetReady (paint : GrPaint) (c : GrContext) : Prop :=
  fAntiAlias paint = true -> is_Some (ds_renderTarget (fDrawState c)).

Definition drawReady (X : Externals) (paint : GrPaint) (c : GrContext) : Prop :=
  bufferReady X c /\ targetReady paint c.

(** The target [prepareToDraw] hands out for a buffering mode. *)
Definition targetFor (b : BufferedDraw) : GrDrawTarget :=
  match b with
  | kYes_BufferedDraw => TargetDrawBuffer
  | kNo_BufferedDraw => TargetGpu
  end.

(** * Theorems *)

(** ** Bit facts for the two texture flags *)

Lemma land_pow2 (a k : Z) :
  0 <= k -> Z.land a (2 ^ k) = if Z.testbit a k then 2 ^ k else 0.
Proof.
  intros Hk. apply Z.bits_inj'. intros n Hn.
  rewrite Z.land_spec, Z.pow2_bits_eqb by lia.
  destruct (Z.eqb_spec k n) as [->|Hne].
  - destruct (Z.testbit a n) eqn:E; cbn.
    + rewrite Z.pow2_bits_eqb by lia. now rewrite Z.eqb_refl.
    + now rewrite Z.testbit_0_l.
  - rewrite andb_false_r. destruct (Z.testbit a k).
    + rewrite Z.pow2_bits_eqb by lia. symmetry. now apply Z.eqb_neq.
    + now rewrite Z.testbit_0_l.
Qed.

Lemma hasBit_testbit (a k : Z) : 0 <= k -> hasBit a (2 ^ k) = Z.testbit a k.
Proof.
  intros Hk. unfold hasBit. rewrite land_pow2 by lia.
  destruct (Z.testbit a k); [|reflexivity].
  assert (0 < 2 ^ k) by (apply Z.pow_pos_nonneg; lia).
  apply negb_true_iff, Z.eqb_neq. lia.
Qed.

Lemma hasRT_testbit f : hasBit f kRenderTarget_GrTextureFlagBit = Z.testbit f 0.
Proof. exact (hasBit_testbit f 0 ltac:(lia)). Qed.

Lemma hasNS_testbit f : hasBit f kNoStencil_GrTextureFlagBit = Z.testbit f 1.
Proof. exact (hasBit_testbit f 1 ltac:(lia)). Qed.

Lemma hasRT_addRenderTarget f :
  hasBit (addRenderTarget f) kRenderTarget_GrTextureFlagBit = true.
Proof.
  unfold addRenderTarget.
  destruct (hasBit f kRenderTarget_GrTextureFlagBit) eqn:E; [exact E|].
  rewrite hasRT_testbit, Z.lor_spec. apply orb_true_r.
Qed.

Lemma hasNS_addRenderTarget f :
  hasBit (addRenderTarget f) kNoStencil_GrTextureFlagBit
  = hasBit f kNoStencil_GrTextureFlagBit.
Proof.
  unfold addRenderTarget.
  destruct (hasBit f kRenderTarget_GrTextureFlagBit); [reflexivity|].
  rewrite !hasNS_testbit, Z.lor_spec. apply orb_false_r.
Qed.

Lemma hasRT_drop_NS f :
  hasBit (Z.land f (Z.lnot kNoStencil_GrTextureFlagBit)) kRenderTarget_GrTextureFlagBit
  = hasBit f kRenderTarget_GrTextureFlagBit.
Proof. rewrite !hasRT_testbit, Z.land_spec. apply andb_true_r. Qed.

Lemma hasNS_drop_NS f :
  hasBit (Z.land f (Z.lnot kNoStencil_GrTextureFlagBit)) kNoStencil_GrTextureFlagBit = false.
Proof. rewrite hasNS_testbit, Z.land_spec. apply andb_false_r. Qed.

(** ** The relaxation search *)


Lemma emitAll_nil c : emitAll [] c = c.
Proof. destruct c. unfold emitAll. cbn. now rewrite app_nil_r. Qed.

Lemma emit_emitAll e es c : emitAll es (emit e c) = emitAll (e :: es) c.
Proof. unfold emitAll, emit. cbn. now rewrite <- app_assoc. Qed.

Lemma emitAll_emit es e c : emit e (emitAll es c) = emitAll (es ++ [e]) c.
Proof. unfold emitAll, emit. cbn. now rewrite <- app_assoc. Qed.

Lemma emitAll_app es1 es2 c : emitAll es2 (emitAll es1 c) = emitAll (es1 ++ es2) c.
Proof. unfold emitAll. cbn. now rewrite <- app_assoc. Qed.

Lemma findAndLock_miss k c :
  ResourceCache.lockFirst k (ResourceCache.attached (fTextureCache c)) = None ->
  findAndLock k c = (None, emit (EvFindAndLock k None) c).
Proof.
  intros H. unfold findAndLock, ResourceCache.findAndLock. rewrite H.
  now destruct c.
Qed.

Lemma missesAll_emit ds e c : missesAll ds c -> missesAll ds (emit e c).
Proof. exact (fun H => H). Qed.

Lemma relax_addRT inDesc ow f w h cfg dW dH :
  hasBit f kRenderTarget_GrTextureFlagBit = false ->
  relax inDesc ow (mkDesc f w h cfg) dW dH
  = Some (mkDesc (addRenderTarget f) w h cfg, dW, dH).
Proof. intros H. unfold relax, addRenderTarget. cbn. now rewrite H. Qed.

Lemma relax_dropNS inDesc ow f w h cfg dW dH :
  hasBit f kRenderTarget_GrTextureFlagBit = true ->
  hasBit f kNoStencil_GrTextureFlagBit = true ->
  relax inDesc ow (mkDesc f w h cfg) dW dH
  = Some (mkDesc (Z.land f (Z.lnot kNoStencil_GrTextureFlagBit)) w h cfg, dW, dH).
Proof. intros H1 H2. unfold relax. cbn. now rewrite H1, H2. Qed.

Lemma relax_doubleW inDesc ow f w h cfg dH :
  hasBit f kRenderTarget_GrTextureFlagBit = true ->
  hasBit f kNoStencil_GrTextureFlagBit = false ->
  relax inDesc ow (mkDesc f w h cfg) false dH
  = Some (mkDesc (fFlags inDesc) (w * 2) h cfg, true, dH).
Proof. intros H1 H2. unfold relax. cbn. now rewrite H1, H2. Qed.

Lemma relax_doubleH inDesc ow f w h cfg :
  hasBit f kRenderTarget_GrTextureFlagBit = true ->
  hasBit f kNoStencil_GrTextureFlagBit = false ->
  relax inDesc ow (mkDesc f w h cfg) true false
  = Some (mkDesc (fFlags inDesc) ow (h * 2) cfg, true, true).
Proof. intros H1 H2. unfold relax. cbn. now rewrite H1, H2. Qed.

Lemma relax_done inDesc ow f w h cfg :
  hasBit f kRenderTarget_GrTextureFlagBit = true ->
  hasBit f kNoStencil_GrTextureFlagBit = false ->
  relax inDesc ow (mkDesc f w h cfg) true true = None.
Proof. intros H1 H2. unfold relax. cbn. now rewrite H1, H2. Qed.


Lemma tryProbes_app ds1 ds2 c :
  tryProbes (ds1 ++ ds2) c
  = match tryProbes ds1 c with
    | (Some r, c1) => (Some r, c1)
    | (None, c1) => tryProbes ds2 c1
    end.
Proof.
  revert c. induction ds1 as [|d ds1 IH]; intros c; cbn; [reflexivity|].
  destruct (findAndLock (scratchKey d) c) as [[r|] c1]; [reflexivity|apply IH].
Qed.



Lemma scratchLoop_unfold n inDesc m ow d dW dH c :
  scratchLoop (S n) inDesc m ow d dW dH c
  = let '(resource, c1) := findAndLock (scratchKey d) c in
    if bool_decide (is_Some resource) || bool_decide (m = kExact_ScratchTexMatch)
    then Some (resource, d, c1)
    else match relax inDesc ow d dW dH with
         | Some (d', dW', dH') => scratchLoop n inDesc m ow d' dW' dH' c1
         | None => Some (resource, d, c1)
         end.
Proof. reflexivity. Qed.



Lemma addRenderTarget_id f :
  hasBit f kRenderTarget_GrTextureFlagBit = true -> addRenderTarget f = f.
Proof. intros H. unfold addRenderTarget. now rewrite H. Qed.

Lemma tryProbes_cons d ds c :
  tryProbes (d :: ds) c
  = match findAndLock (scratchKey d) c with
    | (Some r, c1) => (Some r, c1)
    | (None, c1) => tryProbes ds c1
    end.
Proof. reflexivity. Qed.

Ltac flag_bits :=
  rewrite ?hasRT_drop_NS, ?hasNS_drop_NS, ?hasRT_addRenderTarget, ?hasNS_addRenderTarget;
  first [assumption | reflexivity].

Ltac relax_step :=
  first [ rewrite relax_addRT by flag_bits
        | rewrite relax_dropNS by flag_bits
        | rewrite relax_doubleW by flag_bits
        | rewrite relax_doubleH by flag_bits
        | rewrite relax_done by flag_bits ].

Ltac loop_step Hf :=
  rewrite scratchLoop_unfold, tryProbes_cons;
  let r := fresh "r" in
  let c1 := fresh "c" in
  destruct (findAndLock (scratchKey _) _) as [[r|] c1];
  [ cbn [fst snd]; eexists; split; reflexivity
  | cbv beta iota;
    change (bool_decide (is_Some None) || bool_decide (kApprox_ScratchTexMatch = kExact_ScratchTexMatch))
      with false;
    cbv iota; relax_step; rewrite <- ?Hf ].

Lemma scratchLoop_approx n inDesc d0 c :
  fFlags d0 = fFlags inDesc ->
  exists d1,
    scratchLoop (9 + n) inDesc kApprox_ScratchTexMatch (fWidth d0) d0 false false c
    = Some (fst (tryProbes (probeSequence d0) c), d1, snd (tryProbes (probeSequence d0) c))
    /\ fConfig d1 = fConfig d0.
Proof.
  destruct d0 as [f w h cfg]. cbn [fFlags fWidth fConfig]. intros Hf.
  change (9 + n)%nat with (S (S (S (S (S (S (S (S (S n))))))))).
  unfold probeSequence, flagSteps.
  cbn [fFlags fWidth fHeight fConfig desc_setWidth desc_setHeight desc_setFlags].
  destruct (hasBit f kRenderTarget_GrTextureFlagBit) eqn:ERT;
  destruct (hasBit f kNoStencil_GrTextureFlagBit) eqn:ENS;
  cbn [app]; rewrite ?(addRenderTarget_id f ERT);
  cbn [fFlags fWidth fHeight fConfig desc_setWidth desc_setHeight desc_setFlags].
  - do 6 loop_step Hf. eexists; split; reflexivity.
  - do 3 loop_step Hf. eexists; split; reflexivity.
  - do 9 loop_step Hf. eexists; split; reflexivity.
  - do 6 loop_step Hf. eexists; split; reflexivity.
Qed.


Lemma scratchLoop_exact n inDesc ow d dW dH c :
  scratchLoop (S n) inDesc kExact_ScratchTexMatch ow d dW dH c
  = Some (fst (tryProbes [d] c), d, snd (tryProbes [d] c)).
Proof.
  rewrite scratchLoop_unfold, tryProbes_cons.
  destruct (findAndLock (scratchKey d) c) as [[r|] c1]; cbn; now rewrite ?orb_true_r.
Qed.


Section ScratchProofs.

Variable X : Externals.


Lemma lockScratchTexture_eq fuel inDesc m c :
  (9 <= fuel)%nat ->
  lockScratchTexture X fuel inDesc m c
  = Some (detachResult (createOnMiss X (binned inDesc m) (tryProbes (probes inDesc m) c))).
Proof.
  intros Hfuel. unfold lockScratchTexture.
  destruct m.
  - rewrite bool_decide_eq_false_2 by (intros H; now apply H).
    destruct fuel as [|n]; [lia|]. rewrite scratchLoop_exact.
    cbn [mbind option_bind]. unfold probes, binned.
    destruct (tryProbes [inDesc] c) as [[r|] c1]; cbn [fst snd createOnMiss detachResult].
    + reflexivity.
    + destruct inDesc as [f w h cfg]. cbn [desc_setFlags desc_setWidth desc_setHeight fFlags fWidth fHeight fConfig].
      unfold scratchKey.
      destruct (createTexture X _ c1) as [[t|] c']; reflexivity.
  - rewrite bool_decide_eq_true_2 by discriminate.
    replace fuel with (9 + (fuel - 9))%nat by lia.
    set (d0 := desc_setHeight _ _).
    assert (Hd0 : d0 = binned inDesc kApprox_ScratchTexMatch) by (now destruct inDesc).
    destruct (scratchLoop_approx (fuel - 9) inDesc d0 c) as (d1 & -> & Hcfg).
    { subst d0. now destruct inDesc. }
    cbn [mbind option_bind]. unfold probes. rewrite <- Hd0.
    destruct (tryProbes (probeSequence d0) c) as [[r|] c1]; cbn [fst snd createOnMiss detachResult].
    + reflexivity.
    + assert (Hd : desc_setHeight (fHeight d0) (desc_setWidth (fWidth d0) (desc_setFlags (fFlags inDesc) d1)) = d0).
      { subst d0. destruct inDesc, d1. cbn in *. now subst. }
      rewrite Hd. unfold scratchKey.
      destruct (createTexture X d0 c1) as [[t|] c']; reflexivity.
Qed.

End ScratchProofs.

Lemma tryProbes_missesAll ds c :
  missesAll ds c -> tryProbes ds c = (None, emitAll (map probeMiss ds) c).
Proof.
  revert c. induction ds as [|d ds IH]; intros c H.
  - cbn. now rewrite emitAll_nil.
  - inversion H as [|? ? Hd Hds]; subst. rewrite tryProbes_cons.
    rewrite findAndLock_miss by exact Hd.
    rewrite IH by exact Hds. cbn [map]. now rewrite emit_emitAll.
Qed.

(** ** The resource cache keeps what is locked *)

Lemma evict_subseteq l count bytes maxC maxB e :
  e ∈ ResourceCache.evict l count bytes maxC maxB -> e ∈ l.
Proof.
  revert count bytes. induction l as [|a l IH]; intros count bytes; cbn; [easy|].
  destruct ((count <=? maxC)%nat && (bytes <=? maxB)); [easy|].
  destruct (ResourceCache.entry_lockCount a =? 0)%nat.
  - intros H. apply elem_of_cons. right. eapply IH, H.
  - rewrite !elem_of_cons. intros [->|H]; [now left|right; eapply IH, H].
Qed.

Lemma evict_keeps_locked l count bytes maxC maxB e :
  e ∈ l -> ResourceCache.entry_lockCount e <> 0%nat ->
  e ∈ ResourceCache.evict l count bytes maxC maxB.
Proof.
  intros Hin Hlock. revert count bytes.
  induction l as [|a l IH]; intros count bytes; cbn; [easy|].
  destruct ((count <=? maxC)%nat && (bytes <=? maxB)); [easy|].
  apply elem_of_cons in Hin as [<-|Hin].
  - destruct (Nat.eqb_spec (ResourceCache.entry_lockCount e) 0); [easy|].
    apply elem_of_cons. now left.
  - destruct (ResourceCache.entry_lockCount a =? 0)%nat.
    + now apply IH.
    + apply elem_of_cons. right. now apply IH.
Qed.

Lemma elem_of_rev {A} (x : A) l : x ∈ rev l <-> x ∈ l.
Proof. rewrite !list_elem_of_In. symmetry. apply in_rev. Qed.

Lemma createAndLock_attached k r cache e :
  e ∈ ResourceCache.attached (ResourceCache.createAndLock k r cache) ->
  e = ResourceCache.mkEntry k r 1 \/ e ∈ ResourceCache.attached cache.
Proof.
  unfold ResourceCache.createAndLock, ResourceCache.purgeAsNeeded.
  cbn -[rev ResourceCache.evict].
  rewrite elem_of_rev. intros H%evict_subseteq.
  rewrite elem_of_rev in H. now apply elem_of_cons in H.
Qed.

Lemma createAndLock_registers k r cache :
  ResourceCache.mkEntry k r 1 ∈ ResourceCache.attached (ResourceCache.createAndLock k r cache).
Proof.
  unfold ResourceCache.createAndLock, ResourceCache.purgeAsNeeded. cbn -[rev ResourceCache.evict].
  rewrite elem_of_rev. apply evict_keeps_locked; [|cbn; lia].
  rewrite elem_of_rev. apply elem_of_cons. now left.
Qed.

Lemma detach_attached id cache e :
  e ∈ ResourceCache.attached (ResourceCache.detach id cache) <->
  ResourceCache.entry_id e <> id /\ e ∈ ResourceCache.attached cache.
Proof.
  unfold ResourceCache.detach. cbn. rewrite list_elem_of_filter.
  unfold ResourceCache.isEntryOf.
  destruct (Nat.eqb_spec (ResourceCache.entry_id e) id); cbn; intuition.
Qed.

Lemma detach_detached id cache e :
  e ∈ ResourceCache.attached cache -> ResourceCache.entry_id e = id ->
  e ∈ ResourceCache.detached (ResourceCache.detach id cache).
Proof.
  intros Hin Hid. unfold ResourceCache.detach. cbn.
  apply elem_of_app. left. apply list_elem_of_filter. split; [|exact Hin].
  unfold ResourceCache.isEntryOf. rewrite Hid, Nat.eqb_refl. exact I.
Qed.

Lemma lockFirst_Some k es r es' :
  ResourceCache.lockFirst k es = Some (r, es') ->
  (exists e, e ∈ es /\ ResourceCache.entry_key e = k /\ ResourceCache.entry_resource e = r)
  /\ ResourceCache.ids es' = ResourceCache.ids es.
Proof.
  revert r es'. induction es as [|a es IH]; intros r es'; cbn; [easy|].
  destruct (decide (ResourceCache.entry_key a = k)) as [Hk|Hk].
  - intros [= <- <-]. split; [|reflexivity].
    exists a. split; [apply elem_of_cons; now left|easy].
  - destruct (ResourceCache.lockFirst k es) as [[r0 rest]|]; [|easy].
    intros [= <- <-]. destruct (IH r0 rest eq_refl) as [(e & He & Hke & Hre) Hids].
    split; [|unfold ResourceCache.ids in *; cbn; congruence].
    exists e. split; [apply elem_of_cons; now right|easy].
Qed.

(** ** What one checkout does to the cache and to the device *)

Lemma findAndLock_effect k c r c1 :
  findAndLock k c = (r, c1) ->
  fGpu c1 = fGpu c /\ attachedIds c1 = attachedIds c
  /\ forall t, r = Some t -> tex_id t ∈ attachedIds c.
Proof.
  unfold findAndLock, ResourceCache.findAndLock, attachedIds.
  destruct (ResourceCache.lockFirst k _) as [[r0 es]|] eqn:E.
  - intros [= <- <-]. cbn. apply lockFirst_Some in E as [(e & He & _ & Hr) Hids].
    repeat split; [exact Hids|]. intros t [= <-]. subst r0.
    apply list_elem_of_fmap. exists e. split; [reflexivity|exact He].
  - intros [= <- <-]. cbn. repeat split. intros t [=].
Qed.

(** The entry a lookup finds is attached afterwards, locked. *)
Lemma lockFirst_locked k es r es' :
  ResourceCache.lockFirst k es = Some (r, es') ->
  exists e, e ∈ es' /\ ResourceCache.entry_resource e = r
            /\ ResourceCache.entry_lockCount e <> 0%nat.
Proof.
  revert r es'. induction es as [|a es IH]; intros r es'; cbn; [easy|].
  destruct (decide (ResourceCache.entry_key a = k)) as [Hk|Hk].
  - intros [= <- <-]. exists (ResourceCache.lockEntry a).
    split; [apply elem_of_cons; now left|]. split; [reflexivity|cbn; lia].
  - destruct (ResourceCache.lockFirst k es) as [[r0 rest]|]; [|easy].
    intros [= <- <-]. destruct (IH r0 rest eq_refl) as (e & He & Hr & Hl).
    exists e. split; [apply elem_of_cons; now right|easy].
Qed.

Lemma findAndLock_hit_entry k c t c1 :
  findAndLock k c = (Some t, c1) ->
  exists e, e ∈ ResourceCache.attached (fTextureCache c1)
            /\ ResourceCache.entry_resource e = t.
Proof.
  unfold findAndLock, ResourceCache.findAndLock.
  destruct (ResourceCache.lockFirst k _) as [[r0 es]|] eqn:E; [|easy].
  intros [= <- <-]. apply lockFirst_locked in E as (e & He & Hr & _).
  exists e. now split.
Qed.

Lemma tryProbes_hit_entry ds c t c1 :
  tryProbes ds c = (Some t, c1) ->
  exists e, e ∈ ResourceCache.attached (fTextureCache c1)
            /\ ResourceCache.entry_resource e = t.
Proof.
  revert c. induction ds as [|d ds IH]; intros c; cbn; [easy|].
  destruct (findAndLock (scratchKey d) c) as [[t0|] c0] eqn:E.
  - intros [= <- <-]. now apply findAndLock_hit_entry in E.
  - apply IH.
Qed.

Lemma tryProbes_effect ds c r c1 :
  tryProbes ds c = (r, c1) ->
  fGpu c1 = fGpu c /\ attachedIds c1 = attachedIds c
  /\ forall t, r = Some t -> tex_id t ∈ attachedIds c.
Proof.
  revert c. induction ds as [|d ds IH]; intros c; cbn.
  - intros [= <- <-]. repeat split. intros t [=].
  - destruct (findAndLock (scratchKey d) c) as [[t0|] c0] eqn:E;
      apply findAndLock_effect in E as (Hg & Hids & Hr).
    + intros [= <- <-]. repeat split; assumption.
    + intros H. apply IH in H as (Hg' & Hids' & Hr').
      rewrite Hg', Hids', Hg, Hids in *. repeat split. exact Hr'.
Qed.

Lemma handlesIssued_ids c :
  handlesIssued c <-> forall id, id ∈ attachedIds c -> (id < gpu_nextHandle (fGpu c))%nat.
Proof.
  unfold handlesIssued, attachedIds, ResourceCache.ids. rewrite List.Forall_forall. split.
  - intros H id (e & -> & He)%list_elem_of_fmap. now apply H, list_elem_of_In.
  - intros H e He%list_elem_of_In. apply H. apply list_elem_of_fmap. now exists e.
Qed.

Lemma detach_ids id cache x :
  x ∈ ResourceCache.ids (ResourceCache.attached (ResourceCache.detach id cache)) <->
  x <> id /\ x ∈ ResourceCache.ids (ResourceCache.attached cache).
Proof.
  unfold ResourceCache.ids. rewrite !list_elem_of_fmap. split.
  - intros (e & -> & He). apply detach_attached in He as [Hne He].
    split; [exact Hne|]. now exists e.
  - intros (Hne & e & Hx & He). exists e. split; [exact Hx|].
    apply detach_attached. split; [congruence|exact He].
Qed.

Lemma attachedIds_detach id cache c x :
  x ∈ attachedIds (set_fTextureCache (ResourceCache.detach id cache) c) <->
  x <> id /\ x ∈ ResourceCache.ids (ResourceCache.attached cache).
Proof. unfold attachedIds. cbn [fTextureCache set_fTextureCache]. apply detach_ids. Qed.

(** Whatever the cache holds, a texture that is handed out sits on the
    detached list when the call returns. *)
Lemma lockScratchTexture_detaches X fuel inDesc m c t c' :
  (9 <= fuel)%nat ->
  lockScratchTexture X fuel inDesc m c = Some (Some t, c') ->
  exists e, e ∈ ResourceCache.detached (fTextureCache c')
            /\ ResourceCache.entry_resource e = t.
Proof.
  intros Hfuel. rewrite lockScratchTexture_eq by exact Hfuel.
  destruct (tryProbes (probes inDesc m) c) as [r c1] eqn:E.
  destruct r as [t0|]; cbn [createOnMiss].
  - cbn [detachResult]. intros [= <- <-].
    destruct (tryProbes_hit_entry _ _ _ _ E) as (e & He1 & He2).
    exists e. split; [|exact He2]. cbn [fTextureCache set_fTextureCache].
    apply detach_detached; [exact He1|]. unfold ResourceCache.entry_id. now rewrite He2.
  - unfold createTexture.
    destruct (createTexture_ok X (gpu_nextHandle (fGpu c1)) (binned inDesc m)); [|easy].
    cbn [detachResult]. intros [= <- <-].
    eexists. split; [apply detach_detached; [apply createAndLock_registers|]|]; reflexivity.
Qed.

Section Checkout.

Variable X : Externals.

(** One checkout: the texture handed out is no longer attached, it sits
    on the detached list, its handle is below the device's next handle,
    and it was either attached before or is the handle the device
    issued during this call. *)
Lemma lockScratchTexture_checkout fuel inDesc m c t c' :
  (9 <= fuel)%nat ->
  handlesIssued c ->
  lockScratchTexture X fuel inDesc m c = Some (Some t, c') ->
  (tex_id t < gpu_nextHandle (fGpu c'))%nat
  /\ (tex_id t ∉ attachedIds c')
  /\ handlesIssued c'
  /\ (tex_id t ∈ attachedIds c \/ tex_id t = gpu_nextHandle (fGpu c))
  /\ (exists e, e ∈ ResourceCache.detached (fTextureCache c')
                /\ ResourceCache.entry_resource e = t).
Proof.
  intros Hfuel Hwf. rewrite lockScratchTexture_eq by exact Hfuel.
  destruct (tryProbes (probes inDesc m) c) as [r c1] eqn:E.
  pose proof E as E0.
  apply tryProbes_effect in E as (Hg & Hids & Hr).
  rewrite handlesIssued_ids in Hwf.
  destruct r as [t0|]; cbn [createOnMiss].
  - cbn [detachResult]. intros [= <- <-]. specialize (Hr t0 eq_refl).
    cbn [fGpu set_fTextureCache]. rewrite Hg.
    split; [now apply Hwf|].
    split. { rewrite attachedIds_detach. intros [? _]. congruence. }
    split. { apply handlesIssued_ids.
             intros id [_ Hid]%attachedIds_detach. cbn [fGpu set_fTextureCache].
             rewrite Hg. apply Hwf. now rewrite <- Hids. }
    split; [now left|].
    destruct (tryProbes_hit_entry _ _ _ _ E0) as (e & He1 & He2).
    exists e. split; [|exact He2]. cbn [fTextureCache set_fTextureCache].
    apply detach_detached; [exact He1|]. unfold ResourceCache.entry_id. now rewrite He2.
  - unfold createTexture.
    destruct (createTexture_ok X (gpu_nextHandle (fGpu c1)) (binned inDesc m)); [|easy].
    cbn [detachResult]. intros [= <- <-].
    cbn [fGpu set_fTextureCache set_fGpu emit tex_id fTextureCache gpu_nextHandle]. rewrite Hg.
    split; [lia|].
    split. { rewrite attachedIds_detach. intros [? _]. congruence. }
    split. { apply handlesIssued_ids.
             intros id [Hne Hid]%attachedIds_detach.
             cbn [fGpu set_fTextureCache set_fGpu emit tex_id fTextureCache gpu_nextHandle].
             unfold ResourceCache.ids in Hid. apply list_elem_of_fmap in Hid as (e & -> & He).
             apply createAndLock_attached in He as [->|He]; [cbn; lia|].
             assert (ResourceCache.entry_id e ∈ attachedIds c).
             { rewrite <- Hids. unfold attachedIds, ResourceCache.ids.
               apply list_elem_of_fmap. now exists e. }
             apply Hwf in H. lia. }
    split; [now right|].
    eexists. split; [apply detach_detached; [apply createAndLock_registers|]|]; reflexivity.
Qed.

End Checkout.

(** An attached texture was attached before the call or carries the
    handle the device issued during it. *)
Lemma lockScratchTexture_attached_origin X fuel inDesc m c r c' id :
  (9 <= fuel)%nat ->
  lockScratchTexture X fuel inDesc m c = Some (r, c') ->
  id ∈ attachedIds c' ->
  id ∈ attachedIds c \/ id = gpu_nextHandle (fGpu c).
Proof.
  intros Hfuel. rewrite lockScratchTexture_eq by exact Hfuel.
  destruct (tryProbes (probes inDesc m) c) as [r1 c1] eqn:E.
  apply tryProbes_effect in E as (Hg & Hids & _).
  destruct r1 as [t0|]; cbn [createOnMiss].
  - cbn [detachResult]. intros [= <- <-] [_ Hid]%attachedIds_detach.
    left. now rewrite <- Hids.
  - unfold createTexture.
    destruct (createTexture_ok X _ _); cbn [detachResult]; intros [= <- <-].
    + intros [_ Hid]%attachedIds_detach.
      unfold ResourceCache.ids in Hid. apply list_elem_of_fmap in Hid as (e & -> & He).
      apply createAndLock_attached in He as [->|He].
      * right. cbn. now rewrite Hg.
      * left. rewrite <- Hids. unfold attachedIds, ResourceCache.ids.
        apply list_elem_of_fmap. now exists e.
    + intros Hid. left. now rewrite <- Hids.
Qed.

(** ** lockScratchTexture: relaxation order, creation, exclusivity *)

Lemma createdDescs_app l1 l2 : createdDescs (l1 ++ l2) = createdDescs l1 ++ createdDescs l2.
Proof. apply flat_map_app. Qed.

Lemma createdDescs_probeMiss ds : createdDescs (map probeMiss ds) = [].
Proof. induction ds as [|d ds IH]; [reflexivity|exact IH]. Qed.

Lemma probedKeys_app l1 l2 : probedKeys (l1 ++ l2) = probedKeys l1 ++ probedKeys l2.
Proof. apply flat_map_app. Qed.

(** Within [doublingFits] every size the search probes is positive and
    at most 2^30, so the doublings of [relax], taken on [Z], are the
    ones the C++ takes on [int]. *)
Lemma GrNextPow2_bounds n : 0 < n <= 2 ^ 29 -> 0 < GrNextPow2 n <= 2 ^ 29.
Proof.
  intros [Hlo Hhi]. unfold GrNextPow2.
  assert (0 <= Z.log2_up n) by apply Z.log2_up_nonneg.
  assert (Z.log2_up n <= 29).
  { change 29 with (Z.log2_up (2 ^ 29)). now apply Z.log2_up_le_mono. }
  split; [apply Z.pow_pos_nonneg; lia|].
  apply Z.pow_le_mono_r; lia.
Qed.

Lemma binned_bounds inDesc :
  0 < fWidth inDesc <= 2 ^ 29 -> 0 < fHeight inDesc <= 2 ^ 29 ->
  256 <= fWidth (binned inDesc kApprox_ScratchTexMatch) <= 2 ^ 29
  /\ 256 <= fHeight (binned inDesc kApprox_ScratchTexMatch) <= 2 ^ 29.
Proof.
  intros Hw%GrNextPow2_bounds Hh%GrNextPow2_bounds.
  cbn [binned fWidth fHeight]. unfold GrMax, MIN_SIZE.
  destruct (Z.ltb_spec (GrNextPow2 (fWidth inDesc)) 256),
           (Z.ltb_spec (GrNextPow2 (fHeight inDesc)) 256); lia.
Qed.

Lemma flagSteps_size d d' :
  d' ∈ flagSteps d -> fWidth d' = fWidth d /\ fHeight d' = fHeight d.
Proof.
  unfold flagSteps. rewrite !elem_of_app, list_elem_of_singleton.
  intros [->|[H|H]]; [easy| |].
  - destruct (hasBit _ _); [now apply elem_of_nil in H|].
    apply list_elem_of_singleton in H as ->. easy.
  - destruct (hasBit (fFlags d) kNoStencil_GrTextureFlagBit); [|now apply elem_of_nil in H].
    apply list_elem_of_singleton in H as ->. easy.
Qed.

Lemma probes_in_int_range inDesc m :
  doublingFits inDesc m ->
  m = kApprox_ScratchTexMatch ->
  Forall (fun d => 256 <= fWidth d <= 2 ^ 30 /\ 256 <= fHeight d <= 2 ^ 30)
         (probes inDesc m).
Proof.
  intros Hfit ->. destruct (Hfit eq_refl) as [Hw Hh].
  destruct (binned_bounds inDesc Hw Hh) as [Bw Bh].
  apply list.Forall_forall. intros d. cbn [probes]. unfold probeSequence.
  rewrite !elem_of_app.
  intros [H|[H|H]]; apply flagSteps_size in H as [-> ->];
    cbn [desc_setWidth desc_setHeight fWidth fHeight] in *; lia.
Qed.

(** The search only adds to the checked-out entries. *)
Lemma findAndLock_detached k c r c1 :
  findAndLock k c = (r, c1) ->
  ResourceCache.detached (fTextureCache c1) = ResourceCache.detached (fTextureCache c).
Proof.
  unfold findAndLock, ResourceCache.findAndLock.
  destruct (ResourceCache.lockFirst k _) as [[r0 es]|]; now intros [= <- <-].
Qed.

Lemma tryProbes_detached ds c r c1 :
  tryProbes ds c = (r, c1) ->
  ResourceCache.detached (fTextureCache c1) = ResourceCache.detached (fTextureCache c).
Proof.
  revert c. induction ds as [|d ds IH]; intros c; cbn.
  - now intros [= <- <-].
  - destruct (findAndLock (scratchKey d) c) as [[t0|] c0] eqn:E;
      apply findAndLock_detached in E.
    + now intros [= <- <-].
    + intros H%IH. congruence.
Qed.

Lemma lockScratchTexture_keeps_detached X fuel inDesc m c r c' e :
  (9 <= fuel)%nat ->
  lockScratchTexture X fuel inDesc m c = Some (r, c') ->
  e ∈ ResourceCache.detached (fTextureCache c) ->
  e ∈ ResourceCache.detached (fTextureCache c').
Proof.
  intros Hfuel. rewrite lockScratchTexture_eq by exact Hfuel.
  destruct (tryProbes (probes inDesc m) c) as [r1 c1] eqn:E.
  apply tryProbes_detached in E. rewrite <- E.
  destruct r1 as [t0|]; cbn [createOnMiss].
  - cbn [detachResult]. intros [= <- <-] He. cbn. apply elem_of_app. now right.
  - unfold createTexture.
    destruct (createTexture_ok X _ _); cbn [detachResult]; intros [= <- <-] He.
    + cbn. apply elem_of_app. now right.
    + exact He.
Qed.

(** After a search in which every probe missed. *)
Lemma lockScratchTexture_all_miss X fuel inDesc m c :
  (9 <= fuel)%nat ->
  missesAll (probes inDesc m) c ->
  lockScratchTexture X fuel inDesc m c
  = Some (detachResult
            (createOnMiss X (binned inDesc m)
               (None, emitAll (map probeMiss (probes inDesc m)) c))).
Proof.
  intros Hfuel Hmiss. rewrite lockScratchTexture_eq by exact Hfuel.
  now rewrite tryProbes_missesAll.
Qed.

(** C1, amended.  When every lookup of an approximate request misses,
    the cache is probed at the binned size with the flags as requested,
    then with the render-target bit added (if it was missing), then with
    the no-stencil bit removed (if it was set); the width is then
    doubled with the flags reset and the same flag steps are probed
    again, and the height is doubled (flags reset, width restored) and
    the flag steps are probed once more; the device is asked for a
    texture only after the last of these probes.  An exact request is
    probed once, as it is, and never relaxed.  The request is one whose
    doubled sizes fit a C++ [int] (requested width and height at most
    2^29 for an approximate match): every probed width and height is
    then between 256 and 2^30. *)
Theorem lockScratchTexture_relaxation_order X fuel inDesc m c :
  (9 <= fuel)%nat ->
  doublingFits inDesc m ->
  missesAll (probes inDesc m) c ->
  exists r c',
    lockScratchTexture X fuel inDesc m c = Some (r, c')
    /\ trace c' = trace c ++ map probeMiss (probes inDesc m)
                          ++ [EvCreateTexture (binned inDesc m) (tex_id <$> r)]
    /\ match m with
       | kExact_ScratchTexMatch => probes inDesc m = [inDesc]
       | kApprox_ScratchTexMatch =>
           probes inDesc m
           = flagSteps (binned inDesc m)
             ++ flagSteps (desc_setWidth (fWidth (binned inDesc m) * 2) (binned inDesc m))
             ++ flagSteps (desc_setHeight (fHeight (binned inDesc m) * 2) (binned inDesc m))
           /\ Forall (fun d => 256 <= fWidth d <= 2 ^ 30 /\ 256 <= fHeight d <= 2 ^ 30)
                     (probes inDesc m)
       end.
Proof.
  intros Hfuel Hfit Hmiss. rewrite lockScratchTexture_all_miss by assumption.
  assert (Hshape : match m with
       | kExact_ScratchTexMatch => probes inDesc m = [inDesc]
       | kApprox_ScratchTexMatch =>
           probes inDesc m
           = flagSteps (binned inDesc m)
             ++ flagSteps (desc_setWidth (fWidth (binned inDesc m) * 2) (binned inDesc m))
             ++ flagSteps (desc_setHeight (fHeight (binned inDesc m) * 2) (binned inDesc m))
           /\ Forall (fun d => 256 <= fWidth d <= 2 ^ 30 /\ 256 <= fHeight d <= 2 ^ 30)
                     (probes inDesc m)
       end).
  { destruct m; [reflexivity|]. split; [reflexivity|].
    now apply probes_in_int_range. }
  cbn [createOnMiss]. unfold createTexture.
  destruct (createTexture_ok X _ _); cbn [detachResult]; eexists _, _;
    (split; [reflexivity|]); (split; [|exact Hshape]);
    cbn; now rewrite <- app_assoc.
Qed.

Lemma lockScratchTexture_relaxation_order_witness :
  exists r c',
    lockScratchTexture sampleExternals 9 sampleDesc kApprox_ScratchTexMatch sampleContext
    = Some (r, c')
    /\ probedKeys (trace c')
       = map scratchKey
           [mkDesc 0 256 256 kRGBA_8888_GrPixelConfig; mkDesc 1 256 256 kRGBA_8888_GrPixelConfig;
            mkDesc 0 512 256 kRGBA_8888_GrPixelConfig; mkDesc 1 512 256 kRGBA_8888_GrPixelConfig;
            mkDesc 0 256 512 kRGBA_8888_GrPixelConfig; mkDesc 1 256 512 kRGBA_8888_GrPixelConfig].
Proof.
  destruct (lockScratchTexture_relaxation_order sampleExternals 9 sampleDesc
              kApprox_ScratchTexMatch sampleContext)
    as (r & c' & Heq & Htr & _).
  - lia.
  - intros _. cbn. lia.
  - unfold missesAll. vm_compute. repeat constructor.
  - exists r, c'. split; [exact Heq|]. rewrite Htr. vm_compute. reflexivity.
Defined.

(** The order of C1 as it is worded fails: for a request without flags
    the search makes six probes, and the one after the width doubling
    adds the render-target bit again instead of doubling the height. *)
Lemma lockScratchTexture_spec_order_counterexample :
  option_map (fun rc => probedKeys (trace (snd rc)))
    (lockScratchTexture sampleExternals 9 sampleDesc kApprox_ScratchTexMatch sampleContext)
  <> Some (map scratchKey (specRelaxationOrder (binned sampleDesc kApprox_ScratchTexMatch))).
Proof. vm_compute. discriminate. Qed.

(** C3, amended.  When every lookup misses, the device is asked for a
    texture with the caller's flags and pixel format and with the width
    and height the search started from: the requested ones for an exact
    match, each rounded up to a power of two and floored at 256 for an
    approximate match.  A texture the device returns carries that
    descriptor, is registered under its scratch key, locked once, and is
    handed out detached; when the device returns none the result is
    NULL, nothing is registered and no handle is used up.  The request
    is one whose doubled sizes fit a C++ [int]: the size asked of the
    device is then between 256 and 2^29 for an approximate match. *)
Theorem lockScratchTexture_creates_binned X fuel inDesc m c :
  (9 <= fuel)%nat ->
  doublingFits inDesc m ->
  missesAll (probes inDesc m) c ->
  exists r c',
    lockScratchTexture X fuel inDesc m c = Some (r, c')
    /\ createdDescs (trace c') = createdDescs (trace c) ++ [binned inDesc m]
    /\ fFlags (binned inDesc m) = fFlags inDesc
    /\ fConfig (binned inDesc m) = fConfig inDesc
    /\ binned inDesc kExact_ScratchTexMatch = inDesc
    /\ fWidth (binned inDesc kApprox_ScratchTexMatch)
       = GrMax 256 (GrNextPow2 (fWidth inDesc))
    /\ fHeight (binned inDesc kApprox_ScratchTexMatch)
       = GrMax 256 (GrNextPow2 (fHeight inDesc))
    /\ (m = kApprox_ScratchTexMatch ->
        256 <= fWidth (binned inDesc m) <= 2 ^ 29
        /\ 256 <= fHeight (binned inDesc m) <= 2 ^ 29)
    /\ (r = None <-> createTexture_ok X (gpu_nextHandle (fGpu c)) (binned inDesc m) = false)
    /\ (r = None -> fTextureCache c' = fTextureCache c /\ fGpu c' = fGpu c)
    /\ forall t, r = Some t ->
         tex_desc t = binned inDesc m
         /\ tex_id t = gpu_nextHandle (fGpu c)
         /\ ResourceCache.mkEntry (scratchKey (binned inDesc m)) t 1
              ∈ ResourceCache.detached (fTextureCache c')
         /\ (tex_id t ∉ attachedIds c').
Proof.
  intros Hfuel Hfit Hmiss. rewrite lockScratchTexture_all_miss by assumption.
  assert (Hsize : m = kApprox_ScratchTexMatch ->
                  256 <= fWidth (binned inDesc m) <= 2 ^ 29
                  /\ 256 <= fHeight (binned inDesc m) <= 2 ^ 29).
  { intros ->. destruct (Hfit eq_refl) as [Hw Hh]. now apply binned_bounds. }
  cbn [createOnMiss]. unfold createTexture.
  cbn [fGpu emitAll].
  destruct (createTexture_ok X _ _) eqn:Hok; cbn [detachResult]; eexists _, _;
    (split; [reflexivity|]).
  - split. { cbn -[createdDescs].
             now rewrite !createdDescs_app, createdDescs_probeMiss, app_nil_r. }
    split; [now destruct m|]. split; [now destruct m|].
    split; [reflexivity|]. split; [reflexivity|]. split; [reflexivity|].
    split; [exact Hsize|].
    split; [split; discriminate|]. split; [discriminate|].
    intros t [= <-]. cbn [tex_desc tex_id]. split; [reflexivity|]. split; [reflexivity|].
    split.
    + cbn [fTextureCache set_fTextureCache]. apply detach_detached; [|reflexivity].
      apply createAndLock_registers.
    + rewrite attachedIds_detach. intros [? _]. congruence.
  - split. { cbn -[createdDescs].
             now rewrite !createdDescs_app, createdDescs_probeMiss, app_nil_r. }
    split; [now destruct m|]. split; [now destruct m|].
    split; [reflexivity|]. split; [reflexivity|]. split; [reflexivity|].
    split; [exact Hsize|].
    split; [split; reflexivity|]. split; [intros _; now split|].
    intros t [=].
Qed.

Lemma lockScratchTexture_creates_binned_witness :
  exists r c',
    lockScratchTexture sampleExternals 9 sampleDesc kApprox_ScratchTexMatch sampleContext
    = Some (r, c')
    /\ createdDescs (trace c') = [mkDesc 0 256 256 kRGBA_8888_GrPixelConfig].
Proof.
  destruct (lockScratchTexture_creates_binned sampleExternals 9 sampleDesc
              kApprox_ScratchTexMatch sampleContext)
    as (r & c' & Heq & Htr & _).
  - lia.
  - intros _. cbn. lia.
  - unfold missesAll. vm_compute. repeat constructor.
  - exists r, c'. split; [exact Heq|]. rewrite Htr. vm_compute. reflexivity.
Defined.

(** C3 as it is worded fails: an approximate request for 100 x 100 makes
    the device create a 256 x 256 texture, not one of the width and
    height passed in. *)
Lemma lockScratchTexture_original_desc_counterexample :
  option_map (fun rc => createdDescs (trace (snd rc)))
    (lockScratchTexture sampleExternals 9 sampleDesc kApprox_ScratchTexMatch sampleContext)
  = Some [mkDesc 0 256 256 kRGBA_8888_GrPixelConfig]
  /\ mkDesc 0 256 256 kRGBA_8888_GrPixelConfig <> sampleDesc.
Proof. split; [vm_compute; reflexivity|discriminate]. Qed.

(** C2.  A texture returned by [lockScratchTexture], found in the cache
    or freshly created, has been moved by the call from the cache's
    lookup structure to the checked-out entries: on return an entry
    holding it is on the detached list and none is attached.  A second
    request with the same descriptor, made before the first texture is
    released, likewise returns a detached texture, leaves the first one
    checked out, and returns a texture with a different handle. *)
Theorem lockScratchTexture_exclusive X fuel1 fuel2 inDesc m c t1 c1 t2 c2 :
  (9 <= fuel1)%nat ->
  (9 <= fuel2)%nat ->
  handlesIssued c ->
  lockScratchTexture X fuel1 inDesc m c = Some (Some t1, c1) ->
  lockScratchTexture X fuel2 inDesc m c1 = Some (Some t2, c2) ->
  (exists e, e ∈ ResourceCache.detached (fTextureCache c1)
             /\ ResourceCache.entry_resource e = t1
             /\ e ∈ ResourceCache.detached (fTextureCache c2))
  /\ (tex_id t1 ∉ attachedIds c1)
  /\ (tex_id t1 ∈ attachedIds c \/ tex_id t1 = gpu_nextHandle (fGpu c))
  /\ (exists e, e ∈ ResourceCache.detached (fTextureCache c2)
                /\ ResourceCache.entry_resource e = t2)
  /\ (tex_id t2 ∉ attachedIds c2)
  /\ (tex_id t1 ∉ attachedIds c2)
  /\ tex_id t1 <> tex_id t2.
Proof.
  intros Hf1 Hf2 Hwf H1 H2.
  destruct (lockScratchTexture_checkout X fuel1 inDesc m c t1 c1 Hf1 Hwf H1)
    as (Hlt1 & Hout1 & Hwf1 & Horigin1 & e1 & He1 & Hid1).
  destruct (lockScratchTexture_checkout X fuel2 inDesc m c1 t2 c2 Hf2 Hwf1 H2)
    as (_ & Hout2 & _ & Horigin & e2 & He2 & Hid2).
  assert (Hne : tex_id t1 <> tex_id t2).
  { destruct Horigin as [Hin|Hfresh].
    - intros Heq. apply Hout1. now rewrite Heq.
    - lia. }
  split. { exists e1. split; [exact He1|]. split; [exact Hid1|].
           eapply lockScratchTexture_keeps_detached; eauto. }
  split; [exact Hout1|]. split; [exact Horigin1|].
  split. { now exists e2. }
  split; [exact Hout2|]. split; [|exact Hne].
  intros Hin.
  destruct (lockScratchTexture_attached_origin X fuel2 inDesc m c1 _ c2 _ Hf2 H2 Hin)
    as [Hold|Hnew]; [now apply Hout1|lia].
Qed.

Lemma lockScratchTexture_exclusive_witness :
  (exists e, e ∈ ResourceCache.detached (fTextureCache sampleCheckedOut)
             /\ ResourceCache.entry_resource e = sampleScratch
             /\ e ∈ ResourceCache.detached (fTextureCache sampleCheckedOutTwice))
  /\ (tex_id sampleScratch ∉ attachedIds sampleCheckedOut)
  /\ (tex_id sampleScratch ∈ attachedIds sampleCached
      \/ tex_id sampleScratch = gpu_nextHandle (fGpu sampleCached))
  /\ (exists e, e ∈ ResourceCache.detached (fTextureCache sampleCheckedOutTwice)
                /\ ResourceCache.entry_resource e
                   = mkTexture 1 (mkDesc 0 256 256 kRGBA_8888_GrPixelConfig))
  /\ (1%nat ∉ attachedIds sampleCheckedOutTwice)
  /\ (tex_id sampleScratch ∉ attachedIds sampleCheckedOutTwice)
  /\ tex_id sampleScratch <> 1%nat.
Proof.
  apply (lockScratchTexture_exclusive sampleExternals 9 9 sampleDesc kApprox_ScratchTexMatch
           sampleCached sampleScratch sampleCheckedOut
           (mkTexture 1 (mkDesc 0 256 256 kRGBA_8888_GrPixelConfig)) sampleCheckedOutTwice).
  - lia.
  - lia.
  - repeat constructor.
  - vm_compute. reflexivity.
  - vm_compute. reflexivity.
Defined.

(** ** setPaint *)

Lemma Overwrite_compose h1 h2 :
  Overwrite h1 -> Overwrite h2 -> Overwrite (fun x => h2 (h1 x)).
Proof.
  intros [H1|H1|v1 H1] [H2|H2|v2 H2].
  - apply ow_id. intros x. now rewrite H1, H2.
  - apply ow_clear. intros x. now rewrite H1, H2.
  - apply (ow_const _ v2). intros x. now rewrite H2.
  - apply ow_clear. intros x. now rewrite H1, H2.
  - apply ow_clear. intros x. now rewrite H1, H2.
  - apply (ow_const _ v2). intros x. now rewrite H2.
  - apply (ow_const _ v1). intros x. now rewrite H1, H2.
  - apply (ow_const _ (clearCustomStage v1)). intros x. now rewrite H1, H2.
  - apply (ow_const _ v2). intros x. now rewrite H2.
Qed.

Lemma Overwrite_idem h x : Overwrite h -> h (h x) = h x.
Proof. intros [H|H|v H]; now rewrite !H. Qed.

Lemma Elementwise_id : Elementwise (fun l => l).
Proof.
  exists (fun _ x => x). split.
  - intros l j. now destruct (l !! j).
  - intros j. now apply ow_id.
Qed.

Lemma Elementwise_insert s v : Elementwise (fun l => <[s := v]> l).
Proof.
  exists (fun j x => if decide (j = s) then v else x). split.
  - intros l j. destruct (decide (j = s)) as [->|Hne].
    + destruct (decide (s < length l)%nat) as [Hlt|Hge].
      * rewrite list_lookup_insert_eq by exact Hlt.
        destruct (lookup_lt_is_Some_2 l s Hlt) as [x ->]. reflexivity.
      * rewrite list_insert_ge by lia. rewrite (lookup_ge_None_2 l s) by lia. reflexivity.
    + rewrite list_lookup_insert_ne by congruence. now destruct (l !! j).
  - intros j. destruct (decide (j = s)); [now apply (ow_const _ v)|now apply ow_id].
Qed.

Lemma Elementwise_alter s : Elementwise (fun l => alter clearCustomStage s l).
Proof.
  exists (fun j x => if decide (j = s) then clearCustomStage x else x). split.
  - intros l j. destruct (decide (j = s)) as [->|Hne].
    + apply list_lookup_alter_eq.
    + rewrite list_lookup_alter_ne by congruence. now destruct (l !! j).
  - intros j. destruct (decide (j = s)); [now apply ow_clear|now apply ow_id].
Qed.

Lemma Elementwise_compose g1 g2 :
  Elementwise g1 -> Elementwise g2 -> Elementwise (fun l => g2 (g1 l)).
Proof.
  intros (h1 & Hl1 & Ho1) (h2 & Hl2 & Ho2).
  exists (fun j x => h2 j (h1 j x)). split.
  - intros l j. rewrite Hl2, Hl1. now destruct (l !! j).
  - intros j. now apply Overwrite_compose.
Qed.

Lemma Elementwise_ext g g' :
  (forall l, g' l = g l) -> Elementwise g -> Elementwise g'.
Proof.
  intros Heq (h & Hl & Ho). exists h. split; [|exact Ho].
  intros l j. now rewrite Heq.
Qed.

Lemma Elementwise_fold (step : list GrSamplerState -> nat -> list GrSamplerState) idxs :
  (forall i, Elementwise (fun l => step l i)) ->
  Elementwise (fun l => fold_left step idxs l).
Proof.
  intros Hstep. induction idxs as [|i idxs IH] using rev_ind.
  - apply Elementwise_id.
  - eapply (Elementwise_ext (fun l => step (fold_left step idxs l) i)).
    + intros l. now rewrite fold_left_app.
    + apply (Elementwise_compose _ (fun l => step l i)); [exact IH|apply Hstep].
Qed.

Lemma Elementwise_idem g l : Elementwise g -> g (g l) = g l.
Proof.
  intros (h & Hl & Ho). apply list_eq. intros j. rewrite !Hl.
  destruct (l !! j) as [x|]; [|reflexivity]. cbn. f_equal. now apply Overwrite_idem.
Qed.

Lemma fold_left_samplers (step : GrDrawState -> nat -> GrDrawState)
      (lstep : list GrSamplerState -> nat -> list GrSamplerState) idxs ds :
  (forall d i, step d i = withSamplers (lstep (ds_samplers d) i) d) ->
  fold_left step idxs ds = withSamplers (fold_left lstep idxs (ds_samplers ds)) ds.
Proof.
  intros Hstep. revert ds. induction idxs as [|i idxs IH]; intros ds; cbn [fold_left].
  - now destruct ds.
  - rewrite IH, Hstep. reflexivity.
Qed.

Section PaintProofs.

Variable X : Externals.

Lemma textureStageStep_samplers paint d i :
  textureStageStep X paint d i
  = withSamplers (if isTextureStageEnabled paint i
                  then <[(i + kFirstTextureStage X)%nat := getTextureSampler paint i]> (ds_samplers d)
                  else ds_samplers d) d.
Proof.
  unfold textureStageStep. destruct (isTextureStageEnabled paint i); now destruct d.
Qed.

Lemma maskStageStep_samplers paint d i :
  maskStageStep X paint d i
  = withSamplers (if isMaskStageEnabled paint i
                  then <[(i + kFirstMaskStage X)%nat := getMaskSampler paint i]> (ds_samplers d)
                  else ds_samplers d) d.
Proof.
  unfold maskStageStep. destruct (isMaskStageEnabled paint i); now destruct d.
Qed.

Lemma applyPaint_eq paint ds :
  applyPaint X paint ds
  = mkDrawState (paintSamplers X paint (ds_samplers ds)) (kFirstMaskStage X) (fColor paint)
      (paintFlagBits X paint (ds_flagBits ds))
      (if fColorMatrixEnabled paint then fColorMatrix paint else ds_colorMatrix ds)
      (fSrcBlendCoeff paint) (fDstBlendCoeff paint)
      (fColorFilterColor paint) (fColorFilterXfermode paint)
      (fCoverage paint * 16843009)
      (ds_viewMatrix ds) (ds_renderTarget ds) (ds_vertexEdgeType ds).
Proof.
  unfold applyPaint, paintSamplers, paintFlagBits, setOrClearBits.
  rewrite (fold_left_samplers (textureStageStep X paint)
             (fun l i => if isTextureStageEnabled paint i
                         then <[(i + kFirstTextureStage X)%nat := getTextureSampler paint i]> l
                         else l) _ _ (textureStageStep_samplers paint)).
  rewrite (fold_left_samplers (maskStageStep X paint)
             (fun l i => if isMaskStageEnabled paint i
                         then <[(i + kFirstMaskStage X)%nat := getMaskSampler paint i]> l
                         else l) _ _ (maskStageStep_samplers paint)).
  rewrite (fold_left_samplers (fun ds s => disableStage s ds)
             (fun l s => alter clearCustomStage s l)) by reflexivity.
  destruct (fDither paint), (fAntiAlias paint), (fColorMatrixEnabled paint); reflexivity.
Qed.

Lemma paintSamplers_Elementwise paint : Elementwise (paintSamplers X paint).
Proof.
  unfold paintSamplers.
  apply (Elementwise_compose
           (fun l => fold_left _ (seq 0 (kMaxMasks X)) (fold_left _ (seq 0 (kMaxTextures X)) l))
           (fun l => fold_left _ (seq (kTotalStages X) (kNumStages X - kTotalStages X)) l)).
  - apply (Elementwise_compose
             (fun l => fold_left _ (seq 0 (kMaxTextures X)) l)
             (fun l => fold_left _ (seq 0 (kMaxMasks X)) l)).
    + apply Elementwise_fold. intros i.
      destruct (isTextureStageEnabled paint i);
        [apply Elementwise_insert|apply Elementwise_id].
    + apply Elementwise_fold. intros i.
      destruct (isMaskStageEnabled paint i);
        [apply Elementwise_insert|apply Elementwise_id].
  - apply Elementwise_fold. intros s. apply Elementwise_alter.
Qed.

Lemma setOrClearBits_testbit on bits x n :
  0 <= n ->
  Z.testbit (setOrClearBits on bits x) n
  = if Z.testbit bits n then on else Z.testbit x n.
Proof.
  intros Hn. unfold setOrClearBits. destruct on.
  - rewrite Z.lor_spec. destruct (Z.testbit bits n); [apply orb_true_r|apply orb_false_r].
  - rewrite Z.land_spec, Z.lnot_spec by exact Hn.
    destruct (Z.testbit bits n); [apply andb_false_r|apply andb_true_r].
Qed.

Lemma paintFlagBits_idem paint x :
  paintFlagBits X paint (paintFlagBits X paint x) = paintFlagBits X paint x.
Proof.
  apply Z.bits_inj'. intros n Hn. unfold paintFlagBits.
  rewrite !setOrClearBits_testbit by exact Hn.
  destruct (Z.testbit (kColorMatrix_StateBit X) n), (Z.testbit (kHWAntialias_StateBit X) n),
    (Z.testbit (kDither_StateBit X) n); reflexivity.
Qed.

Lemma applyPaint_idem paint ds :
  applyPaint X paint (applyPaint X paint ds) = applyPaint X paint ds.
Proof.
  rewrite !applyPaint_eq. cbn [ds_samplers ds_flagBits ds_colorMatrix ds_viewMatrix
                                ds_renderTarget ds_vertexEdgeType].
  rewrite (Elementwise_idem _ _ (paintSamplers_Elementwise paint)), paintFlagBits_idem.
  now destruct (fColorMatrixEnabled paint).
Qed.

(** C9.  [setPaint] changes nothing but the draw state: the trace, the
    device, the cache and the draw buffer are left as they were, so no
    device call is made; and applying the same paint a second time gives
    the same context as applying it once. *)
Theorem setPaint_idempotent paint c :
  setPaint X paint (setPaint X paint c) = setPaint X paint c
  /\ trace (setPaint X paint c) = trace c
  /\ fGpu (setPaint X paint c) = fGpu c
  /\ fTextureCache (setPaint X paint c) = fTextureCache c
  /\ fDrawBuffer (setPaint X paint c) = fDrawBuffer c.
Proof.
  split; [|repeat split].
  unfold setPaint, set_fDrawState. cbn [fGpu fDrawState fTextureCache fDrawBuffer
    fLastDrawWasBuffered fPathRendererChain fSoftwarePathRenderer trace].
  now rewrite applyPaint_idem.
Qed.

End PaintProofs.

(** The entry assertion of [setPaint] asks for a draw state whose stages
    are all disabled; a paint with a texture leaves its stage enabled,
    which is why every caller pairs it with [AutoStageDisable]. *)
Example setPaint_enables_stage :
  stagesDisabled (fDrawState sampleContext) = true
  /\ stagesDisabled (fDrawState (setPaint sampleExternals sampleTexturedPaint sampleContext))
     = false.
Proof. split; vm_compute; reflexivity. Qed.

(** ** Flushing the draw buffer *)

Lemma flushCount_app l1 l2 : flushCount (l1 ++ l2) = (flushCount l1 + flushCount l2)%nat.
Proof. unfold flushCount. now rewrite List.filter_app, length_app. Qed.

Lemma flushCount_replayEvents cmds : flushCount (replayEvents cmds) = 0%nat.
Proof. induction cmds as [|[d|mask d] cmds IH]; [reflexivity|exact IH|exact IH]. Qed.

Lemma hasBit_0_r a : hasBit a 0 = false.
Proof. unfold hasBit. now rewrite Z.land_0_r. Qed.

Lemma flushDrawBuffer_unfold n c :
  flushDrawBuffer (S n) c
  = match fDrawBuffer c with
    | Some temp =>
        c2 ← flushTo (flush n 0) temp (set_fDrawBuffer None c);
        Some (set_fDrawBuffer (Some (buf_reset temp)) c2)
    | None => Some c
    end.
Proof. reflexivity. Qed.

Lemma flushDrawBuffer_null n c :
  fDrawBuffer c = None -> flushDrawBuffer (S n) c = Some c.
Proof. intros H. cbn. now rewrite H. Qed.

(** A flush requested while no draw buffer is installed does nothing. *)
Lemma flush_null n c : fDrawBuffer c = None -> flush (S n) 0 c = Some c.
Proof.
  intros H. unfold flush, flush_with. rewrite !hasBit_0_r.
  now rewrite flushDrawBuffer_null.
Qed.

Lemma replay_null n cmds c :
  fDrawBuffer c = None ->
  replay (flush (S n) 0) cmds c = Some (emitAll (replayEvents cmds) c).
Proof.
  revert c. induction cmds as [|[d|mask d] cmds IH]; intros c H.
  - cbn. now rewrite emitAll_nil.
  - cbn [replay replayEvents flat_map]. rewrite IH by exact H. cbn [app].
    now rewrite emit_emitAll.
  - cbn [replay replayEvents flat_map].
    unfold uploadClipMask, writeTexturePixels_with. rewrite !hasBit_0_r.
    cbn [negb]. rewrite flush_null by exact H. cbn [mbind option_bind].
    rewrite IH by exact H. cbn [app]. now rewrite !emit_emitAll.
Qed.

Lemma flushDrawBuffer_live n c buf :
  fDrawBuffer c = Some buf ->
  flushDrawBuffer (S (S n)) c = Some (flushed buf c).
Proof.
  intros H. rewrite flushDrawBuffer_unfold, H. unfold flushTo.
  rewrite replay_null by reflexivity. cbn [mbind option_bind].
  rewrite emit_emitAll. reflexivity.
Qed.

Lemma flushCount_flushed buf c :
  flushCount (trace (flushed buf c)) = S (flushCount (trace c)).
Proof.
  unfold flushed. cbn [trace emitAll]. rewrite flushCount_app.
  change (EvFlushTo :: replayEvents (buf_cmds buf))
    with ([EvFlushTo] ++ replayEvents (buf_cmds buf)).
  rewrite flushCount_app, flushCount_replayEvents.
  change (flushCount [EvFlushTo]) with 1%nat. cbn [set_fDrawBuffer trace]. lia.
Qed.

(** C5.  [flushDrawBuffer] hands the buffer to [flushTo] on a context
    whose [fDrawBuffer] is NULL and installs the buffer again when
    [flushTo] has returned.  At every point of the replay the context has
    no draw buffer, and a flush requested there returns the context
    unchanged.  The whole flush terminates, with [flushTo] run exactly
    once, whatever uploads the replayed commands trigger. *)
Theorem flushDrawBuffer_reentrancy fuel c buf :
  (2 <= fuel)%nat ->
  fDrawBuffer c = Some buf ->
  flushDrawBuffer fuel c
  = (c2 ← flushTo (flush (pred fuel) 0) buf (set_fDrawBuffer None c);
     Some (set_fDrawBuffer (Some (buf_reset buf)) c2))
  /\ fDrawBuffer (set_fDrawBuffer None c) = None
  /\ (forall pre post, buf_cmds buf = pre ++ post ->
        exists ci,
          replay (flush (pred fuel) 0) pre (emit EvFlushTo (set_fDrawBuffer None c)) = Some ci
          /\ fDrawBuffer ci = None
          /\ flush (pred fuel) 0 ci = Some ci
          /\ flushDrawBuffer (pred fuel) ci = Some ci)
  /\ exists c',
       flushDrawBuffer fuel c = Some c'
       /\ fDrawBuffer c' = Some (buf_reset buf)
       /\ trace c' = trace c ++ EvFlushTo :: replayEvents (buf_cmds buf)
       /\ flushCount (trace c') = S (flushCount (trace c)).
Proof.
  intros Hfuel Hbuf.
  destruct fuel as [|[|n]]; [lia|lia|]. cbn [pred].
  split. { now rewrite flushDrawBuffer_unfold, Hbuf. }
  split; [reflexivity|].
  split.
  - intros pre post _. rewrite replay_null by reflexivity.
    eexists. split; [reflexivity|]. split; [reflexivity|].
    split; [now apply flush_null|now apply flushDrawBuffer_null].
  - exists (flushed buf c). split; [now apply flushDrawBuffer_live|].
    split; [reflexivity|]. split; [reflexivity|apply flushCount_flushed].
Qed.

Lemma flushDrawBuffer_reentrancy_witness :
  exists c',
    flushDrawBuffer 2 sampleBuffered = Some c'
    /\ fDrawBuffer c' = Some (mkBuffer [] 0)
    /\ flushCount (trace c') = 1%nat.
Proof.
  destruct (flushDrawBuffer_reentrancy 2 sampleBuffered sampleBuffer ltac:(lia) eq_refl)
    as (_ & _ & _ & c' & H1 & H2 & _ & H4).
  exists c'. split; [exact H1|]. split; [exact H2|exact H4].
Defined.

(** ** prepareToDraw *)

Section DrawProofs.

Variable X : Externals.

Lemma trace_setPaint paint c : trace (setPaint X paint c) = trace c.
Proof. reflexivity. Qed.

Lemma trace_applyOptPaint paint c : trace (applyOptPaint X paint c) = trace c.
Proof. now destruct paint. Qed.

Lemma fDrawBuffer_applyOptPaint paint c : fDrawBuffer (applyOptPaint X paint c) = fDrawBuffer c.
Proof. now destruct paint. Qed.

Lemma fGpu_applyOptPaint paint c : fGpu (applyOptPaint X paint c) = fGpu c.
Proof. now destruct paint. Qed.

Lemma prepareToDraw_buffered fuel paint c buf :
  fDrawBuffer c = Some buf ->
  prepareToDraw X fuel paint kYes_BufferedDraw c
  = Some (TargetDrawBuffer,
          set_fLastDrawWasBuffered kYes_BufferedDraw
            (set_fDrawBuffer (Some (buf_setClip (gpu_clip (fGpu c)) buf))
               (applyOptPaint X paint c))).
Proof.
  intros Hbuf. unfold prepareToDraw. cbn [bool_decide decide_rel andb mbind option_bind].
  change (match paint with Some p => setPaint X p c | None => c end)
    with (applyOptPaint X paint c).
  rewrite (bool_decide_eq_false_2 (kNo_BufferedDraw = kYes_BufferedDraw)) by discriminate.
  rewrite (bool_decide_eq_true_2 (kYes_BufferedDraw = kYes_BufferedDraw)) by reflexivity.
  cbn [andb mbind option_bind].
  change (match paint with Some p => setPaint X p c | None => c end)
    with (applyOptPaint X paint c).
  now rewrite fDrawBuffer_applyOptPaint, Hbuf, fGpu_applyOptPaint.
Qed.

(** A buffered request on a context without draw buffer dereferences
    NULL: there is no result, whatever the fuel. *)
Lemma prepareToDraw_buffered_null fuel paint c :
  fDrawBuffer c = None ->
  prepareToDraw X fuel paint kYes_BufferedDraw c = None.
Proof.
  intros Hbuf. unfold prepareToDraw.
  rewrite (bool_decide_eq_false_2 (kNo_BufferedDraw = kYes_BufferedDraw)) by discriminate.
  rewrite (bool_decide_eq_true_2 (kYes_BufferedDraw = kYes_BufferedDraw)) by reflexivity.
  cbn [andb mbind option_bind].
  change (match paint with Some p => setPaint X p c | None => c end)
    with (applyOptPaint X paint c).
  now rewrite fDrawBuffer_applyOptPaint, Hbuf.
Qed.

(** An unbuffered request after a buffered draw, on a context without
    draw buffer: [flushDrawBuffer] finds nothing to flush. *)
Lemma prepareToDraw_unbuffered_null n paint c :
  fDrawBuffer c = None ->
  fLastDrawWasBuffered c = kYes_BufferedDraw ->
  prepareToDraw X (S n) paint kNo_BufferedDraw c
  = Some (TargetGpu, applyOptPaint X paint (set_fLastDrawWasBuffered kNo_BufferedDraw c)).
Proof.
  intros Hbuf Hlast. unfold prepareToDraw. rewrite Hlast.
  rewrite (bool_decide_eq_true_2 (kNo_BufferedDraw = kNo_BufferedDraw)) by reflexivity.
  rewrite (bool_decide_eq_true_2 (kYes_BufferedDraw = kYes_BufferedDraw)) by reflexivity.
  rewrite (bool_decide_eq_false_2 (kYes_BufferedDraw = kNo_BufferedDraw)) by discriminate.
  cbn [andb]. rewrite (flushDrawBuffer_null n c Hbuf). reflexivity.
Qed.

Lemma prepareToDraw_unbuffered_after_buffered n paint c buf :
  fDrawBuffer c = Some buf ->
  fLastDrawWasBuffered c = kYes_BufferedDraw ->
  prepareToDraw X (S (S n)) paint kNo_BufferedDraw c
  = Some (TargetGpu,
          applyOptPaint X paint (set_fLastDrawWasBuffered kNo_BufferedDraw (flushed buf c))).
Proof.
  intros Hbuf Hlast. unfold prepareToDraw. rewrite Hlast.
  rewrite (bool_decide_eq_true_2 (kNo_BufferedDraw = kNo_BufferedDraw)) by reflexivity.
  rewrite (bool_decide_eq_true_2 (kYes_BufferedDraw = kYes_BufferedDraw)) by reflexivity.
  rewrite (bool_decide_eq_false_2 (kYes_BufferedDraw = kNo_BufferedDraw)) by discriminate.
  cbn [andb]. rewrite (flushDrawBuffer_live n c buf Hbuf). reflexivity.
Qed.

Lemma prepareToDraw_unbuffered_after_unbuffered fuel paint c :
  fLastDrawWasBuffered c = kNo_BufferedDraw ->
  prepareToDraw X fuel paint kNo_BufferedDraw c = Some (TargetGpu, applyOptPaint X paint c).
Proof.
  intros Hlast. unfold prepareToDraw. rewrite Hlast.
  rewrite (bool_decide_eq_false_2 (kYes_BufferedDraw = kNo_BufferedDraw)) by discriminate.
  rewrite andb_false_r. reflexivity.
Qed.

(** C4, amended.  A request for buffered execution on a context with
    a draw buffer returns the draw buffer, with the device's clip
    installed in it, and adds nothing to the trace; without a draw
    buffer the request dereferences NULL and has no result.  A request
    for unbuffered execution returns the device; when the previous draw
    was buffered and a draw buffer is installed, the draw buffer is
    flushed exactly once before that, so that every recorded command is
    in the trace; when the previous draw was buffered and no draw buffer
    is installed, nothing is flushed; and when the previous draw was
    unbuffered nothing is flushed either. *)
Theorem prepareToDraw_transition paint c :
  (forall fuel buf,
      fDrawBuffer c = Some buf ->
      exists c',
        prepareToDraw X fuel paint kYes_BufferedDraw c = Some (TargetDrawBuffer, c')
        /\ trace c' = trace c
        /\ fDrawBuffer c' = Some (buf_setClip (gpu_clip (fGpu c)) buf)
        /\ fLastDrawWasBuffered c' = kYes_BufferedDraw)
  /\ (forall fuel,
        fDrawBuffer c = None ->
        prepareToDraw X fuel paint kYes_BufferedDraw c = None)
  /\ (forall fuel,
        (1 <= fuel)%nat ->
        fDrawBuffer c = None ->
        fLastDrawWasBuffered c = kYes_BufferedDraw ->
        exists c',
          prepareToDraw X fuel paint kNo_BufferedDraw c = Some (TargetGpu, c')
          /\ trace c' = trace c
          /\ fDrawBuffer c' = None
          /\ fLastDrawWasBuffered c' = kNo_BufferedDraw)
  /\ (forall fuel buf,
        (2 <= fuel)%nat ->
        fDrawBuffer c = Some buf ->
        fLastDrawWasBuffered c = kYes_BufferedDraw ->
        exists c',
          prepareToDraw X fuel paint kNo_BufferedDraw c = Some (TargetGpu, c')
          /\ trace c' = trace c ++ EvFlushTo :: replayEvents (buf_cmds buf)
          /\ flushCount (trace c') = S (flushCount (trace c))
          /\ fDrawBuffer c' = Some (buf_reset buf)
          /\ fLastDrawWasBuffered c' = kNo_BufferedDraw)
  /\ (forall fuel,
        fLastDrawWasBuffered c = kNo_BufferedDraw ->
        exists c',
          prepareToDraw X fuel paint kNo_BufferedDraw c = Some (TargetGpu, c')
          /\ trace c' = trace c).
Proof.
  split; [|split; [|split; [|split]]].
  - intros fuel buf Hbuf. rewrite (prepareToDraw_buffered fuel paint c buf Hbuf).
    eexists. split; [reflexivity|].
    split; [|split; reflexivity]. cbn [trace set_fLastDrawWasBuffered set_fDrawBuffer].
    apply trace_applyOptPaint.
  - intros fuel Hbuf. now apply prepareToDraw_buffered_null.
  - intros fuel Hfuel Hbuf Hlast. destruct fuel as [|n]; [lia|].
    rewrite (prepareToDraw_unbuffered_null n paint c Hbuf Hlast).
    eexists. split; [reflexivity|].
    rewrite trace_applyOptPaint, fDrawBuffer_applyOptPaint.
    split; [reflexivity|]. split; [exact Hbuf|]. now destruct paint.
  - intros fuel buf Hfuel Hbuf Hlast. destruct fuel as [|[|n]]; [lia|lia|].
    rewrite (prepareToDraw_unbuffered_after_buffered n paint c buf Hbuf Hlast).
    eexists. split; [reflexivity|].
    rewrite trace_applyOptPaint, fDrawBuffer_applyOptPaint.
    split; [reflexivity|]. split; [apply flushCount_flushed|].
    split; [reflexivity|]. now destruct paint.
  - intros fuel Hlast. rewrite prepareToDraw_unbuffered_after_unbuffered by exact Hlast.
    eexists. split; [reflexivity|apply trace_applyOptPaint].
Qed.

(** ** writeTexturePixels *)

Lemma writeTexturePixels_unpremul fuel texture left top width height config rowBytes flags c :
  hasBit kUnpremul_PixelOpsFlag flags = true ->
  writeTexturePixels fuel texture left top width height config rowBytes flags c = Some c.
Proof.
  intros H. unfold writeTexturePixels, writeTexturePixels_with. now rewrite H.
Qed.

(** C10.  With the unpremultiplied-pixels flag set, [writeTexturePixels]
    returns the context it was given: nothing is flushed, nothing is
    uploaded, the trace is unchanged, and the call does not fail,
    whatever the texture, the region and the fuel. *)
Theorem writeTexturePixels_unpremul_noop fuel texture left top width height config rowBytes flags c :
  hasBit kUnpremul_PixelOpsFlag flags = true ->
  writeTexturePixels fuel texture left top width height config rowBytes flags c = Some c.
Proof. apply writeTexturePixels_unpremul. Qed.

(** The two flushing behaviours of a premultiplied write. *)
Lemma writeTexturePixels_flushes n texture left top width height config rowBytes flags c buf :
  hasBit kUnpremul_PixelOpsFlag flags = false ->
  hasBit kDontFlush_PixelOpsFlag flags = false ->
  fDrawBuffer c = Some buf ->
  writeTexturePixels (S (S n)) texture left top width height config rowBytes flags c
  = Some (emit (EvWriteTexturePixels texture left top width height config rowBytes)
               (flushed buf c)).
Proof.
  intros Hu Hd Hbuf. unfold writeTexturePixels, writeTexturePixels_with.
  rewrite Hu, Hd. cbn [negb]. unfold flush, flush_with. rewrite !hasBit_0_r.
  now rewrite (flushDrawBuffer_live n c buf Hbuf).
Qed.

Lemma writeTexturePixels_dont_flush fuel texture left top width height config rowBytes flags c :
  hasBit kUnpremul_PixelOpsFlag flags = false ->
  hasBit kDontFlush_PixelOpsFlag flags = true ->
  writeTexturePixels fuel texture left top width height config rowBytes flags c
  = Some (emit (EvWriteTexturePixels texture left top width height config rowBytes) c).
Proof.
  intros Hu Hd. unfold writeTexturePixels, writeTexturePixels_with.
  now rewrite Hu, Hd.
Qed.

End DrawProofs.

Lemma prepareToDraw_transition_witness :
  (exists c',
     prepareToDraw sampleExternals 2 None kNo_BufferedDraw sampleBuffered = Some (TargetGpu, c')
     /\ flushCount (trace c') = 1%nat)
  /\ (exists c',
        prepareToDraw sampleExternals 2 None kNo_BufferedDraw sampleDestroyed
        = Some (TargetGpu, c')
        /\ trace c' = trace sampleDestroyed).
Proof.
  split.
  - destruct (prepareToDraw_transition sampleExternals None sampleBuffered)
      as (_ & _ & _ & H & _).
    destruct (H 2%nat sampleBuffer ltac:(lia) eq_refl eq_refl) as (c' & H1 & _ & H3 & _).
    exists c'. split; [exact H1|exact H3].
  - destruct (prepareToDraw_transition sampleExternals None sampleDestroyed)
      as (_ & _ & H & _).
    destruct (H 2%nat ltac:(lia) eq_refl eq_refl) as (c' & H1 & H2 & _).
    exists c'. split; [exact H1|exact H2].
Defined.

(** C4 as it is worded fails after [contextDestroyed]: the last draw was
    buffered and the draw buffer is gone, so an unbuffered request
    returns the device without any flush, and a buffered request has no
    draw buffer to return. *)
Lemma prepareToDraw_no_buffer_counterexample :
  fLastDrawWasBuffered sampleDestroyed = kYes_BufferedDraw
  /\ (exists c',
        prepareToDraw sampleExternals 2 None kNo_BufferedDraw sampleDestroyed
        = Some (TargetGpu, c')
        /\ flushCount (trace c') = flushCount (trace sampleDestroyed))
  /\ prepareToDraw sampleExternals 2 None kYes_BufferedDraw sampleDestroyed = None.
Proof.
  split; [reflexivity|]. split; [|reflexivity].
  eexists. split; reflexivity.
Qed.

Lemma writeTexturePixels_unpremul_noop_witness :
  writeTexturePixels 2 sampleMask 0 0 64 64 kAlpha_8_GrPixelConfig 64
    kUnpremul_PixelOpsFlag sampleBuffered
  = Some sampleBuffered.
Proof.
  apply (writeTexturePixels_unpremul_noop 2 sampleMask 0 0 64 64 kAlpha_8_GrPixelConfig 64
           kUnpremul_PixelOpsFlag sampleBuffered).
  reflexivity.
Defined.

(** ** readRenderTargetPixels *)

Lemma quiet_refl c : quiet c c.
Proof. exists []. now rewrite app_nil_r. Qed.

Lemma quiet_trans c1 c2 c3 : quiet c1 c2 -> quiet c2 c3 -> quiet c1 c3.
Proof.
  intros (e1 & Ht1 & Hf1 & Hb1) (e2 & Ht2 & Hf2 & Hb2). exists (e1 ++ e2).
  rewrite Ht2, Ht1, <- app_assoc, flushCount_app, Hf1, Hf2, Hb2, Hb1. easy.
Qed.

Lemma quiet_emit c c1 e : quiet c c1 -> isFlushTo e = false -> quiet c (emit e c1).
Proof.
  intros H He. eapply quiet_trans; [exact H|]. exists [e]. split; [reflexivity|].
  split; [|reflexivity]. unfold flushCount. cbn. now rewrite He.
Qed.

Lemma quiet_set_fTextureCache c c1 t : quiet c c1 -> quiet c (set_fTextureCache t c1).
Proof. intros (e & Ht & Hf & Hb). now exists e. Qed.

Lemma quiet_set_fGpu c c1 g : quiet c c1 -> quiet c (set_fGpu g c1).
Proof. intros (e & Ht & Hf & Hb). now exists e. Qed.

(** A texture that has an entry in the cache can be unlocked, and
    unlocking touches nothing but the cache. *)
Lemma getCacheEntry_defined t c e :
  e ∈ ResourceCache.detached (fTextureCache c) ++ ResourceCache.attached (fTextureCache c) ->
  ResourceCache.entry_id e = tex_id t ->
  is_Some (getCacheEntry t c).
Proof.
  intros He Hid. unfold getCacheEntry.
  destruct (List.find _ _) eqn:E; [eauto|].
  apply list_elem_of_In in He. pose proof (List.find_none _ _ E e He) as H.
  unfold ResourceCache.isEntryOf in H. rewrite Hid, Nat.eqb_refl in H. discriminate.
Qed.

Lemma unlockTexture_cases t c c' :
  unlockTexture t c = Some c' ->
  exists cache, c' = set_fTextureCache cache c.
Proof.
  unfold unlockTexture. destruct (getCacheEntry t c) as [e|]; [|easy].
  cbn [mbind option_bind]. destruct (IsScratchTexture _); intros [= <-]; eauto.
Qed.

Lemma unlockTexture_defined t c e :
  e ∈ ResourceCache.detached (fTextureCache c) ++ ResourceCache.attached (fTextureCache c) ->
  ResourceCache.entry_id e = tex_id t ->
  exists cache, unlockTexture t c = Some (set_fTextureCache cache c).
Proof.
  intros He Hid. destruct (getCacheEntry_defined t c e He Hid) as [e' He'].
  unfold unlockTexture. rewrite He'. cbn [mbind option_bind].
  destruct (IsScratchTexture _); eauto.
Qed.

Lemma quiet_unlockTexture c c1 c2 t :
  unlockTexture t c1 = Some c2 -> quiet c c1 -> quiet c c2.
Proof.
  intros [cache ->]%unlockTexture_cases H. now apply quiet_set_fTextureCache.
Qed.

Lemma quiet_findAndLock k c r c1 : findAndLock k c = (r, c1) -> quiet c c1.
Proof.
  unfold findAndLock. destruct (ResourceCache.findAndLock k (fTextureCache c)) as [r0 cache].
  intros [= <- <-]. apply quiet_emit; [|reflexivity].
  apply quiet_set_fTextureCache, quiet_refl.
Qed.

Lemma quiet_tryProbes ds c r c1 : tryProbes ds c = (r, c1) -> quiet c c1.
Proof.
  revert c. induction ds as [|d ds IH]; intros c; cbn.
  - intros [= <- <-]. apply quiet_refl.
  - destruct (findAndLock (scratchKey d) c) as [[t|] c0] eqn:E; apply quiet_findAndLock in E.
    + now intros [= <- <-].
    + intros H. eapply quiet_trans; [exact E|exact (IH _ H)].
Qed.

Section ReadProofs.

Variable X : Externals.

Lemma lockScratchTexture_quiet fuel inDesc m c :
  (9 <= fuel)%nat ->
  exists r c', lockScratchTexture X fuel inDesc m c = Some (r, c') /\ quiet c c'
               /\ forall t, r = Some t ->
                    exists e, e ∈ ResourceCache.detached (fTextureCache c')
                              /\ ResourceCache.entry_resource e = t.
Proof.
  intros Hfuel.
  destruct (lockScratchTexture X fuel inDesc m c) as [[r c']|] eqn:Hlock.
  2:{ exfalso. revert Hlock. rewrite lockScratchTexture_eq by exact Hfuel. discriminate. }
  exists r, c'. split; [reflexivity|].
  split.
  - revert Hlock. rewrite lockScratchTexture_eq by exact Hfuel.
    destruct (tryProbes (probes inDesc m) c) as [r1 c1] eqn:E. apply quiet_tryProbes in E.
    destruct r1 as [t|]; cbn [createOnMiss].
    + intros [= <- <-]. now apply quiet_set_fTextureCache.
    + unfold createTexture. destruct (createTexture_ok X _ _); cbn [detachResult];
        intros [= <- <-].
      * do 2 apply quiet_set_fTextureCache. apply quiet_emit; [|reflexivity].
        now apply quiet_set_fGpu.
      * now apply quiet_emit.
  - intros t ->. eapply lockScratchTexture_detaches; eauto.
Qed.

(** The scratch texture of a read is released when the read returns. *)
Lemma unlock_after_lock fuel inDesc m c t c2 ev1 ev2 :
  (9 <= fuel)%nat ->
  lockScratchTexture X fuel inDesc m c = Some (Some t, c2) ->
  exists cache,
    unlockTexture t (emit ev2 (emit ev1 c2))
    = Some (set_fTextureCache cache (emit ev2 (emit ev1 c2))).
Proof.
  intros Hfuel Hlock.
  destruct (lockScratchTexture_detaches X fuel inDesc m c t c2 Hfuel Hlock) as (e & He & Hr).
  apply (unlockTexture_defined t _ e).
  - cbn [fTextureCache emit]. apply elem_of_app. now left.
  - unfold ResourceCache.entry_id. now rewrite Hr.
Qed.

Ltac quiet_leaf :=
  eexists _, _; split; [reflexivity|];
  repeat first [ assumption
               | apply quiet_refl
               | apply quiet_set_fTextureCache
               | apply quiet_emit; [|reflexivity] ].

Ltac quiet_unlock fuel c Hfuel :=
  match goal with
  | |- context [lockScratchTexture X fuel ?d ?m c] =>
      let r := fresh "r" in let c2 := fresh "c2" in
      let Hl := fresh "Hl" in let Hq := fresh "Hq" in
      destruct (lockScratchTexture_quiet fuel d m c Hfuel) as (r & c2 & Hl & Hq & _);
      rewrite Hl; cbn [mbind option_bind];
      destruct r as [texture|]; [|quiet_leaf];
      match goal with
      | |- context [unlockTexture texture (emit ?e2 (emit ?e1 c2))] =>
          let cache := fresh "cache" in let Hu := fresh "Hu" in
          destruct (unlock_after_lock fuel d m c texture c2 e1 e2 Hfuel Hl) as [cache Hu];
          rewrite Hu; cbn [mbind option_bind]; quiet_leaf
      end
  end.

(** The body after the flush starts no flush of its own. *)
Lemma readPixelsAfterFlush_quiet self fuel target left top width height config rowBytes flags c1 :
  (9 <= fuel)%nat ->
  (forall t l tp w h cfg rb c2,
      exists res c3, self (Some t) l tp w h cfg rb kDontFlush_PixelOpsFlag c2 = Some (res, c3)
                     /\ quiet c2 c3) ->
  exists res c',
    readPixelsAfterFlush X self fuel target left top width height config rowBytes flags c1
    = Some (res, c')
    /\ quiet c1 c'.
Proof.
  intros Hfuel Hself. unfold readPixelsAfterFlush.
  destruct (hasBit kUnpremul_PixelOpsFlag flags && negb (canPreserveReadWriteUnpremulPixels X)).
  - destruct (grconfig_to_config8888 (rt_config target) false) as [srcCfg|]; [|quiet_leaf].
    destruct (grconfig_to_config8888 config true) as [dstCfg|]; [|quiet_leaf].
    destruct (Hself target left top width height (rt_config target) rowBytes c1)
      as (res & c3 & -> & Hq).
    cbn [mbind option_bind]. quiet_leaf.
  - destruct (rt_asTexture target) as [srcTex|].
    + match goal with |- context [if ?b then _ else _] => destruct b end; [|quiet_leaf].
      quiet_unlock fuel c1 Hfuel.
    + destruct (hasBit kUnpremul_PixelOpsFlag flags); quiet_leaf.
Qed.

Lemma readRenderTargetPixels_unfold fuel target left top width height config rowBytes flags c :
  readRenderTargetPixels X (S fuel) target left top width height config rowBytes flags c
  = match (match target with
           | Some t => Some t
           | None => ds_renderTarget (fDrawState c)
           end) with
    | None => Some (false, c)
    | Some target =>
        c1 ← (if negb (hasBit kDontFlush_PixelOpsFlag flags) then flush fuel 0 c else Some c);
        readPixelsAfterFlush X (readRenderTargetPixels X fuel) fuel target
          left top width height config rowBytes flags c1
    end.
Proof. reflexivity. Qed.

(** The nested call: no flush, and no further nesting. *)
Lemma readRenderTargetPixels_nested fuel t left top width height config rowBytes c :
  (10 <= fuel)%nat ->
  exists res c',
    readRenderTargetPixels X fuel (Some t) left top width height config rowBytes
      kDontFlush_PixelOpsFlag c = Some (res, c')
    /\ quiet c c'.
Proof.
  intros Hfuel. destruct fuel as [|n]; [lia|]. rewrite readRenderTargetPixels_unfold.
  change (hasBit kDontFlush_PixelOpsFlag kDontFlush_PixelOpsFlag) with true.
  cbn [negb mbind option_bind]. unfold readPixelsAfterFlush.
  change (hasBit kUnpremul_PixelOpsFlag kDontFlush_PixelOpsFlag) with false.
  cbn [andb orb].
  destruct (rt_asTexture t) as [srcTex|]; [|quiet_leaf].
  match goal with |- context [if ?b then _ else _] => destruct b end; [|quiet_leaf].
  assert (Hn : (9 <= n)%nat) by lia.
  quiet_unlock n c Hn.
Qed.

(** C8, amended.  With a draw buffer installed, a pixel write that
    reaches the device and a pixel read that has a render target to read
    first flush the draw buffer, so that the replay of the recorded
    commands comes before the first device call of the operation, and
    start no other flush; with the dont-flush flag nothing is flushed.
    On a context without draw buffer, which is what every operation
    sees that is called while a flush is in progress, the flush request
    finds nothing to flush and the operation goes to the device with no
    flush at all.  A write with the unpremultiplied-pixels flag and a
    read without any render target touch neither the buffer nor the
    device. *)
Theorem pixel_ops_flush_first fuel c :
  (11 <= fuel)%nat ->
  (forall buf,
      fDrawBuffer c = Some buf ->
      (forall texture left top width height config rowBytes flags,
          exists c',
            writeTexturePixels fuel texture left top width height config rowBytes flags c
            = Some c'
            /\ trace c' = trace c
                          ++ (if hasBit kUnpremul_PixelOpsFlag flags then []
                              else flushPrefix flags buf
                                   ++ [EvWriteTexturePixels texture left top width height
                                         config rowBytes]))
      /\ (forall target left top width height config rowBytes flags,
            is_Some target \/ is_Some (ds_renderTarget (fDrawState c)) ->
            exists res c' evs,
              readRenderTargetPixels X fuel target left top width height config rowBytes
                flags c
              = Some (res, c')
              /\ trace c' = trace c ++ flushPrefix flags buf ++ evs
              /\ flushCount evs = 0%nat))
  /\ (fDrawBuffer c = None ->
      (forall texture left top width height config rowBytes flags,
          exists c',
            writeTexturePixels fuel texture left top width height config rowBytes flags c
            = Some c'
            /\ trace c' = trace c
                          ++ (if hasBit kUnpremul_PixelOpsFlag flags then []
                              else [EvWriteTexturePixels texture left top width height
                                      config rowBytes]))
      /\ (forall target left top width height config rowBytes flags,
            is_Some target \/ is_Some (ds_renderTarget (fDrawState c)) ->
            exists res c' evs,
              readRenderTargetPixels X fuel target left top width height config rowBytes
                flags c
              = Some (res, c')
              /\ trace c' = trace c ++ evs
              /\ flushCount evs = 0%nat))
  /\ (forall left top width height config rowBytes flags,
        ds_renderTarget (fDrawState c) = None ->
        readRenderTargetPixels X fuel None left top width height config rowBytes flags c
        = Some (false, c)).
Proof.
  intros Hfuel. destruct fuel as [|[|n]]; [lia|lia|].
  assert (Hself : forall t l tp w h cfg rb c2,
             exists res c3,
               readRenderTargetPixels X (S n) (Some t) l tp w h cfg rb
                 kDontFlush_PixelOpsFlag c2 = Some (res, c3) /\ quiet c2 c3).
  { intros. apply readRenderTargetPixels_nested. lia. }
  assert (Hres : forall target,
             is_Some target \/ is_Some (ds_renderTarget (fDrawState c)) ->
             exists t, match target with
                       | Some t => Some t
                       | None => ds_renderTarget (fDrawState c)
                       end = Some t).
  { intros target Htarget. destruct target as [t|]; [now exists t|].
    destruct Htarget as [[? [=]]|[t Ht]]. now exists t. }
  split; [|split].
  - intros buf Hbuf. split.
    + intros texture left top width height config rowBytes flags.
      destruct (hasBit kUnpremul_PixelOpsFlag flags) eqn:Hu.
      * rewrite writeTexturePixels_unpremul by exact Hu.
        eexists. split; [reflexivity|]. now rewrite app_nil_r.
      * unfold flushPrefix. destruct (hasBit kDontFlush_PixelOpsFlag flags) eqn:Hd.
        -- rewrite writeTexturePixels_dont_flush by assumption. eexists. split; reflexivity.
        -- rewrite (writeTexturePixels_flushes n _ _ _ _ _ _ _ _ c buf Hu Hd Hbuf).
           eexists. split; [reflexivity|]. cbn. now rewrite <- app_assoc.
    + intros target left top width height config rowBytes flags Htarget.
      rewrite readRenderTargetPixels_unfold.
      destruct (Hres target Htarget) as [t ->]. unfold flushPrefix.
      destruct (hasBit kDontFlush_PixelOpsFlag flags); cbn [negb mbind option_bind].
      * destruct (readPixelsAfterFlush_quiet (readRenderTargetPixels X (S n)) (S n) t
                    left top width height config rowBytes flags c ltac:(lia) Hself)
          as (res & c' & Heq & evs & Htr & Hfc & _).
        exists res, c', evs. now rewrite Heq.
      * unfold flush, flush_with. rewrite !hasBit_0_r.
        destruct n as [|n]; [lia|].
        rewrite (flushDrawBuffer_live n c buf Hbuf). cbn [mbind option_bind].
        destruct (readPixelsAfterFlush_quiet (readRenderTargetPixels X (S (S n))) (S (S n)) t
                    left top width height config rowBytes flags (flushed buf c)
                    ltac:(lia) Hself)
          as (res & c' & Heq & evs & Htr & Hfc & _).
        exists res, c', evs. rewrite Heq. split; [reflexivity|]. split; [|exact Hfc].
        rewrite Htr. cbn. now rewrite <- app_assoc.
  - intros Hbuf. split.
    + intros texture left top width height config rowBytes flags.
      destruct (hasBit kUnpremul_PixelOpsFlag flags) eqn:Hu.
      * rewrite writeTexturePixels_unpremul by exact Hu.
        eexists. split; [reflexivity|]. now rewrite app_nil_r.
      * unfold writeTexturePixels, writeTexturePixels_with. rewrite Hu.
        destruct (hasBit kDontFlush_PixelOpsFlag flags); cbn [negb].
        -- eexists. split; reflexivity.
        -- rewrite (flush_null (S n) c Hbuf). eexists. split; reflexivity.
    + intros target left top width height config rowBytes flags Htarget.
      rewrite readRenderTargetPixels_unfold.
      destruct (Hres target Htarget) as [t ->].
      assert (Hflush : (if negb (hasBit kDontFlush_PixelOpsFlag flags)
                        then flush (S n) 0 c else Some c) = Some c).
      { destruct (hasBit kDontFlush_PixelOpsFlag flags); [reflexivity|].
        now apply flush_null. }
      rewrite Hflush. cbn [mbind option_bind].
      destruct (readPixelsAfterFlush_quiet (readRenderTargetPixels X (S n)) (S n) t
                  left top width height config rowBytes flags c ltac:(lia) Hself)
        as (res & c' & Heq & evs & Htr & Hfc & _).
      exists res, c', evs. now rewrite Heq.
  - intros left top width height config rowBytes flags Hnone.
    rewrite readRenderTargetPixels_unfold. now rewrite Hnone.
Qed.

End ReadProofs.

Lemma pixel_ops_flush_first_witness :
  (exists c',
     writeTexturePixels 11 sampleMask 0 0 64 64 kAlpha_8_GrPixelConfig 64 0 sampleBuffered
     = Some c'
     /\ trace c'
        = [EvFlushTo; EvDraw (CmdOther 1);
           EvWriteTexturePixels sampleMask 0 0 64 64 kAlpha_8_GrPixelConfig 64;
           EvDraw (CmdOther 2);
           EvWriteTexturePixels sampleMask 0 0 64 64 kAlpha_8_GrPixelConfig 64])
  /\ (exists c',
        writeTexturePixels 11 sampleMask 0 0 64 64 kAlpha_8_GrPixelConfig 64 0 sampleFlushing
        = Some c'
        /\ trace c' = [EvWriteTexturePixels sampleMask 0 0 64 64 kAlpha_8_GrPixelConfig 64]).
Proof.
  destruct (pixel_ops_flush_first sampleExternals 11 sampleBuffered ltac:(lia))
    as (Hlive & _ & _).
  destruct (Hlive sampleBuffer eq_refl) as (Hw & _).
  destruct (Hw sampleMask 0 0 64 64 kAlpha_8_GrPixelConfig 64 0) as (c' & Heq & Htr).
  destruct (pixel_ops_flush_first sampleExternals 11 sampleFlushing ltac:(lia))
    as (_ & Hnull & _).
  destruct (Hnull eq_refl) as (Hw0 & _).
  destruct (Hw0 sampleMask 0 0 64 64 kAlpha_8_GrPixelConfig 64 0) as (c0 & Heq0 & Htr0).
  split.
  - exists c'. split; [exact Heq|]. rewrite Htr. reflexivity.
  - exists c0. split; [exact Heq0|]. rewrite Htr0. reflexivity.
Defined.

(** C8 as it is worded fails while a flush is in progress.  The context
    handed to [flushTo] has no draw buffer; a write with flags 0 made
    there, as the upload of a software clip mask is, has the dont-flush
    flag clear and yet reaches the device with nothing flushed.  In the
    flush of [sampleBuffered] that write comes before the draw of the
    second recorded command. *)
Lemma pixel_write_during_flush_counterexample :
  hasBit kDontFlush_PixelOpsFlag 0 = false
  /\ (exists c',
        writeTexturePixels 2 sampleMask 0 0 64 64 kAlpha_8_GrPixelConfig 64 0 sampleFlushing
        = Some c'
        /\ trace c' = [EvWriteTexturePixels sampleMask 0 0 64 64 kAlpha_8_GrPixelConfig 64]
        /\ flushCount (trace c') = 0%nat)
  /\ (exists c',
        flushDrawBuffer 2 sampleBuffered = Some c'
        /\ trace c'
           = [EvFlushTo; EvDraw (CmdOther 1);
              EvWriteTexturePixels sampleMask 0 0 64 64 kAlpha_8_GrPixelConfig 64;
              EvDraw (CmdOther 2)]).
Proof.
  split; [reflexivity|]. split; eexists; repeat split; reflexivity.
Qed.

(** ** drawOval and the path renderers *)

Section PathProofs.

Variable X : Externals.

Lemma ovalRoute_fast paint rect c :
  ovalRoute X paint rect c = CircleFastPath <->
  isSimilarityTransformation X (getMatrix c) (SK_ScalarNearlyZero X) = true
  /\ fAntiAlias paint = true
  /\ Qeq_bool (rect_height X rect) (rect_width X rect) = true.
Proof.
  unfold ovalRoute.
  destruct (isSimilarityTransformation X (getMatrix c) (SK_ScalarNearlyZero X)),
    (fAntiAlias paint), (Qeq_bool (rect_height X rect) (rect_width X rect)); cbn;
    intuition discriminate.
Qed.

Lemma applyPaint_keeps paint ds :
  ds_viewMatrix (applyPaint X paint ds) = ds_viewMatrix ds
  /\ ds_renderTarget (applyPaint X paint ds) = ds_renderTarget ds.
Proof. now rewrite applyPaint_eq. Qed.

(** C6, amended.  [drawOval] takes the circle fast path exactly when
    the view matrix passes [isSimilarityTransformation], the paint asks
    for antialiasing and the rectangle's height equals its width, both
    as [rect.height()] and [rect.width()] return them in single
    precision; the stroke width plays no part in the choice.  On the other route the
    oval is drawn through [internalDrawPath] as a path, hairline when
    the stroke width is zero and winding-filled otherwise.  On the fast
    path with buffered drawing, a render target and vertex space, one
    circle draw is recorded and no path renderer is asked for. *)
Theorem drawOval_route fuel paint rect strokeWidth c :
  (ovalRoute X paint rect c = CircleFastPath <->
     isSimilarityTransformation X (getMatrix c) (SK_ScalarNearlyZero X) = true
     /\ fAntiAlias paint = true
     /\ Qeq_bool (rect_height X rect) (rect_width X rect) = true)
  /\ (ovalRoute X paint rect c = GenericPath ->
        drawOval X fuel paint rect strokeWidth c
        = internalDrawPath X fuel paint (addOval rect)
            (if Qeq_bool strokeWidth 0%Q then kHairLine_GrPathFill else kWinding_GrPathFill)
            None c)
  /\ (forall buf rt,
        ovalRoute X paint rect c = CircleFastPath ->
        GR_DISABLE_DRAW_BUFFERING X = false ->
        fDrawBuffer c = Some buf ->
        ds_renderTarget (fDrawState c) = Some rt ->
        deviceCoordDraw_ok X TargetDrawBuffer (applyPaint X paint (fDrawState c)) = true ->
        reserveGeometry_ok X TargetDrawBuffer = true ->
        exists c',
          drawOval X fuel paint rect strokeWidth c = Some c'
          /\ trace c' = trace c
          /\ fPathRendererChain c' = fPathRendererChain c
          /\ fSoftwarePathRenderer c' = fSoftwarePathRenderer c
          /\ (buf_cmds <$> fDrawBuffer c')
             = Some (buf_cmds buf
                     ++ [recorded X (gpu_clip (fGpu c))
                           (CmdCircle rect (getMatrix c) strokeWidth (rt_height rt))])).
Proof.
  split; [apply ovalRoute_fast|]. split.
  - intros Hroute. unfold drawOval. now rewrite Hroute.
  - intros buf rt Hroute Hbuffering Hbuf Hrt Hadcd Hgeo.
    unfold drawOval. rewrite Hroute. unfold DEFAULT_BUFFERING. rewrite Hbuffering.
    rewrite (prepareToDraw_buffered X fuel (Some paint) c buf Hbuf).
    cbn [mbind option_bind applyOptPaint].
    cbn [fDrawState set_fLastDrawWasBuffered set_fDrawBuffer setPaint set_fDrawState
         fDrawBuffer fGpu].
    destruct (applyPaint_keeps paint (fDrawState c)) as [Hvm Hrt'].
    rewrite Hrt', Hvm, Hrt, Hadcd, Hgeo. cbn [negb fmap option_fmap option_map].
    eexists. split; [reflexivity|]. split; [reflexivity|]. split; [reflexivity|].
    split; reflexivity.
Qed.

(** With the software renderer allowed, [getPathRenderer] always
    returns a renderer: [internalDrawPath], which passes [true], never
    reaches its [NULL == pr] return. *)
Lemma getPathRenderer_allowSW path fill target antiAlias c :
  exists r c1, getPathRenderer X path fill target antiAlias true c = (Some r, c1).
Proof.
  unfold getPathRenderer.
  set (c1 := match fPathRendererChain c with
             | Some _ => c
             | None => set_fPathRendererChain (Some (newPathRendererChain X)) c
             end).
  match goal with |- context [bool_decide (?p = None)] => destruct p as [r|] end.
  - rewrite bool_decide_eq_false_2 by discriminate. cbn [andb]. now eexists _, _.
  - rewrite bool_decide_eq_true_2 by reflexivity. cbn [andb].
    destruct (fSoftwarePathRenderer c1) as [sw|] eqn:Esw.
    + rewrite Esw. now eexists _, _.
    + now eexists _, _.
Qed.

End PathProofs.

(** The routing of C6 as it is worded fails both ways: a filled circle
    (stroke width [-1], as [drawPath] passes it) under the identity
    matrix with an antialiased paint takes the fast path, and a hairline
    circle with a paint that is not antialiased does not. *)
Lemma drawOval_spec_route_counterexample :
  ovalRoute sampleExternals (samplePaint true) sampleCircle sampleWithTarget = CircleFastPath
  /\ specOvalRoute (isSimilarityTransformation sampleExternals (getMatrix sampleWithTarget)
                      (SK_ScalarNearlyZero sampleExternals)) (-1)%Q = GenericPath
  /\ ovalRoute sampleExternals (samplePaint false) sampleCircle sampleWithTarget = GenericPath
  /\ specOvalRoute (isSimilarityTransformation sampleExternals (getMatrix sampleWithTarget)
                      (SK_ScalarNearlyZero sampleExternals)) 0%Q = CircleFastPath.
Proof. repeat split; vm_compute; reflexivity. Qed.

Lemma drawOval_route_witness :
  exists c',
    drawOval sampleExternals 2 (samplePaint true) sampleCircle (-1)%Q sampleWithTarget = Some c'
    /\ (buf_cmds <$> fDrawBuffer c')
       = Some [Recorded (CmdCircle sampleCircle SkMatrix_I (-1)%Q 480)].
Proof.
  destruct (drawOval_route sampleExternals 2 (samplePaint true) sampleCircle (-1)%Q
              sampleWithTarget) as (_ & _ & H).
  destruct (H (mkBuffer [] 0) sampleRenderTarget) as (c' & Heq & _ & _ & _ & Hcmds);
    try reflexivity.
  exists c'. split; [exact Heq|exact Hcmds].
Defined.

(** ** stretchImage *)

Lemma memcpy_append (done dst0 src : list Byte.byte) (dstOff srcOff n : Z) :
  dstOff = Z.of_nat (length done) ->
  0 <= srcOff -> 0 <= n ->
  srcOff + n <= Z.of_nat (length src) ->
  Z.of_nat (length done) + n <= Z.of_nat (length dst0) ->
  memcpy (done ++ drop (length done) dst0) dstOff src srcOff n
  = Some ((done ++ take (Z.to_nat n) (drop (Z.to_nat srcOff) src))
          ++ drop (length (done ++ take (Z.to_nat n) (drop (Z.to_nat srcOff) src))) dst0).
Proof.
  intros -> Hs Hn Hsrc Hdst. unfold memcpy.
  assert (Hlen : length (done ++ drop (length done) dst0) = length dst0).
  { rewrite length_app, length_drop. lia. }
  rewrite Hlen.
  replace ((0 <=? Z.of_nat (length done)) && (0 <=? srcOff) && (0 <=? n)
           && (srcOff + n <=? Z.of_nat (length src))
           && (Z.of_nat (length done) + n <=? Z.of_nat (length dst0))) with true
    by (symmetry; rewrite !andb_true_iff, !Z.leb_le; lia).
  f_equal. rewrite Nat2Z.id.
  rewrite take_app_length. rewrite <- app_assoc. f_equal. f_equal.
  replace (Z.to_nat (Z.of_nat (length done) + n)) with (length done + Z.to_nat n)%nat by lia.
  rewrite drop_app_add'  by reflexivity.
  rewrite drop_drop.
  rewrite length_app, length_take, length_drop. f_equal. lia.
Qed.

Lemma int_fits z : - 2 ^ 31 <= z <= 2 ^ 31 - 1 -> int z = Some z.
Proof.
  intros H. unfold int, INT_MIN, INT_MAX.
  destruct (Z.leb_spec (- 2 ^ 31) z), (Z.leb_spec z (2 ^ 31 - 1)); try lia. reflexivity.
Qed.

Lemma int_overflow z : 2 ^ 31 <= z -> int z = None.
Proof.
  intros H. unfold int, INT_MIN, INT_MAX.
  destruct (Z.leb_spec z (2 ^ 31 - 1)); [lia|]. now rewrite andb_false_r.
Qed.

Lemma stretchRow_unfold fuel dst src dstRow srcRow dstXLimit bpp dx i x :
  stretchRow (S fuel) dst src dstRow srcRow dstXLimit bpp dx i x
  = if i <? dstXLimit then
      srcCol ← int (Z.shiftr x 16 * bpp);
      dst' ← memcpy dst (dstRow + i) src (srcRow + srcCol) bpp;
      x' ← int (x + dx);
      i' ← int (i + bpp);
      stretchRow fuel dst' src dstRow srcRow dstXLimit bpp dx i' x'
    else Some dst.
Proof. reflexivity. Qed.

Lemma stretchRow_done fuel dst src dstRow srcRow dstXLimit bpp dx i x :
  dstXLimit <= i ->
  stretchRow fuel dst src dstRow srcRow dstXLimit bpp dx i x = Some dst.
Proof.
  intros H. destruct fuel; cbn; now rewrite (proj2 (Z.ltb_ge i dstXLimit) H).
Qed.

Lemma stretchRow_spec (m : nat) :
  forall (k fuel : nat) (done dst0 src : list Byte.byte) (dstRow srcRow : Z)
         (B W : nat) (dx x0 : Z),
    (m <= fuel)%nat -> (k + m = W)%nat -> (0 < B)%nat ->
    dstRow + Z.of_nat k * Z.of_nat B = Z.of_nat (length done) ->
    (forall i, (k <= i < W)%nat ->
               0 <= srcRow + Z.shiftr (x0 + Z.of_nat i * dx) 16 * Z.of_nat B
               /\ srcRow + Z.shiftr (x0 + Z.of_nat i * dx) 16 * Z.of_nat B + Z.of_nat B
                  <= Z.of_nat (length src)) ->
    (forall i, (k <= i < W)%nat ->
               - 2 ^ 31 <= Z.shiftr (x0 + Z.of_nat i * dx) 16 * Z.of_nat B <= 2 ^ 31 - 1
               /\ - 2 ^ 31 <= x0 + Z.of_nat (S i) * dx <= 2 ^ 31 - 1
               /\ Z.of_nat (S i) * Z.of_nat B <= 2 ^ 31 - 1) ->
    Z.of_nat (length done) + Z.of_nat m * Z.of_nat B <= Z.of_nat (length dst0) ->
    stretchRow fuel (done ++ drop (length done) dst0) src dstRow srcRow
      (Z.of_nat W * Z.of_nat B) (Z.of_nat B) dx (Z.of_nat k * Z.of_nat B)
      (x0 + Z.of_nat k * dx)
    = Some (let done' :=
              done ++ flat_map
                        (fun i => take B (drop (Z.to_nat (srcRow
                                     + Z.shiftr (x0 + Z.of_nat i * dx) 16 * Z.of_nat B)) src))
                        (seq k m) in
            done' ++ drop (length done') dst0).
Proof.
  induction m as [|m IH]; intros k fuel done dst0 src dstRow srcRow B W dx x0
                                 Hfuel HW HB Hoff Hsrc Hfit Hdst.
  - rewrite stretchRow_done by nia. cbn. now rewrite app_nil_r.
  - destruct fuel as [|fuel]; [lia|]. rewrite stretchRow_unfold.
    rewrite (proj2 (Z.ltb_lt _ _)) by nia.
    destruct (Hsrc k ltac:(lia)) as [Hlo Hhi].
    destruct (Hfit k ltac:(lia)) as (Hf1 & Hf2 & Hf3).
    rewrite (int_fits _ Hf1). cbn [mbind option_bind].
    rewrite memcpy_append; [|lia|lia|lia|lia|nia].
    cbn [mbind option_bind]. rewrite Nat2Z.id.
    rewrite (int_fits (x0 + Z.of_nat k * dx + dx)) by lia. cbn [mbind option_bind].
    rewrite (int_fits (Z.of_nat k * Z.of_nat B + Z.of_nat B)) by lia.
    cbn [mbind option_bind].
    set (chunk := take B (drop (Z.to_nat (srcRow
                    + Z.shiftr (x0 + Z.of_nat k * dx) 16 * Z.of_nat B)) src)).
    assert (Hchunk : length chunk = B).
    { subst chunk. rewrite length_take, length_drop. lia. }
    replace (Z.of_nat k * Z.of_nat B + Z.of_nat B) with (Z.of_nat (S k) * Z.of_nat B) by lia.
    replace (x0 + Z.of_nat k * dx + dx) with (x0 + Z.of_nat (S k) * dx) by lia.
    rewrite (IH (S k) fuel (done ++ chunk) dst0 src dstRow srcRow B W dx x0);
      [|lia|lia|lia| |intros i Hi; apply Hsrc; lia|intros i Hi; apply Hfit; lia|].
    + cbn [seq flat_map]. fold chunk. cbv zeta. now rewrite <- !app_assoc.
    + rewrite length_app, Hchunk. lia.
    + rewrite length_app, Hchunk. lia.
Qed.

Lemma length_flat_map_const {A B} (f : A -> list B) (l : list A) (n : nat) :
  (forall x, In x l -> length (f x) = n) ->
  length (flat_map f l) = (length l * n)%nat.
Proof.
  induction l as [|a l IH]; intros H; cbn; [reflexivity|].
  rewrite length_app, H, IH; [reflexivity| |now left].
  intros x Hx. apply H. now right.
Qed.

Lemma flat_map_ext_In {A B} (f g : A -> list B) (l : list A) :
  (forall x, In x l -> f x = g x) -> flat_map f l = flat_map g l.
Proof.
  induction l as [|a l IH]; intros H; cbn; [reflexivity|].
  rewrite (H a) by now left. rewrite IH; [reflexivity|].
  intros x Hx. apply H. now right.
Qed.

Lemma stretchRows_unfold fuel rowFuel dst src dstW dstH srcW bpp dx dy dstXLimit j y :
  stretchRows (S fuel) rowFuel dst src dstW dstH srcW bpp dx dy dstXLimit j y
  = if j <? dstH then
      srcLine ← int (Z.shiftr y 16 * srcW);
      srcRow ← int (srcLine * bpp);
      dstLine ← int (j * dstW);
      dstRow ← int (dstLine * bpp);
      dst' ← stretchRow rowFuel dst src dstRow srcRow dstXLimit bpp dx 0 (Z.shiftr dx 1);
      y' ← int (y + dy);
      j' ← int (j + 1);
      stretchRows fuel rowFuel dst' src dstW dstH srcW bpp dx dy dstXLimit j' y'
    else Some dst.
Proof. reflexivity. Qed.

Lemma stretchRows_done fuel rowFuel dst src dstW dstH srcW bpp dx dy dstXLimit j y :
  dstH <= j ->
  stretchRows fuel rowFuel dst src dstW dstH srcW bpp dx dy dstXLimit j y = Some dst.
Proof.
  intros H. destruct fuel; cbn; now rewrite (proj2 (Z.ltb_ge j dstH) H).
Qed.

Lemma stretchRows_spec (m : nat) :
  forall (j fuel rowFuel : nat) (done dst0 src : list Byte.byte)
         (W H B : nat) (srcW dx dy y0 : Z),
    (m <= fuel)%nat -> (W <= rowFuel)%nat -> (j + m = H)%nat -> (0 < B)%nat ->
    length done = (j * W * B)%nat ->
    (forall r c, (j <= r < H)%nat -> (c < W)%nat ->
                 0 <= Z.shiftr (y0 + Z.of_nat r * dy) 16 * srcW * Z.of_nat B
                      + Z.shiftr (Z.shiftr dx 1 + Z.of_nat c * dx) 16 * Z.of_nat B
                 /\ Z.shiftr (y0 + Z.of_nat r * dy) 16 * srcW * Z.of_nat B
                    + Z.shiftr (Z.shiftr dx 1 + Z.of_nat c * dx) 16 * Z.of_nat B
                    + Z.of_nat B <= Z.of_nat (length src)) ->
    (forall r, (j <= r < H)%nat ->
               - 2 ^ 31 <= Z.shiftr (y0 + Z.of_nat r * dy) 16 * srcW <= 2 ^ 31 - 1
               /\ - 2 ^ 31 <= Z.shiftr (y0 + Z.of_nat r * dy) 16 * srcW * Z.of_nat B
                  <= 2 ^ 31 - 1
               /\ Z.of_nat r * Z.of_nat W * Z.of_nat B <= 2 ^ 31 - 1
               /\ - 2 ^ 31 <= y0 + Z.of_nat (S r) * dy <= 2 ^ 31 - 1
               /\ Z.of_nat (S r) <= 2 ^ 31 - 1) ->
    (forall c, (c < W)%nat ->
               - 2 ^ 31 <= Z.shiftr (Z.shiftr dx 1 + Z.of_nat c * dx) 16 * Z.of_nat B
               <= 2 ^ 31 - 1
               /\ - 2 ^ 31 <= Z.shiftr dx 1 + Z.of_nat (S c) * dx <= 2 ^ 31 - 1
               /\ Z.of_nat (S c) * Z.of_nat B <= 2 ^ 31 - 1) ->
    (length done + m * W * B <= length dst0)%nat ->
    stretchRows fuel rowFuel (done ++ drop (length done) dst0) src
      (Z.of_nat W) (Z.of_nat H) srcW (Z.of_nat B) dx dy (Z.of_nat W * Z.of_nat B)
      (Z.of_nat j) (y0 + Z.of_nat j * dy)
    = Some (let done' :=
              done ++ flat_map
                        (fun r =>
                           flat_map
                             (fun c => take B (drop (Z.to_nat
                                (Z.shiftr (y0 + Z.of_nat r * dy) 16 * srcW * Z.of_nat B
                                 + Z.shiftr (Z.shiftr dx 1 + Z.of_nat c * dx) 16 * Z.of_nat B))
                                src))
                             (seq 0 W))
                        (seq j m) in
            done' ++ drop (length done') dst0).
Proof.
  induction m as [|m IH]; intros j fuel rowFuel done dst0 src W H B srcW dx dy y0
                                 Hfuel Hrow HH HB Hlen Hsrc Hrfit Hcfit Hdst.
  - rewrite stretchRows_done by lia. cbn. now rewrite app_nil_r.
  - destruct fuel as [|fuel]; [lia|]. rewrite stretchRows_unfold.
    rewrite (proj2 (Z.ltb_lt _ _)) by lia.
    destruct (Hrfit j ltac:(lia)) as (Hr1 & Hr2 & Hr3 & Hr4 & Hr5).
    rewrite (int_fits _ Hr1). cbn [mbind option_bind].
    rewrite (int_fits _ Hr2). cbn [mbind option_bind].
    rewrite (int_fits (Z.of_nat j * Z.of_nat W)) by nia. cbn [mbind option_bind].
    rewrite (int_fits (Z.of_nat j * Z.of_nat W * Z.of_nat B)) by nia.
    cbn [mbind option_bind].
    pose proof (stretchRow_spec W 0 rowFuel done dst0 src
                  (Z.of_nat j * Z.of_nat W * Z.of_nat B)
                  (Z.shiftr (y0 + Z.of_nat j * dy) 16 * srcW * Z.of_nat B)
                  B W dx (Z.shiftr dx 1)) as Hrowspec.
    cbn [Z.of_nat] in Hrowspec. rewrite !Z.mul_0_l, !Z.add_0_r in Hrowspec.
    rewrite Hrowspec; clear Hrowspec;
      [|lia|lia|lia|nia|intros i Hi; apply (Hsrc j i); lia
       |intros i Hi; apply (Hcfit i); lia|nia].
    cbn [mbind option_bind]. cbv zeta.
    rewrite (int_fits (y0 + Z.of_nat j * dy + dy)) by lia. cbn [mbind option_bind].
    rewrite (int_fits (Z.of_nat j + 1)) by lia. cbn [mbind option_bind].
    set (row := flat_map _ (seq 0 W)).
    assert (Hrowlen : length row = (W * B)%nat).
    { subst row. rewrite (length_flat_map_const _ _ B).
      - now rewrite length_seq.
      - intros c Hc. apply in_seq in Hc.
        destruct (Hsrc j c ltac:(lia) ltac:(lia)) as [Hlo Hhi].
        rewrite length_take, length_drop. lia. }
    replace (Z.of_nat j + 1) with (Z.of_nat (S j)) by lia.
    replace (y0 + Z.of_nat j * dy + dy) with (y0 + Z.of_nat (S j) * dy) by lia.
    rewrite (IH (S j) fuel rowFuel (done ++ row) dst0 src W H B srcW dx dy y0);
      [|lia|lia|lia|lia| |intros r c Hr Hc; apply Hsrc; lia
       |intros r Hr; apply Hrfit; lia|exact Hcfit|].
    + cbn [seq flat_map]. fold row. cbv zeta. now rewrite <- !app_assoc.
    + rewrite length_app, Hrowlen. lia.
    + rewrite length_app, Hrowlen. lia.
Qed.

Lemma sampleIndex_bounds srcN dstN i :
  0 < srcN -> 0 < dstN -> 0 <= i < dstN ->
  0 <= sampleIndex srcN dstN i < srcN.
Proof.
  intros Hs Hd Hi. unfold sampleIndex.
  rewrite Z.shiftl_mul_pow2 by lia. rewrite Z.quot_div_nonneg by lia.
  set (d := srcN * 2 ^ 16 / dstN).
  assert (Hd0 : 0 <= d) by (apply Z.div_pos; lia).
  assert (Hdmul : d * dstN <= srcN * 2 ^ 16)
    by (subst d; rewrite Z.mul_comm; apply Z.mul_div_le; lia).
  rewrite (Z.shiftr_div_pow2 d 1) by lia.
  rewrite Z.shiftr_div_pow2 by lia.
  change (2 ^ 1) with 2. change (2 ^ 16) with 65536 in *.
  assert (Hhalf : 0 <= d / 2 /\ (d = 0 \/ d / 2 < d)).
  { split; [apply Z.div_pos; lia|]. destruct (Z.eq_dec d 0); [now left|right].
    apply Z.div_lt; lia. }
  split.
  - apply Z.div_pos; nia.
  - apply Z.div_lt_upper_bound; [lia|].
    assert (Hid : i * d <= (dstN - 1) * d) by (apply Z.mul_le_mono_nonneg_r; lia).
    destruct Hhalf as [? [Hz|Hlt]].
    + rewrite Hz in *. rewrite Z.div_0_l, Z.mul_0_r by lia. lia.
    + lia.
Qed.

Lemma pixel_offset_bound srcW srcH bpp len r c :
  0 <= r < srcH -> 0 <= c < srcW -> 0 < bpp -> srcW * srcH * bpp <= len ->
  0 <= (r * srcW + c) * bpp /\ (r * srcW + c) * bpp + bpp <= len.
Proof.
  intros Hr Hc Hb Hlen.
  assert (r * srcW + c + 1 <= srcH * srcW) by nia.
  assert ((r * srcW + c + 1) * bpp <= srcH * srcW * bpp)
    by (apply Z.mul_le_mono_nonneg_r; lia).
  split; nia.
Qed.

(** The fixed-point step [(srcN << 16) / dstN] and what it adds up to. *)
Lemma fixed_step srcN dstN :
  0 < srcN < 2 ^ 15 -> 0 < dstN ->
  shl16 srcN = Some (Z.shiftl srcN 16)
  /\ idiv (Z.shiftl srcN 16) dstN = Some (Z.quot (Z.shiftl srcN 16) dstN)
  /\ 0 <= Z.quot (Z.shiftl srcN 16) dstN
  /\ Z.quot (Z.shiftl srcN 16) dstN * dstN <= srcN * 65536
  /\ 0 <= Z.shiftr (Z.quot (Z.shiftl srcN 16) dstN) 1
  /\ 2 * Z.shiftr (Z.quot (Z.shiftl srcN 16) dstN) 1 <= Z.quot (Z.shiftl srcN 16) dstN.
Proof.
  intros Hs Hd. rewrite Z.shiftl_mul_pow2 by lia. rewrite Z.quot_div_nonneg by lia.
  change (2 ^ 16) with 65536.
  set (d := srcN * 65536 / dstN).
  assert (Hd0 : 0 <= d) by (apply Z.div_pos; lia).
  assert (Hdmul : d * dstN <= srcN * 65536)
    by (subst d; rewrite Z.mul_comm; apply Z.mul_div_le; lia).
  assert (Hdle : d <= srcN * 65536) by nia.
  rewrite (Z.shiftr_div_pow2 d 1) by lia. change (2 ^ 1) with 2.
  assert (Hhalf : 0 <= d / 2 /\ 2 * (d / 2) <= d).
  { split; [apply Z.div_pos; lia|apply Z.mul_div_le; lia]. }
  split. { unfold shl16. destruct (Z.leb_spec 0 srcN); [|lia].
           rewrite Z.shiftl_mul_pow2 by lia. apply int_fits. lia. }
  split. { unfold idiv. destruct (Z.eqb_spec dstN 0); [lia|].
           rewrite Z.quot_div_nonneg by lia. apply int_fits. fold d. lia. }
  lia.
Qed.

Lemma lastStep_bounds srcN dstN i :
  0 < srcN < 2 ^ 15 -> 0 < dstN -> 0 <= i <= dstN ->
  0 <= Z.shiftr (Z.quot (Z.shiftl srcN 16) dstN) 1 + i * Z.quot (Z.shiftl srcN 16) dstN
  <= lastStep srcN dstN.
Proof.
  intros Hs Hd Hi. unfold lastStep. cbv zeta.
  destruct (fixed_step srcN dstN Hs Hd) as (_ & _ & Hd0 & _ & Hh0 & _).
  set (d := Z.quot (Z.shiftl srcN 16) dstN) in *.
  assert (i * d <= dstN * d) by (apply Z.mul_le_mono_nonneg_r; lia).
  assert (0 <= i * d) by (apply Z.mul_nonneg_nonneg; lia).
  lia.
Qed.

(** Enlarging, or a source of at most 2^14, keeps the accumulator
    within a [GrFixed]. *)
Lemma lastStep_upscale srcN dstN :
  0 < srcN < 2 ^ 15 -> srcN <= dstN -> lastStep srcN dstN <= INT_MAX.
Proof.
  intros Hs Hle. unfold lastStep, INT_MAX. cbv zeta.
  destruct (fixed_step srcN dstN Hs ltac:(lia)) as (_ & _ & Hd0 & Hmul & Hh0 & Hh).
  set (d := Z.quot (Z.shiftl srcN 16) dstN) in *.
  assert (d <= 65536) by nia. lia.
Qed.

Lemma lastStep_small srcN dstN :
  0 < srcN <= 2 ^ 14 -> 0 < dstN -> lastStep srcN dstN <= INT_MAX.
Proof.
  intros Hs Hd. unfold lastStep, INT_MAX. cbv zeta.
  destruct (fixed_step srcN dstN ltac:(lia) Hd) as (_ & _ & Hd0 & Hmul & Hh0 & Hh).
  set (d := Z.quot (Z.shiftl srcN 16) dstN) in *.
  assert (d <= srcN * 65536) by nia. lia.
Qed.

(** The closed form of [stretchImage] on well-sized buffers, when no
    [int] overflows. *)
Lemma stretchImage_eq fuel dst dstW dstH src srcW srcH bpp :
  0 < dstW -> 0 < dstH -> 0 < bpp ->
  0 < srcW < 2 ^ 15 -> 0 < srcH < 2 ^ 15 ->
  lastStep srcW dstW <= INT_MAX -> lastStep srcH dstH <= INT_MAX ->
  srcW * srcH * bpp <= INT_MAX -> dstW * dstH * bpp <= INT_MAX ->
  srcW * srcH * bpp <= Z.of_nat (length src) ->
  dstW * dstH * bpp <= Z.of_nat (length dst) ->
  (Z.to_nat dstW <= fuel)%nat -> (Z.to_nat dstH <= fuel)%nat ->
  stretchImage fuel dst dstW dstH src srcW srcH bpp
  = Some (stretched src dstW dstH srcW srcH bpp
          ++ drop (Z.to_nat (dstW * dstH * bpp)) dst)
  /\ (forall i, 0 <= i < dstW -> 0 <= sampleIndex srcW dstW i < srcW)
  /\ (forall j, 0 <= j < dstH -> 0 <= sampleIndex srcH dstH j < srcH).
Proof.
  intros HdW HdH Hbpp HsW HsH HlW HlH Hsi Hdi Hsrc Hdst HfW HfH.
  unfold INT_MAX in *.
  split; [|split; intros; apply sampleIndex_bounds; lia].
  unfold stretchImage.
  destruct (fixed_step srcW dstW HsW HdW) as (-> & HdivW & Hdx0 & _ & Hhx0 & _).
  cbn [mbind option_bind]. rewrite HdivW. cbn [mbind option_bind].
  destruct (fixed_step srcH dstH HsH HdH) as (-> & HdivH & Hdy0 & _ & Hhy0 & _).
  cbn [mbind option_bind]. rewrite HdivH. cbn [mbind option_bind].
  assert (HWB : dstW * bpp <= dstW * dstH * bpp) by nia.
  rewrite (int_fits (dstW * bpp)) by nia. cbn [mbind option_bind].
  set (dx := Z.quot (Z.shiftl srcW 16) dstW) in *.
  set (dy := Z.quot (Z.shiftl srcH 16) dstH) in *.
  pose proof (stretchRows_spec (Z.to_nat dstH) 0 fuel fuel [] dst src
                (Z.to_nat dstW) (Z.to_nat dstH) (Z.to_nat bpp) srcW dx dy (Z.shiftr dy 1))
    as Hspec.
  cbn [length app] in Hspec.
  change (drop 0 dst) with dst in Hspec. change (Z.of_nat 0) with 0 in Hspec.
  rewrite !Z2Nat.id, Z.mul_0_l, Z.add_0_r in Hspec by lia.
  assert (Hrow : forall r, (r < Z.to_nat dstH)%nat ->
             Z.shiftr (Z.shiftr dy 1 + Z.of_nat r * dy) 16
             = sampleIndex srcH dstH (Z.of_nat r)).
  { intros r _. unfold sampleIndex. fold dy. reflexivity. }
  assert (Hcol : forall c, (c < Z.to_nat dstW)%nat ->
             Z.shiftr (Z.shiftr dx 1 + Z.of_nat c * dx) 16
             = sampleIndex srcW dstW (Z.of_nat c)).
  { intros c _. unfold sampleIndex. fold dx. reflexivity. }
  assert (Hoff : forall r c, (r < Z.to_nat dstH)%nat -> (c < Z.to_nat dstW)%nat ->
             Z.shiftr (Z.shiftr dy 1 + Z.of_nat r * dy) 16 * srcW * bpp
             + Z.shiftr (Z.shiftr dx 1 + Z.of_nat c * dx) 16 * bpp
             = (sampleIndex srcH dstH (Z.of_nat r) * srcW
                + sampleIndex srcW dstW (Z.of_nat c)) * bpp).
  { intros r c Hr Hc. rewrite Hrow, Hcol by assumption. ring. }
  rewrite Hspec; clear Hspec; [|lia|lia|lia|lia|lia| | | |nia].
  - cbv zeta. f_equal. f_equal.
    + unfold stretched. apply flat_map_ext_In. intros r Hr. apply in_seq in Hr.
      apply flat_map_ext_In. intros c Hc. apply in_seq in Hc.
      unfold pixelAt. now rewrite Hoff by lia.
    + f_equal. rewrite (length_flat_map_const _ _ (Z.to_nat dstW * Z.to_nat bpp)).
      * rewrite length_seq. nia.
      * intros r Hr. apply in_seq in Hr.
        rewrite (length_flat_map_const _ _ (Z.to_nat bpp)); [now rewrite length_seq|].
        intros c Hc. apply in_seq in Hc. rewrite Hoff by lia.
        pose proof (sampleIndex_bounds srcH dstH (Z.of_nat r) ltac:(lia) ltac:(lia) ltac:(lia)) as Br.
        pose proof (sampleIndex_bounds srcW dstW (Z.of_nat c) ltac:(lia) ltac:(lia) ltac:(lia)) as Bc.
        pose proof (pixel_offset_bound srcW srcH bpp _ _ _ Br Bc Hbpp Hsrc).
        rewrite length_take, length_drop. lia.
  - intros r c Hr Hc. rewrite Hoff by lia.
    pose proof (sampleIndex_bounds srcH dstH (Z.of_nat r) ltac:(lia) ltac:(lia) ltac:(lia)) as Br.
    pose proof (sampleIndex_bounds srcW dstW (Z.of_nat c) ltac:(lia) ltac:(lia) ltac:(lia)) as Bc.
    pose proof (pixel_offset_bound srcW srcH bpp _ _ _ Br Bc Hbpp Hsrc). lia.
  - intros r Hr. rewrite Hrow by lia.
    pose proof (sampleIndex_bounds srcH dstH (Z.of_nat r) ltac:(lia) ltac:(lia) ltac:(lia)) as Br.
    pose proof (lastStep_bounds srcH dstH (Z.of_nat (S r)) HsH HdH ltac:(lia)) as Bl.
    fold dy in Bl.
    set (s := sampleIndex srcH dstH (Z.of_nat r)) in *.
    assert (0 <= s * srcW <= srcH * srcW) by nia.
    assert (s * srcW * bpp <= srcH * srcW * bpp)
      by (apply Z.mul_le_mono_nonneg_r; lia).
    assert (0 <= s * srcW * bpp) by (apply Z.mul_nonneg_nonneg; lia).
    assert (s * srcW <= s * srcW * bpp) by nia.
    assert (Z.of_nat r * dstW <= dstH * dstW) by nia.
    assert (Z.of_nat r * dstW * bpp <= dstH * dstW * bpp)
      by (apply Z.mul_le_mono_nonneg_r; lia).
    assert (dstH <= dstW * dstH * bpp) by nia.
    repeat split; lia.
  - intros c Hc. rewrite Hcol by lia.
    pose proof (sampleIndex_bounds srcW dstW (Z.of_nat c) ltac:(lia) ltac:(lia) ltac:(lia)) as Bc.
    pose proof (lastStep_bounds srcW dstW (Z.of_nat (S c)) HsW HdW ltac:(lia)) as Bl.
    fold dx in Bl.
    set (s := sampleIndex srcW dstW (Z.of_nat c)) in *.
    assert (0 <= s * bpp <= srcW * bpp) by nia.
    assert (srcW * bpp <= srcW * srcH * bpp) by nia.
    assert (Z.of_nat (S c) * bpp <= dstW * bpp) by nia.
    repeat split; lia.
Qed.

(** X1.  [stretchImage] stays inside both buffers and terminates, with
    no [int] overflow: for positive sizes, a source below 2^15 in each
    direction, accumulators whose last increment fits a [GrFixed],
    image sizes in bytes that fit an [int] and buffers of those sizes,
    it overwrites the first [dstW * dstH * bpp] bytes of the
    destination, in row order, with the source pixel at row
    [(dy/2 + j*dy) >> 16] and column [(dx/2 + i*dx) >> 16], both of
    which lie inside the source image, and leaves the rest untouched.
    The accumulators fit whenever the image is enlarged and whenever
    the source is at most 2^14 wide and high. *)
Theorem stretchImage_spec fuel dst dstW dstH src srcW srcH bpp :
  0 < dstW -> 0 < dstH -> 0 < bpp ->
  0 < srcW < 2 ^ 15 -> 0 < srcH < 2 ^ 15 ->
  lastStep srcW dstW <= INT_MAX -> lastStep srcH dstH <= INT_MAX ->
  srcW * srcH * bpp <= INT_MAX -> dstW * dstH * bpp <= INT_MAX ->
  srcW * srcH * bpp <= Z.of_nat (length src) ->
  dstW * dstH * bpp <= Z.of_nat (length dst) ->
  (Z.to_nat dstW <= fuel)%nat -> (Z.to_nat dstH <= fuel)%nat ->
  (stretchImage fuel dst dstW dstH src srcW srcH bpp
   = Some (stretched src dstW dstH srcW srcH bpp
           ++ drop (Z.to_nat (dstW * dstH * bpp)) dst)
   /\ (forall i, 0 <= i < dstW -> 0 <= sampleIndex srcW dstW i < srcW)
   /\ (forall j, 0 <= j < dstH -> 0 <= sampleIndex srcH dstH j < srcH))
  /\ (forall s d, 0 < s < 2 ^ 15 -> s <= d -> lastStep s d <= INT_MAX)
  /\ (forall s d, 0 < s <= 2 ^ 14 -> 0 < d -> lastStep s d <= INT_MAX).
Proof.
  intros. split; [now apply stretchImage_eq|].
  split; [apply lastStep_upscale|apply lastStep_small].
Qed.

(** A source of 2^15 or more pixels in a row has no result: [srcW << 16]
    overflows. *)
Lemma stretchImage_wide fuel dst dstW dstH src srcW srcH bpp :
  2 ^ 15 <= srcW -> stretchImage fuel dst dstW dstH src srcW srcH bpp = None.
Proof.
  intros H. unfold stretchImage, shl16.
  destruct (Z.leb_spec 0 srcW); [|lia].
  rewrite (int_overflow (Z.shiftl srcW 16)); [reflexivity|].
  rewrite Z.shiftl_mul_pow2 by lia. lia.
Qed.


Lemma sampleIndex_same n i :
  0 < n -> 0 <= i -> sampleIndex n n i = i.
Proof.
  intros Hn Hi. unfold sampleIndex. cbv zeta.
  rewrite Z.shiftl_mul_pow2 by lia. rewrite Z.quot_div_nonneg by lia.
  rewrite (Z.mul_comm n), Z.div_mul by lia.
  rewrite (Z.shiftr_div_pow2 _ 1), Z.shiftr_div_pow2 by lia.
  change (2 ^ 16 / 2 ^ 1) with 32768. change (2 ^ 16) with 65536.
  symmetry. apply (Z.div_unique _ _ _ 32768); lia.
Qed.

Lemma chunks_take {A} (l : list A) (b n : nat) :
  flat_map (fun k => take b (drop (k * b) l)) (seq 0 n) = take (n * b) l.
Proof.
  induction n as [|n IH]; [reflexivity|].
  rewrite seq_S, flat_map_app, IH. cbn [flat_map Nat.add]. rewrite app_nil_r.
  rewrite take_take_drop. f_equal. lia.
Qed.

(** X2.  Stretching an image to its own size copies it: for a width
    and height below 2^15 and an image size in bytes that fits an
    [int], the first [srcW * srcH * bpp] bytes of the destination
    become those of the source and nothing overflows. *)
Theorem stretchImage_identity fuel dst src srcW srcH bpp :
  0 < bpp ->
  0 < srcW < 2 ^ 15 -> 0 < srcH < 2 ^ 15 ->
  srcW * srcH * bpp <= INT_MAX ->
  srcW * srcH * bpp <= Z.of_nat (length src) ->
  srcW * srcH * bpp <= Z.of_nat (length dst) ->
  (Z.to_nat srcW <= fuel)%nat -> (Z.to_nat srcH <= fuel)%nat ->
  stretchImage fuel dst srcW srcH src srcW srcH bpp
  = Some (take (Z.to_nat (srcW * srcH * bpp)) src
          ++ drop (Z.to_nat (srcW * srcH * bpp)) dst).
Proof.
  intros Hbpp HsW HsH Hint Hsrc Hdst HfW HfH.
  destruct (stretchImage_eq fuel dst srcW srcH src srcW srcH bpp) as [-> _];
    try lia; try (apply lastStep_upscale; lia).
  f_equal. f_equal. unfold stretched.
  set (w := Z.to_nat srcW). set (h := Z.to_nat srcH). set (b := Z.to_nat bpp).
  replace (Z.to_nat (srcW * srcH * bpp)) with (h * (w * b))%nat by nia.
  rewrite <- (chunks_take src (w * b) h).
  apply flat_map_ext_In. intros r Hr. apply in_seq in Hr.
  rewrite <- (chunks_take (drop (r * (w * b)) src) b w).
  apply flat_map_ext_In. intros c Hc. apply in_seq in Hc.
  unfold pixelAt. rewrite !sampleIndex_same by lia. fold b.
  rewrite drop_drop. f_equal. f_equal. nia.
Qed.

Lemma stretchImage_identity_witness :
  stretchImage 2 [Byte.x00; Byte.x00; Byte.x00; Byte.x00; Byte.xff] 2 2 sampleImage 2 2 1
  = Some [Byte.x01; Byte.x02; Byte.x03; Byte.x04; Byte.xff].
Proof.
  rewrite (stretchImage_identity 2 [Byte.x00; Byte.x00; Byte.x00; Byte.x00; Byte.xff]
             sampleImage 2 2 1);
    [reflexivity|first [cbn; lia|vm_compute; discriminate]..].
Defined.

Lemma stretchImage_spec_witness :
  stretchImage 4 (repeat Byte.x00 8) 4 2 sampleImage 2 2 1
  = Some [Byte.x01; Byte.x01; Byte.x02; Byte.x02; Byte.x03; Byte.x03; Byte.x04; Byte.x04].
Proof.
  destruct (stretchImage_spec 4 (repeat Byte.x00 8) 4 2 sampleImage 2 2 1) as [[-> _] _];
    [first [cbn; lia|vm_compute; discriminate]..|reflexivity].
Defined.

(** Discrete intermediate values: a sequence that starts at [0] and
    never steps by more than one takes every value up to its last. *)
Lemma steps_cover (f : Z -> Z) (n : nat) :
  f 0 = 0 ->
  (forall i, 0 <= i < Z.of_nat n -> f i <= f (i + 1) <= f i + 1) ->
  forall c, 0 <= c <= f (Z.of_nat n) -> exists i, 0 <= i <= Z.of_nat n /\ f i = c.
Proof.
  intros H0. induction n as [|n IH]; intros Hstep c Hc.
  - exists 0. change (Z.of_nat 0) with 0 in *. rewrite H0 in *. lia.
  - assert (Hn := Hstep (Z.of_nat n) ltac:(lia)).
    replace (Z.of_nat n + 1) with (Z.of_nat (S n)) in Hn by lia.
    destruct (Z.eq_dec c (f (Z.of_nat (S n)))) as [->|Hne].
    + exists (Z.of_nat (S n)). lia.
    + destruct (IH ltac:(intros i Hi; apply Hstep; lia) c ltac:(lia)) as (i & Hi & <-).
      exists i. lia.
Qed.

(** X3.  Enlarging loses no pixel: when the source is below 2^15 (so
    that [srcN << 16] fits an [int]) and the destination is at least as
    wide as the source and at most 2^15, the [int] shift, the division
    and every value of the accumulator are defined, the sampled columns
    start at column 0, never go backwards, never skip a column, and end
    at the last column, so every source column is sampled. *)
Theorem sampleIndex_upscale_covers srcN dstN :
  0 < srcN -> srcN < 2 ^ 15 -> srcN <= dstN -> dstN <= 2 ^ 15 ->
  (shl16 srcN = Some (Z.shiftl srcN 16)
   /\ idiv (Z.shiftl srcN 16) dstN = Some (Z.quot (Z.shiftl srcN 16) dstN)
   /\ forall i, 0 <= i <= dstN ->
        int (Z.shiftr (Z.quot (Z.shiftl srcN 16) dstN) 1
             + i * Z.quot (Z.shiftl srcN 16) dstN)
        = Some (Z.shiftr (Z.quot (Z.shiftl srcN 16) dstN) 1
                + i * Z.quot (Z.shiftl srcN 16) dstN))
  /\ sampleIndex srcN dstN 0 = 0
  /\ sampleIndex srcN dstN (dstN - 1) = srcN - 1
  /\ (forall i, 0 <= i < dstN - 1 ->
        sampleIndex srcN dstN i <= sampleIndex srcN dstN (i + 1)
        <= sampleIndex srcN dstN i + 1)
  /\ (forall c, 0 <= c < srcN -> exists i, 0 <= i < dstN /\ sampleIndex srcN dstN i = c).
Proof.
  intros Hs Hs15 Hle Hd.
  split.
  { destruct (fixed_step srcN dstN ltac:(lia) ltac:(lia)) as (H1 & H2 & _).
    split; [exact H1|]. split; [exact H2|].
    intros i Hi. apply int_fits.
    pose proof (lastStep_bounds srcN dstN i ltac:(lia) ltac:(lia) Hi).
    pose proof (lastStep_upscale srcN dstN ltac:(lia) Hle). unfold INT_MAX in *. lia. }
  assert (Hform : forall i, sampleIndex srcN dstN i
                            = (srcN * 65536 / dstN / 2 + i * (srcN * 65536 / dstN)) / 65536).
  { intros i. unfold sampleIndex.
    rewrite Z.shiftl_mul_pow2 by lia. rewrite Z.quot_div_nonneg by lia.
    rewrite (Z.shiftr_div_pow2 _ 1), Z.shiftr_div_pow2 by lia. reflexivity. }
  set (d := srcN * 65536 / dstN) in *.
  assert (Hd1 : 0 < d <= 65536).
  { subst d. split.
    - apply Z.div_str_pos. nia.
    - apply Z.div_le_upper_bound; nia. }
  assert (Hd2 : srcN * 65536 - dstN < d * dstN <= srcN * 65536).
  { subst d. pose proof (Z.mul_div_le (srcN * 65536) dstN ltac:(lia)).
    pose proof (Z.mod_pos_bound (srcN * 65536) dstN ltac:(lia)).
    pose proof (Z.div_mod (srcN * 65536) dstN ltac:(lia)). nia. }
  assert (H0 : sampleIndex srcN dstN 0 = 0).
  { rewrite Hform. apply Z.div_small. pose proof (Z.div_pos d 2). 
    assert (d / 2 <= 32768) by (apply Z.div_le_upper_bound; lia).
    assert (0 <= d / 2) by (apply Z.div_pos; lia). lia. }
  assert (Hlast : sampleIndex srcN dstN (dstN - 1) = srcN - 1).
  { rewrite Hform. symmetry.
    assert (Hh : (d - 1) <= 2 * (d / 2) <= d).
    { pose proof (Z.div_mod d 2 ltac:(lia)). pose proof (Z.mod_pos_bound d 2 ltac:(lia)). lia. }
    apply (Z.div_unique _ _ _ (d / 2 + (dstN - 1) * d - 65536 * (srcN - 1))); nia. }
  assert (Hstep : forall i, 0 <= i < dstN - 1 ->
             sampleIndex srcN dstN i <= sampleIndex srcN dstN (i + 1)
             <= sampleIndex srcN dstN i + 1).
  { intros i Hi. rewrite !Hform.
    replace (d / 2 + (i + 1) * d) with ((d / 2 + i * d) + d) by ring.
    set (x := d / 2 + i * d). split.
    - apply Z.div_le_mono; lia.
    - replace (x / 65536 + 1) with ((x + 1 * 65536) / 65536)
        by (rewrite Z.div_add; lia).
      apply Z.div_le_mono; lia. }
  split; [exact H0|]. split; [exact Hlast|]. split; [exact Hstep|].
  intros c Hc.
  destruct (steps_cover (sampleIndex srcN dstN) (Z.to_nat (dstN - 1)) H0) with (c := c)
    as (i & Hi & Hfi).
  - intros i Hi. apply Hstep. lia.
  - rewrite Z2Nat.id by lia. lia.
  - exists i. split; [lia|exact Hfi].
Qed.

Lemma sampleIndex_upscale_covers_witness :
  sampleIndex 100 128 0 = 0 /\ sampleIndex 100 128 127 = 99.
Proof.
  destruct (sampleIndex_upscale_covers 100 128) as (_ & H0 & Hlast & _); [lia..|].
  split; [exact H0|exact Hlast].
Defined.

(** ** adjust_sigma *)

Lemma inject_Z_pow2_succ (k : nat) :
  (inject_Z (2 ^ Z.of_nat (S k)) == 2 * inject_Z (2 ^ Z.of_nat k))%Q.
Proof.
  rewrite Nat2Z.inj_succ, Z.pow_succ_r, inject_Z_mult by lia. reflexivity.
Qed.

Lemma adjust_sigma_loop_spec n :
  forall fuel sigma sf,
    (n <= fuel)%nat ->
    0 < sf -> sf * 2 ^ Z.of_nat n <= 2 ^ 31 - 1 ->
    (sigma <= 4 * inject_Z (2 ^ Z.of_nat n))%Q ->
    exists s k,
      adjust_sigma_loop fuel sigma sf = Some (s, sf * 2 ^ Z.of_nat k)
      /\ (k <= n)%nat
      /\ (s <= 4)%Q
      /\ (s * inject_Z (2 ^ Z.of_nat k) == sigma)%Q
      /\ ((sigma <= 4)%Q -> k = 0%nat /\ s = sigma)
      /\ ((4 < sigma)%Q -> (2 < s)%Q).
Proof.
  assert (Hstop : forall fuel sigma sf, (sigma <= 4)%Q ->
            exists s k,
              adjust_sigma_loop fuel sigma sf = Some (s, sf * 2 ^ Z.of_nat k)
              /\ k = 0%nat /\ (s <= 4)%Q
              /\ (s * inject_Z (2 ^ Z.of_nat k) == sigma)%Q
              /\ ((sigma <= 4)%Q -> k = 0%nat /\ s = sigma)
              /\ ((4 < sigma)%Q -> (2 < s)%Q)).
  { intros fuel sigma sf Hle. exists sigma, 0%nat.
    assert (Heq : adjust_sigma_loop fuel sigma sf = Some (sigma, sf)).
    { destruct fuel; cbn [adjust_sigma_loop];
        destruct (Qlt_le_dec MAX_BLUR_SIGMA sigma) as [Hgt|_]; unfold MAX_BLUR_SIGMA in *;
        try reflexivity; lra. }
    rewrite Heq. change (2 ^ Z.of_nat 0) with 1. rewrite Z.mul_1_r.
    change (inject_Z 1) with 1%Q.
    repeat split; try easy; try lra. }
  induction n as [|n IH]; intros fuel sigma sf Hfuel Hsf Hfit Hbound.
  - change (inject_Z (2 ^ Z.of_nat 0)) with 1%Q in Hbound.
    destruct (Hstop fuel sigma sf ltac:(lra)) as (s & k & Heq & -> & Hrest).
    exists s, 0%nat. split; [exact Heq|]. split; [lia|exact Hrest].
  - destruct (Qlt_le_dec 4 sigma) as [Hgt|Hle].
    2:{ destruct (Hstop fuel sigma sf Hle) as (s & k & Heq & -> & Hrest).
        exists s, 0%nat. split; [exact Heq|]. split; [lia|exact Hrest]. }
    destruct fuel as [|fuel]; [lia|]. cbn [adjust_sigma_loop].
    destruct (Qlt_le_dec MAX_BLUR_SIGMA sigma) as [_|Hle]; unfold MAX_BLUR_SIGMA in *;
      [|lra].
    assert (Hpow : 2 ^ Z.of_nat (S n) = 2 * 2 ^ Z.of_nat n)
      by (rewrite Nat2Z.inj_succ, Z.pow_succ_r by lia; reflexivity).
    assert (Hpos : 0 < 2 ^ Z.of_nat n) by (apply Z.pow_pos_nonneg; lia).
    rewrite (int_fits (sf * 2)) by nia. cbn [mbind option_bind].
    pose proof (inject_Z_pow2_succ n) as Hp.
    assert (Hhalf : (sigma * (1 # 2) <= 4 * inject_Z (2 ^ Z.of_nat n))%Q) by lra.
    destruct (IH fuel (sigma * (1 # 2))%Q (sf * 2) ltac:(lia) ltac:(lia) ltac:(nia) Hhalf)
      as (s & k & Heq & Hk & Hs & Hmul & Hsmall & Hbig).
    exists s, (S k). rewrite Heq.
    split. { f_equal. f_equal. rewrite Nat2Z.inj_succ, Z.pow_succ_r by lia. ring. }
    split; [lia|]. split; [exact Hs|].
    split.
    { pose proof (inject_Z_pow2_succ k) as Hq.
      set (a := inject_Z (2 ^ Z.of_nat (S k))) in *.
      set (b := inject_Z (2 ^ Z.of_nat k)) in *.
      rewrite Hq.
      setoid_replace (s * (2 * b))%Q with ((s * b) * 2)%Q using relation Qeq by ring.
      rewrite Hmul. ring. }
    split; [intros Hle; lra|].
    intros _.
    destruct (Qlt_le_dec 4 (sigma * (1 # 2))) as [Hgt'|Hle'].
    + now apply Hbig.
    + destruct (Hsmall Hle') as [_ ->]. lra.
Qed.

(** X4 (adjust_sigma).  Let the single-precision product by 3 be
    monotone and exact on 0, 2 and 4, as rounding to nearest is.  For a
    sigma between 0 and [4 * 2^n] with [n <= 30] and fuel for [n]
    halvings, the loop terminates without overflow of the [int] scale
    factor; the returned sigma is at most [MAX_BLUR_SIGMA], the scale
    factor is a power of two of at most 2^30, returned sigma times scale
    factor is the sigma passed in, and the kernel radius is between 0
    and 12.  A sigma that is already at most [MAX_BLUR_SIGMA] is
    returned unchanged with scale factor 1; a larger one is brought
    into the interval (2, 4], where the radius is at least 6. *)
Theorem adjust_sigma_spec (fmul : SkScalar -> SkScalar -> SkScalar)
        (fuel n : nat) (sigma : SkScalar) :
  (forall a b, (a <= b)%Q -> (fmul a 3 <= fmul b 3)%Q) ->
  (fmul 0 3 == 0)%Q -> (fmul 2 3 == 6)%Q -> (fmul 4 3 == 12)%Q ->
  (0 <= sigma)%Q ->
  (n <= 30)%nat -> (n <= fuel)%nat ->
  (sigma <= 4 * inject_Z (2 ^ Z.of_nat n))%Q ->
  exists s k,
    adjust_sigma fmul fuel sigma = Some (s, 2 ^ Z.of_nat k, Qceiling (fmul s 3%Q))
    /\ (k <= n)%nat
    /\ (s <= MAX_BLUR_SIGMA)%Q
    /\ (s * inject_Z (2 ^ Z.of_nat k) == sigma)%Q
    /\ 0 <= Qceiling (fmul s 3%Q) <= 12
    /\ ((sigma <= MAX_BLUR_SIGMA)%Q -> k = 0%nat /\ s = sigma)
    /\ ((MAX_BLUR_SIGMA < sigma)%Q -> (2 < s)%Q /\ 6 <= Qceiling (fmul s 3%Q)).
Proof.
  intros Hmono H0 H2 H4 Hnonneg Hn Hfuel Hbound.
  assert (Hfit : 1 * 2 ^ Z.of_nat n <= 2 ^ 31 - 1).
  { assert (2 ^ Z.of_nat n <= 2 ^ 30) by (apply Z.pow_le_mono_r; lia). lia. }
  destruct (adjust_sigma_loop_spec n fuel sigma 1 Hfuel ltac:(lia) Hfit Hbound)
    as (s & k & Heq & Hk & Hs & Hmul & Hsmall & Hbig).
  assert (Hs0 : (0 <= s)%Q).
  { destruct (Qlt_le_dec 4 sigma) as [Hgt|Hle].
    - specialize (Hbig Hgt). lra.
    - destruct (Hsmall Hle) as [_ ->]. exact Hnonneg. }
  assert (Hhi : Qceiling (fmul s 3%Q) <= 12).
  { change 12 with (Qceiling 12). rewrite <- (Qceiling_comp _ _ H4).
    apply Qceiling_resp_le, Hmono, Hs. }
  assert (Hlo : 0 <= Qceiling (fmul s 3%Q)).
  { change 0 with (Qceiling 0). rewrite <- (Qceiling_comp _ _ H0).
    apply Qceiling_resp_le, Hmono, Hs0. }
  exists s, k. unfold adjust_sigma. rewrite Heq. cbn [mbind option_bind].
  rewrite (int_fits (Qceiling (fmul s 3%Q))) by lia. cbn [mbind option_bind].
  rewrite Z.mul_1_l.
  split; [reflexivity|]. split; [exact Hk|].
  split; [exact Hs|]. split; [exact Hmul|]. split; [lia|].
  split; [exact Hsmall|].
  intros Hgt. specialize (Hbig Hgt). split; [exact Hbig|].
  change 6 with (Qceiling 6). rewrite <- (Qceiling_comp _ _ H2).
  apply Qceiling_resp_le, Hmono. lra.
Qed.

Lemma adjust_sigma_spec_witness :
  exists s k,
    adjust_sigma Qmult 2 10%Q = Some (s, 2 ^ Z.of_nat k, Qceiling (s * 3))
    /\ (k <= 2)%nat
    /\ (s <= MAX_BLUR_SIGMA)%Q
    /\ (s * inject_Z (2 ^ Z.of_nat k) == 10%Q)%Q
    /\ 0 <= Qceiling (s * 3) <= 12
    /\ ((10%Q <= MAX_BLUR_SIGMA)%Q -> k = 0%nat /\ s = 10%Q)
    /\ ((MAX_BLUR_SIGMA < 10%Q)%Q -> (2 < s)%Q /\ 6 <= Qceiling (s * 3)).
Proof.
  apply (adjust_sigma_spec Qmult 2 2 10%Q).
  - intros a b Hab. lra.
  - reflexivity.
  - reflexivity.
  - reflexivity.
  - vm_compute. discriminate.
  - lia.
  - lia.
  - vm_compute. discriminate.
Defined.

(** ** setOrClear *)

Lemma testbit_INT_MIN i : 0 <= i -> Z.testbit INT_MIN i = (31 <=? i).
Proof.
  intros Hi. change INT_MIN with (Z.lnot (Z.ones 31)).
  rewrite Z.lnot_spec, Z.testbit_ones_nonneg by lia.
  destruct (Z.ltb_spec i 31), (Z.leb_spec 31 i); try lia; reflexivity.
Qed.

(** The bits of the mask [1 << shift] after widening. *)
Lemma setOrClear_bits bits shift pred i :
  0 <= shift <= 31 -> 0 <= i ->
  exists r,
    setOrClear bits shift pred = Some r
    /\ Z.testbit r i
       = if (if shift <? 31 then i =? shift else 31 <=? i)
         then negb (pred =? 0) else Z.testbit bits i.
Proof.
  intros Hs Hi. unfold setOrClear.
  destruct (Z.leb_spec 0 shift); [|lia]. cbn [andb].
  destruct (Z.ltb_spec shift 31).
  - cbn [mbind option_bind]. eexists. split; [reflexivity|].
    rewrite Z.shiftl_1_l. destruct (pred =? 0); cbn [negb].
    + rewrite Z.land_spec, Z.lnot_spec, Z.pow2_bits_eqb by lia.
      rewrite (Z.eqb_sym shift i).
      destruct (i =? shift); cbn; [apply andb_false_r|apply andb_true_r].
    + rewrite Z.lor_spec, Z.pow2_bits_eqb by lia.
      rewrite (Z.eqb_sym shift i).
      destruct (i =? shift); cbn; [apply orb_true_r|apply orb_false_r].
  - destruct (Z.eqb_spec shift 31); [|lia]. cbn [mbind option_bind].
    eexists. split; [reflexivity|].
    destruct (pred =? 0); cbn [negb].
    + rewrite Z.land_spec, Z.lnot_spec, testbit_INT_MIN by lia.
      destruct (31 <=? i); cbn; [apply andb_false_r|apply andb_true_r].
    + rewrite Z.lor_spec, testbit_INT_MIN by lia.
      destruct (31 <=? i); cbn; [apply orb_true_r|apply orb_false_r].
Qed.

(** X5 (setOrClear).  The mask is computed on [int].  For a shift from
    0 to 30, [setOrClear] makes bit [shift] of the result tell whether
    [pred] is nonzero and leaves every other bit as it was.  For a
    shift of 31 the mask is [INT_MIN], widened with its sign: every bit
    from 31 upwards is set or cleared together, and the bits below are
    left alone.  Any other shift has no defined result.  Where it is
    defined, a second call with the same shift overrides the first. *)
Theorem setOrClear_spec bits shift pred pred' :
  (0 <= shift <= 30 ->
   exists r,
     setOrClear bits shift pred = Some r
     /\ forall i, 0 <= i ->
          Z.testbit r i = if i =? shift then negb (pred =? 0) else Z.testbit bits i)
  /\ (shift = 31 ->
      exists r,
        setOrClear bits shift pred = Some r
        /\ forall i, 0 <= i ->
             Z.testbit r i = if 31 <=? i then negb (pred =? 0) else Z.testbit bits i)
  /\ (shift < 0 \/ 31 < shift -> setOrClear bits shift pred = None)
  /\ (0 <= shift <= 31 ->
      (r ← setOrClear bits shift pred; setOrClear r shift pred')
      = setOrClear bits shift pred').
Proof.
  assert (Hdef : forall b p, 0 <= shift <= 31 ->
            exists r, setOrClear b shift p = Some r
                      /\ forall i, 0 <= i ->
                           Z.testbit r i
                           = if (if shift <? 31 then i =? shift else 31 <=? i)
                             then negb (p =? 0) else Z.testbit b i).
  { intros b p Hs. destruct (setOrClear_bits b shift p 0 Hs ltac:(lia)) as (r & Hr & _).
    exists r. split; [exact Hr|]. intros i Hi.
    destruct (setOrClear_bits b shift p i Hs Hi) as (r' & Hr' & Hbit). congruence. }
  split; [|split; [|split]].
  - intros Hs. destruct (Hdef bits pred ltac:(lia)) as (r & Hr & Hbits).
    exists r. split; [exact Hr|]. intros i Hi. rewrite Hbits by exact Hi.
    destruct (Z.ltb_spec shift 31); [reflexivity|lia].
  - intros ->. destruct (Hdef bits pred ltac:(lia)) as (r & Hr & Hbits).
    exists r. split; [exact Hr|]. intros i Hi. now rewrite Hbits by exact Hi.
  - intros Hs. unfold setOrClear.
    destruct (Z.leb_spec 0 shift), (Z.ltb_spec shift 31), (Z.eqb_spec shift 31);
      try lia; reflexivity.
  - intros Hs. destruct (Hdef bits pred Hs) as (r & -> & Hbits). cbn [mbind option_bind].
    destruct (Hdef r pred' Hs) as (r1 & -> & Hbits1).
    destruct (Hdef bits pred' Hs) as (r2 & -> & Hbits2).
    f_equal. apply Z.bits_inj'. intros i Hi.
    rewrite Hbits1, Hbits2, Hbits by exact Hi.
    now destruct (if shift <? 31 then i =? shift else 31 <=? i).
Qed.

Lemma setOrClear_spec_witness :
  (exists r,
     setOrClear 5 1 7 = Some r
     /\ forall i, 0 <= i ->
          Z.testbit r i = if i =? 1 then negb (7 =? 0) else Z.testbit 5 i)
  /\ (exists r,
        setOrClear 5 31 7 = Some r
        /\ forall i, 0 <= i ->
             Z.testbit r i = if 31 <=? i then negb (7 =? 0) else Z.testbit 5 i)
  /\ setOrClear 5 32 7 = None.
Proof.
  destruct (setOrClear_spec 5 1 7 0) as (H1 & _).
  destruct (setOrClear_spec 5 31 7 0) as (_ & H2 & _).
  destruct (setOrClear_spec 5 32 7 0) as (_ & _ & H3 & _).
  split; [apply H1; lia|]. split; [apply H2; reflexivity|apply H3; lia].
Defined.

(** ** supportsIndex8PixelConfig *)

(** X6 (supportsIndex8PixelConfig).  Paletted textures are supported
    exactly when the device has 8-bit palette support and the request
    is not a tiled one of a size that is not a power of two on a device
    without tiling of such sizes.  So the sizes matter only for tiled
    requests, and what is supported tiled is supported untiled and
    without sampling parameters. *)
Theorem supportsIndex8PixelConfig_spec (GrIsPow2 : Z -> bool) (palette npotTile : bool)
        (params : option bool) (width height : Z) :
  (supportsIndex8PixelConfig GrIsPow2 palette npotTile params width height
   = palette && (npotTile || negb (default false params)
                 || (GrIsPow2 width && GrIsPow2 height)))
  /\ (forall w h, supportsIndex8PixelConfig GrIsPow2 palette npotTile None width height
                  = supportsIndex8PixelConfig GrIsPow2 palette npotTile (Some false) w h)
  /\ (supportsIndex8PixelConfig GrIsPow2 palette npotTile (Some true) width height = true ->
      supportsIndex8PixelConfig GrIsPow2 palette npotTile params width height = true).
Proof.
  unfold supportsIndex8PixelConfig.
  split; [|split].
  - destruct palette, npotTile, params as [[|]|], (GrIsPow2 width), (GrIsPow2 height); reflexivity.
  - intros w h.
    destruct palette, npotTile, (GrIsPow2 width), (GrIsPow2 height),
      (GrIsPow2 w), (GrIsPow2 h); reflexivity.
  - destruct palette, npotTile, params as [[|]|], (GrIsPow2 width), (GrIsPow2 height);
      cbn; congruence.
Qed.

(** ** grconfig_to_config8888 *)

(** X7 (grconfig_to_config8888).  Whether a pixel configuration has a
    Config8888 does not depend on the premultiplication asked for, and
    the conversion loses nothing: equal results come from equal
    configurations and equal premultiplication. *)
Theorem grconfig_to_config8888_injective cfg1 u1 cfg2 u2 r :
  grconfig_to_config8888 cfg1 u1 = Some r ->
  grconfig_to_config8888 cfg2 u2 = Some r ->
  cfg1 = cfg2 /\ u1 = u2
  /\ is_Some (grconfig_to_config8888 cfg1 (negb u1)).
Proof.
  destruct cfg1, u1, cfg2, u2; cbn; intros H1 H2; try discriminate;
    rewrite <- H1 in H2; try discriminate; repeat split; eauto.
Qed.

Lemma grconfig_to_config8888_injective_witness :
  kBGRA_8888_GrPixelConfig = kBGRA_8888_GrPixelConfig /\ true = true
  /\ is_Some (grconfig_to_config8888 kBGRA_8888_GrPixelConfig (negb true)).
Proof.
  apply (grconfig_to_config8888_injective _ _ _ _ kBGRA_Unpremul_Config8888); reflexivity.
Defined.

(** ** isSimilarityTransformation *)

Lemma Qeq_bool_false x y : ~ (x == y)%Q -> Qeq_bool x y = false.
Proof.
  intros H. destruct (Qeq_bool x y) eqn:E; [|reflexivity].
  now apply Qeq_bool_iff in E.
Qed.

Lemma Qeq_bool_true x y : (x == y)%Q -> Qeq_bool x y = true.
Proof. apply Qeq_bool_iff. Qed.

(** X9 (isSimilarityTransformation).  A matrix with perspective and a
    matrix whose scale and skew entries are all zero are never taken
    for a similarity, whatever the tolerance and the tolerance tests. *)
Theorem isSimilarityTransformation_rejects X (m : SkMatrix) (tol : SkScalar) :
  hasPerspective m = true
  \/ ((kMScaleX m == 0)%Q /\ (kMSkewX m == 0)%Q /\ (kMScaleY m == 0)%Q /\ (kMSkewY m == 0)%Q) ->
  isSimilarityTransformation X m tol = false.
Proof.
  intros H. unfold isSimilarityTransformation.
  assert (Hty : isIdentity m || (getType m =? kTranslate_Mask) = false).
  { apply orb_false_iff. unfold isIdentity.
    destruct H as [Hp|(Hmx & _)].
    - unfold hasPerspective, hasBit in Hp.
      split; apply Z.eqb_neq; intros E; rewrite E in Hp; discriminate Hp.
    - unfold getType. rewrite (Qeq_bool_false (kMScaleX m) 1).
      + cbn [negb orb]. unfold kTranslate_Mask, kScale_Mask, kAffine_Mask, kPerspective_Mask.
        split; apply Z.eqb_neq;
          destruct (_ || _), (_ || _), (_ || _ || _); discriminate.
      + rewrite Hmx. discriminate. }
  rewrite Hty.
  destruct (hasPerspective m) eqn:Hp; [reflexivity|].
  destruct H as [?|(Hmx & Hsx & Hmy & Hsy)]; [discriminate|].
  now rewrite !Qeq_bool_true.
Qed.

Lemma isSimilarityTransformation_rejects_witness :
  isSimilarityTransformation sampleExternals
    (mkMatrix 1%Q 0%Q 0%Q 0%Q 1%Q 0%Q (1 # 2)%Q 0%Q 1%Q) (1 # 4096)%Q = false.
Proof.
  apply (isSimilarityTransformation_rejects sampleExternals). left. reflexivity.
Defined.

(** ** flush *)

Lemma flushDrawBuffer_total n c :
  exists c', flushDrawBuffer (S (S n)) c = Some c'
             /\ fDrawBuffer c' = buf_reset <$> fDrawBuffer c
             /\ fDrawState c' = fDrawState c
             /\ fLastDrawWasBuffered c' = fLastDrawWasBuffered c
             /\ fPathRendererChain c' = fPathRendererChain c
             /\ fSoftwarePathRenderer c' = fSoftwarePathRenderer c
             /\ fGpu c' = fGpu c
             /\ fTextureCache c' = fTextureCache c.
Proof.
  destruct (fDrawBuffer c) as [buf|] eqn:E.
  - rewrite (flushDrawBuffer_live n c buf E). eexists. split; [reflexivity|].
    now repeat split.
  - rewrite flushDrawBuffer_null by exact E. exists c. rewrite E. now repeat split.
Qed.

Lemma flush_live n flagsBitfield c buf :
  fDrawBuffer c = Some buf ->
  flush (S (S n)) flagsBitfield c
  = Some (emitAll ((if hasBit kDiscard_FlushBit flagsBitfield then []
                    else EvFlushTo :: replayEvents (buf_cmds buf))
                   ++ (if hasBit kForceCurrentRenderTarget_FlushBit flagsBitfield
                       then [EvForceRenderTargetFlush] else []))
            (set_fDrawBuffer (Some (buf_reset buf)) c)).
Proof.
  intros Hbuf. unfold flush, flush_with.
  destruct (hasBit kDiscard_FlushBit flagsBitfield).
  - rewrite Hbuf. cbn [mbind option_bind fmap option_fmap option_map app].
    destruct (hasBit kForceCurrentRenderTarget_FlushBit flagsBitfield).
    + reflexivity.
    + unfold emitAll, set_fDrawBuffer. cbn. now rewrite app_nil_r.
  - rewrite (flushDrawBuffer_live n c buf Hbuf). cbn [mbind option_bind].
    destruct (hasBit kForceCurrentRenderTarget_FlushBit flagsBitfield).
    + unfold flushed. now rewrite emitAll_emit.
    + unfold flushed. now rewrite app_nil_r.
Qed.

(** X10 (flush).  With a live draw buffer [flush] terminates for every
    flag word.  Without the discard bit the recorded commands are
    replayed in recording order behind one [flushTo]; with it they are
    dropped and nothing of them reaches the device.  A forced render
    target flush comes after the replay.  Either way the buffer stays
    installed and is empty afterwards. *)
Theorem flush_effect fuel flagsBitfield c buf :
  (2 <= fuel)%nat ->
  fDrawBuffer c = Some buf ->
  exists c',
    flush fuel flagsBitfield c = Some c'
    /\ trace c' = trace c
                  ++ (if hasBit kDiscard_FlushBit flagsBitfield then []
                      else EvFlushTo :: replayEvents (buf_cmds buf))
                  ++ (if hasBit kForceCurrentRenderTarget_FlushBit flagsBitfield
                      then [EvForceRenderTargetFlush] else [])
    /\ fDrawBuffer c' = Some (mkBuffer [] (buf_clip buf))
    /\ fDrawState c' = fDrawState c
    /\ fTextureCache c' = fTextureCache c.
Proof.
  intros Hfuel Hbuf. destruct fuel as [|[|n]]; [lia|lia|].
  rewrite (flush_live n flagsBitfield c buf Hbuf). eexists. split; [reflexivity|].
  now repeat split.
Qed.

Lemma flush_effect_witness :
  exists c',
    flush 2 kDiscard_FlushBit sampleBuffered = Some c'
    /\ trace c' = trace sampleBuffered
                  ++ (if hasBit kDiscard_FlushBit kDiscard_FlushBit then []
                      else EvFlushTo :: replayEvents (buf_cmds sampleBuffer))
                  ++ (if hasBit kForceCurrentRenderTarget_FlushBit kDiscard_FlushBit
                      then [EvForceRenderTargetFlush] else [])
    /\ fDrawBuffer c' = Some (mkBuffer [] (buf_clip sampleBuffer))
    /\ fDrawState c' = fDrawState sampleBuffered
    /\ fTextureCache c' = fTextureCache sampleBuffered.
Proof.
  apply (flush_effect 2 kDiscard_FlushBit sampleBuffered sampleBuffer); [lia|reflexivity].
Defined.

(** X11 (flush, flushDrawBuffer).  [flushDrawBuffer] does not look at
    what the buffer holds: flushing again right after a flush still
    hands the (empty) buffer to [flushTo], which replays nothing. *)
Theorem flush_twice fuel1 fuel2 c buf :
  (2 <= fuel1)%nat -> (2 <= fuel2)%nat ->
  fDrawBuffer c = Some buf ->
  exists c1 c2,
    flush fuel1 0 c = Some c1
    /\ flush fuel2 0 c1 = Some c2
    /\ trace c2 = trace c1 ++ [EvFlushTo]
    /\ fDrawBuffer c2 = fDrawBuffer c1.
Proof.
  intros H1 H2 Hbuf.
  destruct fuel1 as [|[|n1]]; [lia|lia|]. destruct fuel2 as [|[|n2]]; [lia|lia|].
  rewrite (flush_live n1 0 c buf Hbuf). eexists _, _. split; [reflexivity|].
  split; [apply flush_live; reflexivity|].
  rewrite !hasBit_0_r. now split.
Qed.

Lemma flush_twice_witness :
  exists c1 c2,
    flush 2 0 sampleBuffered = Some c1
    /\ flush 2 0 c1 = Some c2
    /\ trace c2 = trace c1 ++ [EvFlushTo]
    /\ fDrawBuffer c2 = fDrawBuffer c1.
Proof. apply (flush_twice 2 2 sampleBuffered sampleBuffer); [lia|lia|reflexivity]. Defined.

(** ** clear *)

Lemma drawsOf_app l1 l2 : drawsOf (l1 ++ l2) = drawsOf l1 ++ drawsOf l2.
Proof. unfold drawsOf. apply flat_map_app. Qed.

Lemma drawsOf_replayEvents cmds : drawsOf (replayEvents cmds) = map cmdOf cmds.
Proof.
  induction cmds as [|[d|mask d] cmds IH]; [reflexivity| |];
    cbn [replayEvents flat_map map cmdOf]; fold (replayEvents cmds);
    rewrite drawsOf_app, IH; reflexivity.
Qed.

Section OpsProofs.

Variable X : Externals.

Lemma applyOptPaint_frame paint c :
  fPathRendererChain (applyOptPaint X paint c) = fPathRendererChain c
  /\ fSoftwarePathRenderer (applyOptPaint X paint c) = fSoftwarePathRenderer c
  /\ ds_renderTarget (fDrawState (applyOptPaint X paint c)) = ds_renderTarget (fDrawState c)
  /\ ds_viewMatrix (fDrawState (applyOptPaint X paint c)) = ds_viewMatrix (fDrawState c).
Proof.
  destruct paint as [p|]; cbn; repeat split; apply applyPaint_keeps.
Qed.

(** With fuel for one flush [prepareToDraw] returns as soon as the draw
    buffer it has to hand out exists. *)
Lemma prepareToDraw_total n paint b c :
  (b = kYes_BufferedDraw -> is_Some (fDrawBuffer c)) ->
  exists c1, prepareToDraw X (S (S n)) paint b c = Some (targetFor b, c1)
             /\ fPathRendererChain c1 = fPathRendererChain c
             /\ fSoftwarePathRenderer c1 = fSoftwarePathRenderer c
             /\ ds_renderTarget (fDrawState c1) = ds_renderTarget (fDrawState c)
             /\ ds_viewMatrix (fDrawState c1) = ds_viewMatrix (fDrawState c)
             /\ (b = kYes_BufferedDraw -> is_Some (fDrawBuffer c1)).
Proof.
  intros Hbuf. destruct b; cbn [targetFor].
  - destruct (fLastDrawWasBuffered c) eqn:Hlast.
    + rewrite prepareToDraw_unbuffered_after_unbuffered by exact Hlast.
      eexists. split; [reflexivity|].
      destruct (applyOptPaint_frame paint c) as (? & ? & ? & ?). now repeat split.
    + destruct (fDrawBuffer c) as [buf|] eqn:Hb.
      * rewrite (prepareToDraw_unbuffered_after_buffered X n paint c buf Hb Hlast).
        eexists. split; [reflexivity|].
        destruct (applyOptPaint_frame paint
                    (set_fLastDrawWasBuffered kNo_BufferedDraw (flushed buf c)))
          as (-> & -> & -> & ->). now repeat split.
      * rewrite (prepareToDraw_unbuffered_null X (S n) paint c Hb Hlast).
        eexists. split; [reflexivity|].
        destruct (applyOptPaint_frame paint (set_fLastDrawWasBuffered kNo_BufferedDraw c))
          as (-> & -> & -> & ->). now repeat split.
  - destruct (Hbuf eq_refl) as [buf Hb].
    rewrite (prepareToDraw_buffered X (S (S n)) paint c buf Hb).
    eexists. split; [reflexivity|].
    destruct (applyOptPaint_frame paint c) as (? & ? & ? & ?).
    cbn [fPathRendererChain fSoftwarePathRenderer fDrawState fDrawBuffer
         set_fLastDrawWasBuffered set_fDrawBuffer].
    repeat split; try assumption. intros _. eauto.
Qed.

Lemma bufferReady_default c :
  bufferReady X c -> DEFAULT_BUFFERING X = kYes_BufferedDraw -> is_Some (fDrawBuffer c).
Proof.
  unfold bufferReady, DEFAULT_BUFFERING.
  destruct (GR_DISABLE_DRAW_BUFFERING X); [discriminate|auto].
Qed.

(** X12 (clear).  A clear takes its place in the order of the draws:
    with a live draw buffer whose commands were recorded by buffered
    draws, after [clear] and a [flush] the device has executed the
    commands recorded before, in their order, and then the clear,
    whether drawing is buffered or not.  The clear itself does not
    touch the draw state. *)
Theorem clear_in_order fuel rect color target c buf :
  (2 <= fuel)%nat ->
  fDrawBuffer c = Some buf ->
  fLastDrawWasBuffered c = kYes_BufferedDraw ->
  exists c1 c2,
    clear X fuel rect color target c = Some c1
    /\ fDrawState c1 = fDrawState c
    /\ flush fuel 0 c1 = Some c2
    /\ drawsOf (trace c2)
       = drawsOf (trace c) ++ map cmdOf (buf_cmds buf) ++ [CmdClear rect color target]
    /\ (GR_DISABLE_DRAW_BUFFERING X = false -> trace c1 = trace c).
Proof.
  intros Hfuel Hbuf Hlast. destruct fuel as [|[|n]]; [lia|lia|].
  unfold clear, DEFAULT_BUFFERING.
  destruct (GR_DISABLE_DRAW_BUFFERING X).
  - rewrite (prepareToDraw_unbuffered_after_buffered X n None c buf Hbuf Hlast).
    cbn [mbind option_bind applyOptPaint draw]. eexists _, _. split; [reflexivity|].
    split; [reflexivity|].
    split; [apply flush_live; reflexivity|].
    split; [|discriminate].
    rewrite !hasBit_0_r. cbn [emitAll trace set_fDrawBuffer buf_reset buf_cmds app emit
                               set_fLastDrawWasBuffered flushed replayEvents flat_map].
    rewrite !drawsOf_app. cbn [drawsOf flat_map app].
    fold (drawsOf (replayEvents (buf_cmds buf))). rewrite drawsOf_replayEvents.
    now rewrite !app_nil_r, <- app_assoc.
  - rewrite (prepareToDraw_buffered X (S (S n)) None c buf Hbuf).
    cbn [mbind option_bind applyOptPaint draw].
    cbn [fmap option_fmap option_map set_fDrawBuffer fDrawBuffer
         set_fLastDrawWasBuffered].
    eexists _, _. split; [reflexivity|]. split; [reflexivity|].
    split; [apply flush_live; reflexivity|].
    split; [|reflexivity].
    rewrite !hasBit_0_r. cbn [emitAll trace set_fDrawBuffer app].
    rewrite drawsOf_app. f_equal. cbn [drawsOf flat_map app].
    fold (drawsOf (replayEvents (buf_cmds (record X (CmdClear rect color target)
                                             (buf_setClip (gpu_clip (fGpu c)) buf))))).
    rewrite app_nil_r, drawsOf_replayEvents. unfold record. cbn [buf_cmds buf_setClip buf_clip].
    rewrite map_app. f_equal. cbn [map]. now destruct (swClipMaskFor X _ _).
Qed.

(** ** Exits of the draw functions *)

Lemma stagesDisabled_disableStages ds : stagesDisabled (disableStages ds) = true.
Proof.
  unfold stagesDisabled, disableStages. cbn [ds_samplers].
  induction (ds_samplers ds) as [|s l IH]; [reflexivity|exact IH].
Qed.

Lemma stagesDisabled_exit c : stagesDisabled (fDrawState (autoStageDisable_exit c)) = true.
Proof. apply stagesDisabled_disableStages. Qed.

(** Where [internalDrawPath] returns, it returns through the scope
    exit. *)
Lemma internalDrawPath_exit fuel paint path fill translate c c' :
  internalDrawPath X fuel paint path fill translate c = Some c' ->
  exists c2, c' = autoStageDisable_exit c2.
Proof.
  unfold internalDrawPath.
  destruct (prepareToDraw X fuel (Some paint) (DEFAULT_BUFFERING X) c) as [[t c1]|];
    [|discriminate].
  cbn [mbind option_bind].
  destruct (if fAntiAlias paint
            then rt ← getRenderTarget c1; Some (negb (rt_isMultisampled rt))
            else Some false) as [aa|]; [|discriminate].
  cbn [mbind option_bind].
  destruct (getPathRenderer X path fill t _ true c1) as [[pr|] c2];
    intros [= <-]; eauto.
Qed.

Lemma drawOval_exit fuel paint rect strokeWidth c c' :
  drawOval X fuel paint rect strokeWidth c = Some c' ->
  exists c2, c' = autoStageDisable_exit c2.
Proof.
  unfold drawOval. destruct (ovalRoute X paint rect c); [|apply internalDrawPath_exit].
  destruct (prepareToDraw X fuel (Some paint) (DEFAULT_BUFFERING X) c) as [[t c1]|];
    [|discriminate].
  cbn [mbind option_bind].
  destruct (ds_renderTarget (fDrawState c1)) as [rt|]; [|intros [= <-]; eauto].
  destruct (negb (deviceCoordDraw_ok X t (fDrawState c1))); [intros [= <-]; eauto|].
  destruct (negb (reserveGeometry_ok X t)); intros [= <-]; eauto.
Qed.

(** With what it dereferences in place, [internalDrawPath] returns. *)
Lemma internalDrawPath_total n paint path fill translate c :
  drawReady X paint c ->
  exists c', internalDrawPath X (S (S n)) paint path fill translate c = Some c'.
Proof.
  intros [Hbuf Hrt]. unfold internalDrawPath.
  destruct (prepareToDraw_total n (Some paint) (DEFAULT_BUFFERING X) c
              (bufferReady_default c Hbuf))
    as (c1 & -> & _ & _ & Hrt1 & _).
  cbn [mbind option_bind]. unfold getRenderTarget. rewrite Hrt1.
  assert (Haa : exists aa,
             (if fAntiAlias paint
              then rt ← ds_renderTarget (fDrawState c);
                   Some (negb (rt_isMultisampled rt))
              else Some false) = Some aa).
  { unfold targetReady in Hrt. destruct (fAntiAlias paint); [|eauto].
    destruct (Hrt eq_refl) as [rt ->]. cbn. eauto. }
  destruct Haa as [aa ->]. cbn [mbind option_bind].
  destruct (getPathRenderer X path fill _ _ true c1) as [[pr|] c2]; eauto.
Qed.

(** X13 (drawOval, internalDrawPath).  On every exit of the two
    functions, the early returns of the circle path included, all
    stages of the draw state are disabled, which is what the next
    [setPaint] asserts on entry.  With fuel for one flush both
    functions do return when what they dereferenced is in place: the
    draw buffer if draws are buffered, and, on the way through
    [internalDrawPath], the render target if the paint is antialiased.
    An antialiased path draw without render target has no result. *)
Theorem draw_exits_disable_stages fuel paint rect strokeWidth path fill translate c :
  (forall c', drawOval X fuel paint rect strokeWidth c = Some c' ->
              stagesDisabled (fDrawState c') = true)
  /\ (forall c', internalDrawPath X fuel paint path fill translate c = Some c' ->
                 stagesDisabled (fDrawState c') = true)
  /\ ((2 <= fuel)%nat -> bufferReady X c ->
      (ovalRoute X paint rect c = GenericPath -> targetReady paint c) ->
      exists c', drawOval X fuel paint rect strokeWidth c = Some c')
  /\ ((2 <= fuel)%nat -> drawReady X paint c ->
      exists c', internalDrawPath X fuel paint path fill translate c = Some c')
  /\ ((2 <= fuel)%nat -> bufferReady X c ->
      fAntiAlias paint = true -> ds_renderTarget (fDrawState c) = None ->
      internalDrawPath X fuel paint path fill translate c = None).
Proof.
  split; [|split; [|split; [|split]]].
  - intros c' [c2 ->]%drawOval_exit. apply stagesDisabled_exit.
  - intros c' [c2 ->]%internalDrawPath_exit. apply stagesDisabled_exit.
  - intros Hfuel Hbuf Hrt. destruct fuel as [|[|n]]; [lia|lia|].
    unfold drawOval. destruct (ovalRoute X paint rect c) eqn:Hroute.
    + destruct (prepareToDraw_total n (Some paint) (DEFAULT_BUFFERING X) c
                  (bufferReady_default c Hbuf)) as (c1 & -> & _).
      cbn [mbind option_bind].
      destruct (ds_renderTarget (fDrawState c1)) as [rt|]; [|eauto].
      destruct (negb (deviceCoordDraw_ok X _ (fDrawState c1))); [eauto|].
      destruct (negb (reserveGeometry_ok X _)); eauto.
    + apply internalDrawPath_total. split; [exact Hbuf|now apply Hrt].
  - intros Hfuel Hready. destruct fuel as [|[|n]]; [lia|lia|].
    now apply internalDrawPath_total.
  - intros Hfuel Hbuf Haa Hrt. destruct fuel as [|[|n]]; [lia|lia|].
    unfold internalDrawPath.
    destruct (prepareToDraw_total n (Some paint) (DEFAULT_BUFFERING X) c
                (bufferReady_default c Hbuf))
      as (c1 & -> & _ & _ & Hrt1 & _).
    cbn [mbind option_bind]. unfold getRenderTarget. now rewrite Haa, Hrt1, Hrt.
Qed.

(** ** Path renderers *)

(** X14 (getPathRenderer).  The chain and the software renderer are
    built on first use and kept: asking again with the same arguments
    gives the same renderer and changes nothing, and the call never
    touches the trace, the draw buffer or the draw state. *)
Theorem getPathRenderer_stable path fill target antiAlias allowSW c :
  getPathRenderer X path fill target antiAlias allowSW
    (getPathRenderer X path fill target antiAlias allowSW c).2
  = getPathRenderer X path fill target antiAlias allowSW c
  /\ fPathRendererChain (getPathRenderer X path fill target antiAlias allowSW c).2
     = Some (chainInUse X c)
  /\ trace (getPathRenderer X path fill target antiAlias allowSW c).2 = trace c
  /\ fDrawBuffer (getPathRenderer X path fill target antiAlias allowSW c).2 = fDrawBuffer c
  /\ fDrawState (getPathRenderer X path fill target antiAlias allowSW c).2 = fDrawState c.
Proof.
  destruct c as [g ds tc db lb ch sw tr].
  unfold getPathRenderer, chainInUse.
  cbn [fPathRendererChain set_fPathRendererChain fSoftwarePathRenderer
       set_fSoftwarePathRenderer snd].
  destruct ch as [chain|];
    cbn [fPathRendererChain set_fPathRendererChain fSoftwarePathRenderer];
    (match goal with
     | |- context [chain_getPathRenderer ?ch path fill target antiAlias] =>
         destruct (chain_getPathRenderer ch path fill target antiAlias) as [id|] eqn:Eid
     end);
    cbn [fmap option_fmap option_map];
    rewrite ?(bool_decide_eq_false_2 (Some (ChainRenderer id) = None)) by discriminate;
    rewrite ?(bool_decide_eq_true_2 (@None GrPathRenderer = None)) by reflexivity;
    destruct allowSW; cbn [andb]; try destruct sw as [r|];
    cbn [fPathRendererChain set_fPathRendererChain fSoftwarePathRenderer
         set_fSoftwarePathRenderer snd fst trace fDrawBuffer fDrawState];
    rewrite ?Eid; cbn [fmap option_fmap option_map];
    rewrite ?(bool_decide_eq_false_2 (Some (ChainRenderer id) = None)) by discriminate;
    rewrite ?(bool_decide_eq_true_2 (@None GrPathRenderer = None)) by reflexivity;
    cbn [andb fPathRendererChain set_fPathRendererChain fSoftwarePathRenderer
         set_fSoftwarePathRenderer snd fst trace fDrawBuffer fDrawState];
    repeat split; reflexivity.
Qed.






Variable drawPaint : GrPaint -> GrContext -> option GrContext.
Variable rect_offset : SkRect -> SkPoint -> SkRect.

(** X16 (drawPath).  An empty path draws nothing unless the fill is
    inverted; a path with an inverted fill never takes the oval route;
    an oval with any other fill goes to [drawOval], and when that does
    not take its circle path the oval comes back to [internalDrawPath]
    with the translation folded into the rectangle and with the fill
    reduced to hairline or winding. *)
Theorem drawPath_routes fuel paint path fill translate c :
  (GrIsFillInverted fill = false ->
   drawPath X drawPaint rect_offset fuel paint EmptyPath fill translate c = Some c)
  /\ (GrIsFillInverted fill = true -> isEmpty path = false ->
      drawPath X drawPaint rect_offset fuel paint path fill translate c
      = internalDrawPath X fuel paint path fill translate c)
  /\ (forall r, GrIsFillInverted fill = false ->
      let r' := match translate with Some t => rect_offset r t | None => r end in
      drawPath X drawPaint rect_offset fuel paint (OvalPath r) fill translate c
      = drawOval X fuel paint r' (if isHairLine fill then 0%Q else (- 1)%Q) c
      /\ (ovalRoute X paint r' c = GenericPath ->
          drawPath X drawPaint rect_offset fuel paint (OvalPath r) fill translate c
          = internalDrawPath X fuel paint (addOval r')
              (if isHairLine fill then kHairLine_GrPathFill else kWinding_GrPathFill)
              None c)).
Proof.
  split; [|split].
  - intros Hinv. unfold drawPath. cbn [isEmpty]. now rewrite Hinv.
  - intros Hinv Hne. unfold drawPath. rewrite Hne, Hinv. reflexivity.
  - intros r Hinv r'. unfold drawPath. cbn [isEmpty isOval]. rewrite Hinv. cbn [negb].
    fold r'. split; [reflexivity|]. intros Hroute. unfold drawOval. rewrite Hroute.
    now destruct (isHairLine fill).
Qed.

End OpsProofs.

Lemma clear_in_order_witness :
  exists c1 c2,
    clear sampleExternals 2 None 0 None sampleBuffered = Some c1
    /\ fDrawState c1 = fDrawState sampleBuffered
    /\ flush 2 0 c1 = Some c2
    /\ drawsOf (trace c2)
       = drawsOf (trace sampleBuffered) ++ map cmdOf (buf_cmds sampleBuffer)
         ++ [CmdClear None 0 None]
    /\ (GR_DISABLE_DRAW_BUFFERING sampleExternals = false -> trace c1 = trace sampleBuffered).
Proof.
  apply (clear_in_order sampleExternals 2 None 0 None sampleBuffered sampleBuffer);
    [lia|reflexivity|reflexivity].
Defined.

Lemma drawReady_sampleWithTarget paint : drawReady sampleExternals paint sampleWithTarget.
Proof. split; intros _; cbn; eauto. Qed.

Lemma draw_exits_disable_stages_witness :
  (exists c', drawOval sampleExternals 2 (samplePaint true) sampleCircle 0%Q sampleWithTarget
              = Some c'
              /\ stagesDisabled (fDrawState c') = true)
  /\ (exists c', internalDrawPath sampleExternals 2 sampleTexturedPaint samplePath
                   kWinding_GrPathFill None sampleWithTarget = Some c'
                 /\ stagesDisabled (fDrawState c') = true)
  /\ internalDrawPath sampleExternals 2 sampleTexturedPaint samplePath
       kWinding_GrPathFill None sampleContext = None.
Proof.
  destruct (draw_exits_disable_stages sampleExternals 2 (samplePaint true) sampleCircle 0%Q
              samplePath kWinding_GrPathFill None sampleWithTarget)
    as (Hoval & _ & Hovalret & _ & _).
  destruct (draw_exits_disable_stages sampleExternals 2 sampleTexturedPaint sampleCircle 0%Q
              samplePath kWinding_GrPathFill None sampleWithTarget)
    as (_ & Hpath & _ & Hpathret & _).
  destruct (draw_exits_disable_stages sampleExternals 2 sampleTexturedPaint sampleCircle 0%Q
              samplePath kWinding_GrPathFill None sampleContext)
    as (_ & _ & _ & _ & Hcrash).
  split; [|split].
  - destruct Hovalret as [c' Hc']; [lia|intros _; cbn; eauto|discriminate|].
    exists c'. split; [exact Hc'|now apply Hoval].
  - destruct Hpathret as [c' Hc']; [lia|apply drawReady_sampleWithTarget|].
    exists c'. split; [exact Hc'|now apply Hpath].
  - apply Hcrash; [lia|intros _; cbn; eauto|reflexivity|reflexivity].
Defined.




(** ** Pixel reads that are refused or converted *)

Lemma flush0_total n c :
  exists c1, flush (S (S n)) 0 c = Some c1.
Proof.
  destruct (fDrawBuffer c) as [buf|] eqn:E.
  - rewrite (flush_live n 0 c buf E). now eexists.
  - rewrite flush_null by exact E. now eexists.
Qed.

Section ReadEdgeProofs.

Variable X : Externals.

(** X17 (readRenderTargetPixels).  When unpremultiplied pixels are
    asked for, the device cannot preserve them and both configurations
    have a Config8888, the pixels are read in the target's own
    configuration by a nested call and converted on the CPU; the result
    of the nested read is not looked at, so the function reports
    success whatever the device answered, and the conversion is the
    last thing it does. *)
Theorem readRenderTargetPixels_cpu_conversion fuel target left top width height
        config rowBytes flags c srcConfig8888 dstConfig8888 :
  (11 <= fuel)%nat ->
  hasBit kUnpremul_PixelOpsFlag flags = true ->
  canPreserveReadWriteUnpremulPixels X = false ->
  grconfig_to_config8888 (rt_config target) false = Some srcConfig8888 ->
  grconfig_to_config8888 config true = Some dstConfig8888 ->
  exists c',
    readRenderTargetPixels X fuel (Some target) left top width height config rowBytes flags c
    = Some (true, c')
    /\ exists evs,
        trace c' = evs ++ [EvConvertConfig8888 width height dstConfig8888 srcConfig8888].
Proof.
  intros Hfuel Hun Hcan Hsrc Hdst.
  destruct fuel as [|[|[|n]]]; [lia|lia|lia|].
  rewrite readRenderTargetPixels_unfold.
  assert (Hflush : exists c1,
             (if negb (hasBit kDontFlush_PixelOpsFlag flags)
              then flush (S (S n)) 0 c else Some c) = Some c1).
  { destruct (negb _); [apply flush0_total|now eexists]. }
  destruct Hflush as (c1 & ->). cbn [mbind option_bind].
  unfold readPixelsAfterFlush. rewrite Hun, Hcan, Hsrc, Hdst. cbn [andb negb].
  destruct (readRenderTargetPixels_nested X (S (S n)) target left top width height
              (rt_config target) rowBytes c1 ltac:(lia)) as (res & c2 & -> & _).
  cbn [mbind option_bind]. eexists. split; [reflexivity|].
  cbn [trace emit]. now eexists.
Qed.

(** X18 (readRenderTargetPixels, readTexturePixels).  Reads that cannot
    be served are refused without a device read.  A texture that is not
    a render target is refused at once, before any flush.  A read of
    unpremultiplied pixels is refused after the flush when the device
    cannot preserve them and one of the configurations has no
    Config8888, or when the device can but the target is not a
    texture: the flush is the only thing that has happened. *)
Theorem pixel_reads_refused fuel texture target left top width height config rowBytes flags c :
  (3 <= fuel)%nat ->
  hasBit kUnpremul_PixelOpsFlag flags = true ->
  (canPreserveReadWriteUnpremulPixels X = false
   /\ (grconfig_to_config8888 (rt_config target) false = None
       \/ grconfig_to_config8888 config true = None))
  \/ (canPreserveReadWriteUnpremulPixels X = true /\ rt_asTexture target = None) ->
  (asRenderTarget texture = None ->
   forall fuel', readTexturePixels X fuel' texture left top width height config rowBytes flags c
                 = Some (false, c))
  /\ exists c1,
      (if hasBit kDontFlush_PixelOpsFlag flags then Some c else flush (pred fuel) 0 c) = Some c1
      /\ readRenderTargetPixels X fuel (Some target) left top width height config
           rowBytes flags c = Some (false, c1).
Proof.
  intros Hfuel Hun Hcase.
  split. { intros Hrt fuel'. unfold readTexturePixels. now rewrite Hrt. }
  destruct fuel as [|[|[|n]]]; [lia|lia|lia|]. cbn [pred].
  rewrite readRenderTargetPixels_unfold.
  assert (Hflush : exists c1,
             (if hasBit kDontFlush_PixelOpsFlag flags
              then Some c else flush (S (S n)) 0 c) = Some c1).
  { destruct (hasBit kDontFlush_PixelOpsFlag flags); [now eexists|apply flush0_total]. }
  destruct Hflush as (c1 & Hc1). exists c1. split; [exact Hc1|].
  destruct (hasBit kDontFlush_PixelOpsFlag flags); cbn [negb]; rewrite Hc1;
    cbn [mbind option_bind]; unfold readPixelsAfterFlush; rewrite Hun;
    (destruct Hcase as [[Hcan Hcfg]|[Hcan Hsrc]]; rewrite Hcan; cbn [andb negb];
     [destruct Hcfg as [Hn|Hn]; rewrite Hn;
      [reflexivity|now destruct (grconfig_to_config8888 (rt_config target) false)]
     |now rewrite Hsrc]).
Qed.

End ReadEdgeProofs.

Lemma readRenderTargetPixels_cpu_conversion_witness :
  exists c',
    readRenderTargetPixels sampleFailingExternals 11 (Some sampleRenderTarget) 0 0 640 480
      kBGRA_8888_GrPixelConfig 2560 kUnpremul_PixelOpsFlag sampleBuffered
    = Some (true, c')
    /\ exists evs,
        trace c'
        = evs ++ [EvConvertConfig8888 640 480 kBGRA_Unpremul_Config8888
                    kRGBA_Premul_Config8888].
Proof.
  apply (readRenderTargetPixels_cpu_conversion sampleFailingExternals 11 sampleRenderTarget);
    [lia|reflexivity..].
Defined.

Lemma pixel_reads_refused_witness :
  (asRenderTarget sampleMask = None ->
   forall fuel', readTexturePixels sampleExternals fuel' sampleMask 0 0 64 64
                   kAlpha_8_GrPixelConfig 64 kUnpremul_PixelOpsFlag sampleBuffered
                 = Some (false, sampleBuffered))
  /\ exists c1,
      (if hasBit kDontFlush_PixelOpsFlag kUnpremul_PixelOpsFlag
       then Some sampleBuffered else flush (pred 3) 0 sampleBuffered) = Some c1
      /\ readRenderTargetPixels sampleExternals 3 (Some sampleRenderTarget) 0 0 64 64
           kAlpha_8_GrPixelConfig 64 kUnpremul_PixelOpsFlag sampleBuffered = Some (false, c1).
Proof.
  apply (pixel_reads_refused sampleExternals 3 sampleMask sampleRenderTarget);
    [lia|reflexivity|right; split; reflexivity].
Defined.

(** ** Losing and freeing the device resources *)

Section LifecycleProofs.

Variable abandonResources purgeResources markContextDirty : GrGpu -> GrGpu.
Variable removeAll : ResourceCache.t -> ResourceCache.t.
Variable newDrawBuffer : GrInOrderDrawBuffer.

(** X19 (contextDestroyed, contextLost, setupDrawBuffer).  Losing the
    context replays nothing: the commands recorded in the draw buffer
    are dropped with it and the trace is as it was.  After
    [contextDestroyed] there is no draw buffer and a flush does
    nothing; after [contextLost] a new buffer is installed, and a flush
    replays that buffer only.  Both path renderers are dropped, while
    the draw state and the record of whether the last draw was buffered
    are kept. *)
Theorem contextLost_drops_pending fuel c :
  (2 <= fuel)%nat ->
  let d := contextDestroyed abandonResources markContextDirty removeAll c in
  let l := contextLost abandonResources markContextDirty removeAll newDrawBuffer c in
  trace d = trace c /\ fDrawBuffer d = None /\ flush fuel 0 d = Some d
  /\ trace l = trace c /\ fDrawBuffer l = Some newDrawBuffer
  /\ (exists c2, flush fuel 0 l = Some c2
                 /\ trace c2 = trace c ++ EvFlushTo :: replayEvents (buf_cmds newDrawBuffer))
  /\ fPathRendererChain l = None /\ fSoftwarePathRenderer l = None
  /\ fDrawState l = fDrawState c
  /\ fLastDrawWasBuffered l = fLastDrawWasBuffered c.
Proof.
  intros Hfuel d l. destruct fuel as [|[|n]]; [lia|lia|].
  split; [reflexivity|]. split; [reflexivity|].
  split; [apply flush_null; reflexivity|].
  split; [reflexivity|]. split; [reflexivity|].
  split; [|now repeat split].
  eexists. split; [apply flush_live; reflexivity|].
  rewrite !hasBit_0_r. cbn [emitAll trace app]. now rewrite app_nil_r.
Qed.

(** X20 (freeGpuResources).  Freeing the resources flushes first: with
    a live draw buffer the recorded commands are replayed before the
    device and the cache are purged, the emptied buffer stays
    installed, and both path renderers are dropped. *)
Theorem freeGpuResources_flushes_first fuel c buf :
  (2 <= fuel)%nat ->
  fDrawBuffer c = Some buf ->
  exists c',
    freeGpuResources purgeResources removeAll fuel c = Some c'
    /\ trace c' = trace c ++ EvFlushTo :: replayEvents (buf_cmds buf)
    /\ fDrawBuffer c' = Some (buf_reset buf)
    /\ fGpu c' = purgeResources (fGpu c)
    /\ fTextureCache c' = removeAll (fTextureCache c)
    /\ fPathRendererChain c' = None /\ fSoftwarePathRenderer c' = None.
Proof.
  intros Hfuel Hbuf. destruct fuel as [|[|n]]; [lia|lia|].
  unfold freeGpuResources. rewrite (flush_live n 0 c buf Hbuf).
  cbn [mbind option_bind]. eexists. split; [reflexivity|].
  rewrite !hasBit_0_r. cbn. rewrite app_nil_r. now repeat split.
Qed.

End LifecycleProofs.

Lemma contextLost_drops_pending_witness :
  let d := contextDestroyed (fun g => g) (fun g => g)
             (fun t => ResourceCache.mkCache [] [] (ResourceCache.maxCount t)
                         (ResourceCache.maxBytes t)) sampleBuffered in
  let l := contextLost (fun g => g) (fun g => g)
             (fun t => ResourceCache.mkCache [] [] (ResourceCache.maxCount t)
                         (ResourceCache.maxBytes t)) (mkBuffer [] 0) sampleBuffered in
  trace d = trace sampleBuffered /\ fDrawBuffer d = None /\ flush 2 0 d = Some d
  /\ trace l = trace sampleBuffered /\ fDrawBuffer l = Some (mkBuffer [] 0)
  /\ (exists c2, flush 2 0 l = Some c2
                 /\ trace c2 = trace sampleBuffered
                               ++ EvFlushTo :: replayEvents (buf_cmds (mkBuffer [] 0)))
  /\ fPathRendererChain l = None /\ fSoftwarePathRenderer l = None
  /\ fDrawState l = fDrawState sampleBuffered
  /\ fLastDrawWasBuffered l = fLastDrawWasBuffered sampleBuffered.
Proof.
  apply (contextLost_drops_pending (fun g => g) (fun g => g)
           (fun t => ResourceCache.mkCache [] [] (ResourceCache.maxCount t)
                       (ResourceCache.maxBytes t)) (mkBuffer [] 0) 2 sampleBuffered).
  lia.
Defined.

Lemma freeGpuResources_flushes_first_witness :
  exists c',
    freeGpuResources (fun g => g)
      (fun t => ResourceCache.mkCache [] [] (ResourceCache.maxCount t)
                  (ResourceCache.maxBytes t)) 2 sampleBuffered = Some c'
    /\ trace c' = trace sampleBuffered ++ EvFlushTo :: replayEvents (buf_cmds sampleBuffer)
    /\ fDrawBuffer c' = Some (buf_reset sampleBuffer)
    /\ fGpu c' = (fun g => g) (fGpu sampleBuffered)
    /\ fTextureCache c'
       = (fun t => ResourceCache.mkCache [] [] (ResourceCache.maxCount t)
                     (ResourceCache.maxBytes t)) (fTextureCache sampleBuffered)
    /\ fPathRendererChain c' = None /\ fSoftwarePathRenderer c' = None.
Proof.
  apply (freeGpuResources_flushes_first (fun g => g)
           (fun t => ResourceCache.mkCache [] [] (ResourceCache.maxCount t)
                       (ResourceCache.maxBytes t)) 2 sampleBuffered sampleBuffer);
    [lia|reflexivity].
Defined.

(** ** The resource cache under checkout and release *)

Lemma filter_is_cons id x l :
  filter (fun e => ResourceCache.isEntryOf id e) (x :: l)
  = if ResourceCache.isEntryOf id x
    then x :: filter (fun e => ResourceCache.isEntryOf id e) l
    else filter (fun e => ResourceCache.isEntryOf id e) l.
Proof.
  rewrite filter_cons. destruct (decide _) as [H|H];
    destruct (ResourceCache.isEntryOf id x); cbn in *; try reflexivity; contradiction.
Qed.

Lemma filter_not_cons id x l :
  filter (fun e => negb (ResourceCache.isEntryOf id e)) (x :: l)
  = if ResourceCache.isEntryOf id x
    then filter (fun e => negb (ResourceCache.isEntryOf id e)) l
    else x :: filter (fun e => negb (ResourceCache.isEntryOf id e)) l.
Proof.
  rewrite filter_cons. destruct (decide _) as [H|H];
    destruct (ResourceCache.isEntryOf id x); cbn in *; try reflexivity; contradiction.
Qed.

Lemma isEntryOf_true id e : ResourceCache.isEntryOf id e = true <-> ResourceCache.entry_id e = id.
Proof. unfold ResourceCache.isEntryOf. apply Nat.eqb_eq. Qed.

Lemma isEntryOf_false id e : ResourceCache.isEntryOf id e = false <-> ResourceCache.entry_id e <> id.
Proof. unfold ResourceCache.isEntryOf. apply Nat.eqb_neq. Qed.

Lemma filter_absent id l :
  id ∉ ResourceCache.ids l ->
  filter (fun e => ResourceCache.isEntryOf id e) l = []
  /\ filter (fun e => negb (ResourceCache.isEntryOf id e)) l = l.
Proof.
  induction l as [|x l IH]; intros Hid; [now split|].
  unfold ResourceCache.ids in *. cbn [map] in Hid.
  apply not_elem_of_cons in Hid as [Hx Hl]. destruct (IH Hl) as [IH1 IH2].
  rewrite filter_is_cons, filter_not_cons.
  destruct (ResourceCache.isEntryOf id x) eqn:E.
  - apply isEntryOf_true in E. congruence.
  - now rewrite IH1, IH2.
Qed.

Lemma filter_unique id A1 e A2 :
  ResourceCache.entry_id e = id ->
  id ∉ ResourceCache.ids A1 -> id ∉ ResourceCache.ids A2 ->
  filter (fun e => ResourceCache.isEntryOf id e) (A1 ++ e :: A2) = [e]
  /\ filter (fun e => negb (ResourceCache.isEntryOf id e)) (A1 ++ e :: A2) = A1 ++ A2.
Proof.
  intros He H1 H2.
  destruct (filter_absent id A1 H1) as [F1 G1], (filter_absent id A2 H2) as [F2 G2].
  rewrite !list.filter_app, filter_is_cons, filter_not_cons, F1, F2, G1, G2.
  apply isEntryOf_true in He. now rewrite He.
Qed.

Lemma filter_partition id l :
  filter (fun e => ResourceCache.isEntryOf id e) l
  ++ filter (fun e => negb (ResourceCache.isEntryOf id e)) l ≡ₚ l.
Proof.
  induction l as [|x l IH]; [reflexivity|].
  rewrite filter_is_cons, filter_not_cons. destruct (ResourceCache.isEntryOf id x).
  - cbn. now rewrite IH.
  - rewrite <- Permutation_middle. now rewrite IH.
Qed.

Lemma unlockEntry_lockEntry e : ResourceCache.unlockEntry (ResourceCache.lockEntry e) = e.
Proof. now destruct e. Qed.

Lemma ids_map_unlock l : ResourceCache.ids (map ResourceCache.unlockEntry l) = ResourceCache.ids l.
Proof. unfold ResourceCache.ids. rewrite map_map. reflexivity. Qed.

(** A hit of [lockFirst]: the first entry with the key, locked in
    place. *)
Lemma lockFirst_split k es r es' :
  ResourceCache.lockFirst k es = Some (r, es') ->
  exists A1 e A2,
    es = A1 ++ e :: A2
    /\ Forall (fun e' => ResourceCache.entry_key e' <> k) A1
    /\ ResourceCache.entry_key e = k
    /\ r = ResourceCache.entry_resource e
    /\ es' = A1 ++ ResourceCache.lockEntry e :: A2.
Proof.
  revert r es'. induction es as [|a es IH]; intros r es'; cbn; [easy|].
  destruct (decide (ResourceCache.entry_key a = k)) as [Hk|Hk].
  - intros [= <- <-]. exists [], a, es. now repeat split.
  - destruct (ResourceCache.lockFirst k es) as [[r0 rest]|]; [|easy].
    intros [= <- <-]. destruct (IH r0 rest eq_refl) as (A1 & e & A2 & -> & HA1 & He & Hr & ->).
    exists (a :: A1), e, A2. repeat split; try assumption. now constructor.
Qed.

Lemma lockFirst_None k es :
  ResourceCache.lockFirst k es = None
  <-> Forall (fun e => ResourceCache.entry_key e <> k) es.
Proof.
  induction es as [|a es IH]; cbn; [split; [constructor|reflexivity]|].
  destruct (decide (ResourceCache.entry_key a = k)) as [Hk|Hk].
  - split; [discriminate|]. intros H. inversion H; subst. contradiction.
  - destruct (ResourceCache.lockFirst k es) as [[r0 rest]|].
    + split; [discriminate|]. intros H. inversion H; subst.
      apply IH in H3. discriminate.
    + split; [|reflexivity]. intros _. constructor; [exact Hk|now apply IH].
Qed.

(** Eviction never drops a locked entry at the young end and returns a
    sublist. *)
Lemma evict_sublist l count bytes maxC maxB :
  ResourceCache.evict l count bytes maxC maxB `sublist_of` l.
Proof.
  revert count bytes. induction l as [|a l IH]; intros count bytes; cbn; [constructor|].
  destruct ((count <=? maxC)%nat && (bytes <=? maxB)); [reflexivity|].
  destruct (ResourceCache.entry_lockCount a =? 0)%nat.
  - apply sublist_cons, IH.
  - apply sublist_skip, IH.
Qed.

Lemma evict_snoc l e count bytes maxC maxB :
  ResourceCache.entry_lockCount e <> 0%nat ->
  exists l', ResourceCache.evict (l ++ [e]) count bytes maxC maxB = l' ++ [e]
             /\ l' `sublist_of` l.
Proof.
  intros Hlock. revert count bytes.
  induction l as [|a l IH]; intros count bytes; cbn.
  - exists []. split; [|constructor].
    destruct ((count <=? maxC)%nat && (bytes <=? maxB)); [reflexivity|].
    now destruct (Nat.eqb_spec (ResourceCache.entry_lockCount e) 0).
  - destruct ((count <=? maxC)%nat && (bytes <=? maxB)).
    + exists (a :: l). now split.
    + destruct (ResourceCache.entry_lockCount a =? 0)%nat.
      * destruct (IH (Nat.pred count) (bytes - sizeInBytes (ResourceCache.entry_resource a)))
          as (l' & -> & Hsub).
        exists l'. split; [reflexivity|now apply sublist_cons].
      * destruct (IH count bytes) as (l' & -> & Hsub).
        exists (a :: l'). split; [reflexivity|now apply sublist_skip].
Qed.

Lemma sublist_rev {A} (l1 l2 : list A) : l1 `sublist_of` l2 -> rev l1 `sublist_of` rev l2.
Proof.
  induction 1 as [|x l1 l2 _ IH|x l1 l2 _ IH]; cbn.
  - constructor.
  - apply sublist_app; [exact IH|reflexivity].
  - now apply sublist_inserts_r.
Qed.

(** [createAndLock] puts the new entry at the head and keeps the rest
    in order, minus what was evicted. *)
Lemma createAndLock_shape k r cache :
  exists A',
    ResourceCache.createAndLock k r cache
    = ResourceCache.mkCache (ResourceCache.mkEntry k r 1 :: A')
        (ResourceCache.detached cache) (ResourceCache.maxCount cache)
        (ResourceCache.maxBytes cache)
    /\ A' `sublist_of` ResourceCache.attached cache.
Proof.
  unfold ResourceCache.createAndLock, ResourceCache.purgeAsNeeded.
  cbn [ResourceCache.attached ResourceCache.detached ResourceCache.maxCount
       ResourceCache.maxBytes].
  set (e := ResourceCache.mkEntry k r 1).
  change (rev (e :: ResourceCache.attached cache))
    with (rev (ResourceCache.attached cache) ++ [e]).
  match goal with
  | |- context [ResourceCache.evict _ ?cnt ?b ?mc ?mb] =>
      destruct (evict_snoc (rev (ResourceCache.attached cache)) e cnt b mc mb)
        as (l' & -> & Hsub); [cbn; lia|]
  end.
  exists (rev l'). rewrite rev_app_distr. cbn [rev app]. split; [reflexivity|].
  apply sublist_rev in Hsub. now rewrite rev_involutive in Hsub.
Qed.

Lemma findAndLock_strong k c r c1 :
  findAndLock k c = (r, c1) ->
  fGpu c1 = fGpu c
  /\ ResourceCache.detached (fTextureCache c1) = ResourceCache.detached (fTextureCache c)
  /\ ResourceCache.maxCount (fTextureCache c1) = ResourceCache.maxCount (fTextureCache c)
  /\ ResourceCache.maxBytes (fTextureCache c1) = ResourceCache.maxBytes (fTextureCache c)
  /\ trace c1 = trace c ++ [EvFindAndLock k (tex_id <$> r)]
  /\ match r with
     | None => fTextureCache c1 = fTextureCache c
               /\ Forall (fun e => ResourceCache.entry_key e <> k)
                    (ResourceCache.attached (fTextureCache c))
     | Some t =>
         exists A1 e A2,
           ResourceCache.attached (fTextureCache c) = A1 ++ e :: A2
           /\ Forall (fun e' => ResourceCache.entry_key e' <> k) A1
           /\ ResourceCache.entry_key e = k
           /\ t = ResourceCache.entry_resource e
           /\ ResourceCache.attached (fTextureCache c1)
              = A1 ++ ResourceCache.lockEntry e :: A2
     end.
Proof.
  unfold findAndLock, ResourceCache.findAndLock.
  destruct (ResourceCache.lockFirst k _) as [[r0 es]|] eqn:E.
  - intros [= <- <-]. cbn. repeat split.
    apply lockFirst_split in E as (A1 & e & A2 & HA & H1 & He & Hr & ->).
    now exists A1, e, A2.
  - intros [= <- <-]. cbn. repeat split. now apply lockFirst_None.
Qed.

Lemma tryProbes_strong ds c r c1 :
  tryProbes ds c = (r, c1) ->
  fGpu c1 = fGpu c
  /\ ResourceCache.detached (fTextureCache c1) = ResourceCache.detached (fTextureCache c)
  /\ ResourceCache.maxCount (fTextureCache c1) = ResourceCache.maxCount (fTextureCache c)
  /\ ResourceCache.maxBytes (fTextureCache c1) = ResourceCache.maxBytes (fTextureCache c)
  /\ match r with
     | None => fTextureCache c1 = fTextureCache c
               /\ trace c1 = trace c ++ map probeMiss ds
     | Some t =>
         exists ds1 d ds2 A1 e A2,
           ds = ds1 ++ d :: ds2
           /\ Forall (missedBy (ResourceCache.attached (fTextureCache c))) ds1
           /\ ResourceCache.attached (fTextureCache c) = A1 ++ e :: A2
           /\ ResourceCache.entry_key e = scratchKey d
           /\ t = ResourceCache.entry_resource e
           /\ ResourceCache.attached (fTextureCache c1)
              = A1 ++ ResourceCache.lockEntry e :: A2
           /\ trace c1 = trace c ++ map probeMiss ds1
                         ++ [EvFindAndLock (scratchKey d) (Some (tex_id t))]
     end.
Proof.
  revert c. induction ds as [|d ds IH]; intros c; cbn [tryProbes].
  - intros [= <- <-]. cbn. rewrite app_nil_r. now repeat split.
  - destruct (findAndLock (scratchKey d) c) as [[t0|] c0] eqn:E;
      apply findAndLock_strong in E as (Hg & Hd & Hmc & Hmb & Htr & Hr).
    + intros [= <- <-]. repeat split; try assumption.
      destruct Hr as (A1 & e & A2 & HA & _ & He & Ht & HA').
      exists [], d, ds, A1, e, A2. repeat split; try assumption. constructor.
    + destruct Hr as [Hc Hmiss]. intros H. apply IH in H as (Hg' & Hd' & Hmc' & Hmb' & Hr').
      rewrite Hc in *. repeat split; try congruence.
      destruct r as [t|].
      * destruct Hr' as (ds1 & d' & ds2 & A1 & e & A2 & -> & Hm & HA & He & Ht & HA' & Htr').
        exists (d :: ds1), d', ds2, A1, e, A2. repeat split; try assumption.
        -- constructor; assumption.
        -- rewrite Htr', Htr. cbn [map fmap option_fmap option_map]. unfold probeMiss.
           now rewrite <- !app_assoc.
      * destruct Hr' as [Hc' Htr']. split; [exact Hc'|].
        rewrite Htr', Htr. cbn [map fmap option_fmap option_map]. unfold probeMiss.
        now rewrite <- app_assoc.
Qed.

Lemma probes_head inDesc m : exists rest, probes inDesc m = binned inDesc m :: rest.
Proof.
  destruct m; cbn [probes binned]; [now exists []|].
  unfold probeSequence, flagSteps. cbn [app]. now eexists.
Qed.

Lemma ids_app l1 l2 : ResourceCache.ids (l1 ++ l2) = ResourceCache.ids l1 ++ ResourceCache.ids l2.
Proof. unfold ResourceCache.ids. apply map_app. Qed.

Lemma sublist_ids l1 l2 :
  l1 `sublist_of` l2 -> ResourceCache.ids l1 `sublist_of` ResourceCache.ids l2.
Proof. unfold ResourceCache.ids. induction 1; cbn; now constructor. Qed.

Lemma scratchKey_inj d1 d2 : scratchKey d1 = scratchKey d2 -> d1 = d2.
Proof. now intros [= ->]. Qed.

Lemma NoDup_ids_split A1 e A2 D :
  NoDup (ResourceCache.ids ((A1 ++ e :: A2) ++ D)) ->
  (ResourceCache.entry_id e ∉ ResourceCache.ids A1)
  /\ (ResourceCache.entry_id e ∉ ResourceCache.ids A2)
  /\ (ResourceCache.entry_id e ∉ ResourceCache.ids D)
  /\ NoDup (ResourceCache.ids ((A1 ++ A2) ++ D)).
Proof.
  rewrite !ids_app. unfold ResourceCache.ids at 2. cbn [map].
  fold (ResourceCache.ids A2).
  rewrite <- app_assoc. cbn [app].
  intros H. apply list.NoDup_app in H as (H1 & H12 & H2).
  apply list.NoDup_cons in H2 as (He & H2).
  rewrite not_elem_of_app in He. destruct He as [HeA2 HeD].
  split. { intros Hin. apply (H12 _ Hin). now left. }
  split; [exact HeA2|]. split; [exact HeD|].
  rewrite <- app_assoc. apply list.NoDup_app. split; [exact H1|]. split; [|exact H2].
  intros x Hx Hin. apply (H12 x Hx). now right.
Qed.

Section CacheProofs.

Variable X : Externals.

(** One checkout in full: which probe answered, and what the cache
    looks like afterwards. *)
Lemma lockScratchTexture_shape fuel inDesc m c t c1 :
  (9 <= fuel)%nat ->
  cacheInv c ->
  lockScratchTexture X fuel inDesc m c = Some (Some t, c1) ->
  exists ds1 d ds2 e A',
    probes inDesc m = ds1 ++ d :: ds2
    /\ Forall (missedBy (ResourceCache.attached (fTextureCache c))) ds1
    /\ Forall (fun d' => ResourceCache.entry_key e <> scratchKey d') ds1
    /\ ResourceCache.entry_resource e = t
    /\ ResourceCache.entry_key e = scratchKey d
    /\ tex_desc t = d
    /\ ResourceCache.entry_lockCount e <> 0%nat
    /\ fTextureCache c1
       = ResourceCache.mkCache A' (e :: ResourceCache.detached (fTextureCache c))
           (ResourceCache.maxCount (fTextureCache c)) (ResourceCache.maxBytes (fTextureCache c))
    /\ A' `sublist_of` ResourceCache.attached (fTextureCache c)
    /\ (tex_id t ∉ ResourceCache.ids A')
    /\ (tex_id t ∉ ResourceCache.ids (ResourceCache.detached (fTextureCache c)))
    /\ (gpu_nextHandle (fGpu c) <= gpu_nextHandle (fGpu c1))%nat
    /\ (tex_id t < gpu_nextHandle (fGpu c1))%nat.
Proof.
  intros Hfuel (Hnd & Hissued & Hkeyed). rewrite lockScratchTexture_eq by exact Hfuel.
  destruct (tryProbes (probes inDesc m) c) as [r c0] eqn:E.
  apply tryProbes_strong in E as (Hg & Hd & Hmc & Hmb & Hr).
  unfold allEntries in *.
  destruct r as [t0|]; cbn [createOnMiss].
  - cbn [detachResult]. intros [= <- <-].
    destruct Hr as (ds1 & d & ds2 & A1 & e & A2 & Hds & Hmiss & HA & He & Ht & HA' & _).
    rewrite HA in Hnd, Hissued, Hkeyed.
    destruct (NoDup_ids_split _ _ _ _ Hnd) as (H1 & H2 & H3 & _).
    assert (Hid : tex_id t0 = ResourceCache.entry_id e) by now subst t0.
    exists ds1, d, ds2, (ResourceCache.lockEntry e), (A1 ++ A2).
    split; [exact Hds|]. split; [exact Hmiss|].
    split.
    { eapply List.Forall_impl; [|exact Hmiss]. intros d' Hd'. unfold missedBy in Hd'.
      rewrite HA, List.Forall_forall in Hd'. apply (Hd' e).
      apply in_or_app. right. now left. }
    split; [now subst t0|].
    split; [exact He|].
    split.
    { rewrite List.Forall_forall in Hkeyed. subst t0.
      specialize (Hkeyed e). rewrite He in Hkeyed.
      apply scratchKey_inj. symmetry. apply Hkeyed; [|reflexivity].
      apply in_or_app. left. apply in_or_app. right. now left. }
    split; [cbn; lia|].
    split.
    { cbn [fTextureCache set_fTextureCache]. unfold ResourceCache.detach.
      rewrite HA', Hd, Hmc, Hmb, Hid.
      destruct (filter_unique (ResourceCache.entry_id e) A1 (ResourceCache.lockEntry e) A2
                  eq_refl H1 H2) as [-> ->].
      reflexivity. }
    split. { rewrite HA. apply sublist_app; [reflexivity|]. now apply sublist_cons. }
    split. { rewrite Hid, ids_app. rewrite not_elem_of_app. now split. }
    split; [now rewrite Hid|].
    cbn [fGpu set_fTextureCache]. rewrite Hg. split; [lia|].
    rewrite List.Forall_forall in Hissued. rewrite Hid. apply Hissued.
    apply in_or_app. left. apply in_or_app. right. now left.
  - destruct Hr as [Hc _]. unfold createTexture.
    destruct (createTexture_ok X (gpu_nextHandle (fGpu c0)) (binned inDesc m)); [|easy].
    cbn [detachResult]. intros [= <- <-].
    cbn [fGpu set_fTextureCache set_fGpu emit tex_id tex_desc fTextureCache gpu_nextHandle].
    rewrite Hc, Hg.
    set (n := gpu_nextHandle (fGpu c)).
    set (new := mkTexture n (binned inDesc m)).
    destruct (createAndLock_shape (scratchKey (binned inDesc m)) new (fTextureCache c))
      as (A' & -> & Hsub).
    destruct (probes_head inDesc m) as (rest & Hp).
    assert (Hfresh : forall l, l `sublist_of` ResourceCache.attached (fTextureCache c)
                               ++ ResourceCache.detached (fTextureCache c) ->
                               n ∉ ResourceCache.ids l).
    { intros l Hl Hin. unfold ResourceCache.ids in Hin.
      apply list_elem_of_fmap in Hin as (e & Hn & He).
      eapply elem_of_sublist in He; [|exact Hl].
      rewrite List.Forall_forall in Hissued. apply list_elem_of_In, Hissued in He.
      fold n in He. lia. }
    assert (HA' : n ∉ ResourceCache.ids A') by (apply Hfresh; now apply sublist_inserts_r).
    exists [], (binned inDesc m), rest,
      (ResourceCache.mkEntry (scratchKey (binned inDesc m)) new 1), A'.
    split; [exact Hp|]. split; [constructor|]. split; [constructor|].
    split; [reflexivity|].
    split; [reflexivity|]. split; [reflexivity|]. split; [cbn; lia|].
    split.
    { unfold ResourceCache.detach.
      cbn [ResourceCache.attached ResourceCache.detached ResourceCache.maxCount
           ResourceCache.maxBytes].
      destruct (filter_unique n [] (ResourceCache.mkEntry (scratchKey (binned inDesc m)) new 1)
                  A' eq_refl ltac:(cbn; apply not_elem_of_nil) HA') as [F G].
      cbn [app] in F, G. rewrite F, G. reflexivity. }
    split; [exact Hsub|]. split; [exact HA'|].
    split; [apply Hfresh; now apply sublist_inserts_l|].
    split; lia.
Qed.

(** Releasing the texture just checked out puts its entry back at the
    head of the lookup structure with one lock less. *)
Lemma unlockTexture_checked_out t c A' e D mc mb :
  fTextureCache c = ResourceCache.mkCache A' (e :: D) mc mb ->
  ResourceCache.entry_resource e = t ->
  key_scratch (ResourceCache.entry_key e) = true ->
  (tex_id t ∉ ResourceCache.ids D) ->
  exists u,
    unlockTexture t c = Some u
    /\ fTextureCache u
       = ResourceCache.mkCache (ResourceCache.unlockEntry e :: A') D mc mb
    /\ fGpu u = fGpu c
    /\ trace u = trace c.
Proof.
  intros Hc He Hk HD. unfold unlockTexture, getCacheEntry. rewrite Hc.
  cbn [ResourceCache.detached ResourceCache.attached app List.find].
  assert (Hid : ResourceCache.isEntryOf (tex_id t) e = true)
    by (apply isEntryOf_true; now subst t).
  rewrite Hid. cbn [mbind option_bind]. unfold IsScratchTexture. rewrite Hk.
  eexists. split; [reflexivity|].
  cbn [fTextureCache set_fTextureCache fGpu trace]. split; [|now split].
  unfold ResourceCache.reattachAndUnlock.
  cbn [ResourceCache.detached ResourceCache.attached ResourceCache.maxCount
       ResourceCache.maxBytes].
  rewrite filter_is_cons, filter_not_cons, Hid.
  destruct (filter_absent (tex_id t) D HD) as [-> ->]. reflexivity.
Qed.

Lemma missedBy_sublist A A' d : A' `sublist_of` A -> missedBy A d -> missedBy A' d.
Proof.
  unfold missedBy. rewrite !List.Forall_forall. intros Hsub H e He.
  apply H. apply list_elem_of_In. eapply elem_of_sublist; [|exact Hsub].
  now apply list_elem_of_In.
Qed.

(** X21 (lockScratchTexture, unlockTexture).  A scratch texture that is
    released comes back: [unlockTexture] finds its entry, after it
    nothing is left checked out, and the same request is answered with
    the same texture from the cache, without asking the device for a
    new one. *)
Theorem scratch_texture_reuse fuel fuel' inDesc m c t c1 :
  (9 <= fuel)%nat -> (9 <= fuel')%nat ->
  cacheInv c ->
  lockScratchTexture X fuel inDesc m c = Some (Some t, c1) ->
  exists u,
    unlockTexture t c1 = Some u
    /\ ResourceCache.detached (fTextureCache u)
       = ResourceCache.detached (fTextureCache c)
    /\ exists c2,
        lockScratchTexture X fuel' inDesc m u = Some (Some t, c2)
        /\ createdDescs (trace c2) = createdDescs (trace c1)
        /\ fGpu c2 = fGpu c1.
Proof.
  intros Hfuel Hfuel' Hinv Hlock.
  destruct (lockScratchTexture_shape fuel inDesc m c t c1 Hfuel Hinv Hlock)
    as (ds1 & d & ds2 & e & A' & Hp & Hmiss & Hne & Hres & Hkey & Hdesc & Hlc & Hc1 & Hsub
        & HA' & HD & _).
  destruct (unlockTexture_checked_out t c1 _ _ _ _ _ Hc1 Hres) as (u & Hu & Hc & Hg & Htr);
    [now rewrite Hkey|exact HD|].
  exists u. split; [exact Hu|].
  split; [now rewrite Hc|].
  rewrite lockScratchTexture_eq by exact Hfuel'. rewrite Hp, tryProbes_app.
  rewrite tryProbes_missesAll.
  2:{ unfold missesAll. rewrite Hc. cbn [ResourceCache.attached].
      rewrite List.Forall_forall in Hmiss, Hne. apply List.Forall_forall. intros d' Hd'.
      apply lockFirst_None. constructor.
      - exact (Hne d' Hd').
      - apply (missedBy_sublist _ _ _ Hsub (Hmiss d' Hd')). }
  rewrite tryProbes_cons. unfold findAndLock, ResourceCache.findAndLock.
  cbn [fTextureCache emitAll]. rewrite Hc. cbn [ResourceCache.attached ResourceCache.lockFirst].
  destruct (decide (ResourceCache.entry_key (ResourceCache.unlockEntry e) = scratchKey d))
    as [_|Hn]; [|now elim Hn].
  cbn [createOnMiss detachResult ResourceCache.unlockEntry ResourceCache.entry_resource].
  rewrite Hres. eexists. split; [reflexivity|].
  cbn [trace emit set_fTextureCache emitAll fGpu]. split; [|exact Hg].
  rewrite !createdDescs_app, createdDescs_probeMiss, Htr. cbn. now rewrite !app_nil_r.
Qed.

Lemma lockScratchTexture_none fuel inDesc m c c1 :
  (9 <= fuel)%nat ->
  lockScratchTexture X fuel inDesc m c = Some (None, c1) ->
  fTextureCache c1 = fTextureCache c /\ fGpu c1 = fGpu c.
Proof.
  intros Hfuel. rewrite lockScratchTexture_eq by exact Hfuel.
  destruct (tryProbes (probes inDesc m) c) as [r c0] eqn:E.
  apply tryProbes_strong in E as (Hg & _ & _ & _ & Hr).
  destruct r as [t0|]; cbn [createOnMiss]; [discriminate|].
  destruct Hr as [Hc _]. unfold createTexture.
  destruct (createTexture_ok X _ _); [discriminate|].
  cbn [detachResult]. intros [= <-]. cbn. now split.
Qed.

End CacheProofs.

Lemma okList_transfer n es es' :
  ResourceCache.ids es' ≡ₚ ResourceCache.ids es ->
  (forall x, x ∈ es' -> exists y, y ∈ es
                                  /\ ResourceCache.entry_id x = ResourceCache.entry_id y
                                  /\ ResourceCache.entry_key x = ResourceCache.entry_key y
                                  /\ ResourceCache.entry_resource x
                                     = ResourceCache.entry_resource y) ->
  NoDup (ResourceCache.ids es)
  /\ Forall (fun e => (ResourceCache.entry_id e < n)%nat) es
  /\ Forall (fun e => key_scratch (ResourceCache.entry_key e) = true ->
                      ResourceCache.entry_key e
                      = scratchKey (tex_desc (ResourceCache.entry_resource e))) es ->
  NoDup (ResourceCache.ids es')
  /\ Forall (fun e => (ResourceCache.entry_id e < n)%nat) es'
  /\ Forall (fun e => key_scratch (ResourceCache.entry_key e) = true ->
                      ResourceCache.entry_key e
                      = scratchKey (tex_desc (ResourceCache.entry_resource e))) es'.
Proof.
  intros Hperm Hmem (Hnd & Hb & Hk).
  split; [now rewrite Hperm|].
  rewrite List.Forall_forall in Hb, Hk.
  split; apply List.Forall_forall; intros x Hx%list_elem_of_In;
    destruct (Hmem x Hx) as (y & Hy%list_elem_of_In & Hid & Hkey & Hres).
  - rewrite Hid. now apply Hb.
  - rewrite Hkey, Hres. now apply Hk.
Qed.

Lemma elem_of_map_unlock x l :
  x ∈ map ResourceCache.unlockEntry l ->
  exists y, y ∈ l /\ ResourceCache.entry_id x = ResourceCache.entry_id y
            /\ ResourceCache.entry_key x = ResourceCache.entry_key y
            /\ ResourceCache.entry_resource x = ResourceCache.entry_resource y.
Proof.
  intros (y & -> & Hy)%list_elem_of_fmap. exists y. now repeat split.
Qed.

Lemma ids_partition id l :
  ResourceCache.ids (filter (fun e => ResourceCache.isEntryOf id e) l)
  ++ ResourceCache.ids (filter (fun e => negb (ResourceCache.isEntryOf id e)) l)
  ≡ₚ ResourceCache.ids l.
Proof.
  rewrite <- ids_app. unfold ResourceCache.ids. apply Permutation_map, filter_partition.
Qed.

Lemma cacheOk_unlockTexture t c u :
  unlockTexture t c = Some u -> cacheInv c -> cacheInv u.
Proof.
  unfold unlockTexture.
  destruct (getCacheEntry t c) as [e|]; [|discriminate].
  cbn [mbind option_bind]. intros Hu Hinv.
  unfold cacheInv, cacheOk, allEntries in *.
  set (A := ResourceCache.attached (fTextureCache c)) in *.
  set (D := ResourceCache.detached (fTextureCache c)) in *.
  destruct (IsScratchTexture (ResourceCache.entry_key e));
    injection Hu as <-;
    cbn [fTextureCache set_fTextureCache fGpu ResourceCache.reattachAndUnlock
         ResourceCache.unlock ResourceCache.attached ResourceCache.detached];
    fold A D; (eapply okList_transfer; [| |exact Hinv]).
  - rewrite <- !app_assoc, !ids_app, ids_map_unlock.
    etransitivity; [apply Permutation_app_swap_app|].
    apply Permutation_app_head, ids_partition.
  - intros x. rewrite !elem_of_app.
    intros [[Hx|Hx]|Hx].
    + apply elem_of_map_unlock in Hx as (y & Hy & H).
      exists y. split; [|exact H]. apply elem_of_app. right.
      now apply list_elem_of_filter in Hy as [_ Hy].
    + exists x. split; [|easy]. apply elem_of_app. now left.
    + exists x. split; [|easy]. apply elem_of_app. right.
      now apply list_elem_of_filter in Hx as [_ Hx].
  - rewrite !ids_app, ids_map_unlock.
    apply Permutation_app_tail, ids_partition.
  - intros x. rewrite !elem_of_app.
    intros [[Hx|Hx]|Hx].
    + apply elem_of_map_unlock in Hx as (y & Hy & H).
      exists y. split; [|exact H]. apply elem_of_app. left.
      now apply list_elem_of_filter in Hy as [_ Hy].
    + exists x. split; [|easy]. apply elem_of_app. left.
      now apply list_elem_of_filter in Hx as [_ Hx].
    + exists x. split; [|easy]. apply elem_of_app. now right.
Qed.

Lemma Forall_sublist_entries (P : ResourceCache.Entry -> Prop) l l' :
  l' `sublist_of` l -> Forall P l -> Forall P l'.
Proof.
  rewrite !List.Forall_forall. intros Hsub H e He%list_elem_of_In.
  apply H, list_elem_of_In. eapply elem_of_sublist; [exact He|exact Hsub].
Qed.

Lemma cacheInv_checkout_aux X fuel inDesc m c r c1 :
  (9 <= fuel)%nat ->
  cacheInv c ->
  lockScratchTexture X fuel inDesc m c = Some (r, c1) ->
  cacheInv c1.
Proof.
  intros Hfuel Hinv Hlock.
  destruct r as [t0|].
  - destruct (lockScratchTexture_shape X fuel inDesc m c t0 c1 Hfuel Hinv Hlock)
      as (ds1 & d & ds2 & e & A' & _ & _ & _ & Hres & Hkey & Hdesc & _ & Hc & Hsub
          & HA' & HD & Hle & Hlt).
    destruct Hinv as (Hnd & Hb & Hk). unfold cacheInv, cacheOk, allEntries in *.
    rewrite Hc. cbn [ResourceCache.attached ResourceCache.detached].
    set (A := ResourceCache.attached (fTextureCache c)) in *.
    set (D := ResourceCache.detached (fTextureCache c)) in *.
    apply Forall_app in Hb as [HbA HbD]. apply Forall_app in Hk as [HkA HkD].
    rewrite ids_app in Hnd. apply list.NoDup_app in Hnd as (HndA & Hdisj & HndD).
    assert (Hid : ResourceCache.entry_id e = tex_id t0) by now subst t0.
    split; [|split].
    + rewrite ids_app. unfold ResourceCache.ids at 2. cbn [map].
      fold (ResourceCache.ids D). rewrite Hid.
      apply list.NoDup_app. split; [|split].
      * eapply sublist_NoDup; [exact HndA|now apply sublist_ids].
      * intros x Hx. apply not_elem_of_cons. split; [intros ->; contradiction|].
        apply Hdisj. eapply elem_of_sublist; [exact Hx|now apply sublist_ids].
      * apply list.NoDup_cons. now split.
    + apply Forall_app. split.
      * eapply List.Forall_impl; [|exact (Forall_sublist_entries _ _ _ Hsub HbA)].
        cbn. intros; lia.
      * constructor; [rewrite Hid; exact Hlt|].
        eapply List.Forall_impl; [|exact HbD]. cbn. intros; lia.
    + apply Forall_app. split; [exact (Forall_sublist_entries _ _ _ Hsub HkA)|].
      constructor; [|exact HkD]. intros _. now rewrite Hkey, Hres, Hdesc.
  - destruct (lockScratchTexture_none X fuel inDesc m c c1 Hfuel Hlock) as [Hc Hg].
    unfold cacheInv. now rewrite Hc, Hg.
Qed.

(** X22 (lockScratchTexture, unlockTexture).  The cache invariant, no
    texture in two entries, every cached handle issued by the device,
    scratch entries keyed by the descriptor of their texture, holds
    again after a scratch checkout, whatever its outcome, and after
    the release of a texture that has an entry in the cache, as the
    texture just checked out has.  A texture without entry cannot be
    released: [unlockTexture] dereferences the entry and has no
    result. *)
Theorem cacheInv_preserved X fuel inDesc m c r c1 t :
  (9 <= fuel)%nat ->
  cacheInv c ->
  lockScratchTexture X fuel inDesc m c = Some (r, c1) ->
  cacheInv c1
  /\ (forall u, unlockTexture t c = Some u -> cacheInv u)
  /\ (forall u, unlockTexture t c1 = Some u -> cacheInv u)
  /\ (forall t', r = Some t' -> exists u, unlockTexture t' c1 = Some u /\ cacheInv u)
  /\ (is_Some (unlockTexture t c) <-> is_Some (getCacheEntry t c)).
Proof.
  intros Hfuel Hinv Hlock.
  assert (Hc1 : cacheInv c1)
    by exact (cacheInv_checkout_aux X fuel inDesc m c r c1 Hfuel Hinv Hlock).
  split; [exact Hc1|].
  split; [intros u Hu; exact (cacheOk_unlockTexture t c u Hu Hinv)|].
  split; [intros u Hu; exact (cacheOk_unlockTexture t c1 u Hu Hc1)|].
  split.
  - intros t' ->.
    destruct (lockScratchTexture_detaches X fuel inDesc m c t' c1 Hfuel Hlock)
      as (e & He & Hr).
    destruct (unlockTexture_defined t' c1 e) as [cache Hu].
    + apply elem_of_app. now left.
    + unfold ResourceCache.entry_id. now rewrite Hr.
    + eexists. split; [exact Hu|]. exact (cacheOk_unlockTexture t' c1 _ Hu Hc1).
  - unfold unlockTexture. destruct (getCacheEntry t c) as [e|]; cbn [mbind option_bind].
    + destruct (IsScratchTexture _); split; eauto.
    + split; intros [? [=]].
Qed.

Lemma flagSteps_facts d0 d :
  d ∈ flagSteps d0 ->
  fWidth d = fWidth d0 /\ fHeight d = fHeight d0 /\ fConfig d = fConfig d0
  /\ (hasBit (fFlags d0) kRenderTarget_GrTextureFlagBit = true ->
      hasBit (fFlags d) kRenderTarget_GrTextureFlagBit = true).
Proof.
  unfold flagSteps. rewrite !elem_of_app, list_elem_of_singleton.
  intros [->|[H|H]]; [easy| |].
  - destruct (hasBit (fFlags d0) kRenderTarget_GrTextureFlagBit);
      [now apply elem_of_nil in H|].
    apply list_elem_of_singleton in H as ->. cbn. repeat split.
    intros _. apply hasRT_addRenderTarget.
  - destruct (hasBit (fFlags d0) kNoStencil_GrTextureFlagBit);
      [|now apply elem_of_nil in H].
    apply list_elem_of_singleton in H as ->. cbn. repeat split.
    intros _. rewrite hasRT_drop_NS. apply hasRT_addRenderTarget.
Qed.

Lemma GrNextPow2_ge n : n <= GrNextPow2 n.
Proof.
  unfold GrNextPow2. destruct (Z_le_gt_dec n 0) as [Hn|Hn].
  - rewrite Z.log2_up_nonpos by exact Hn. cbn. lia.
  - apply Z.log2_log2_up_spec. lia.
Qed.

Lemma GrMax_ge a b : a <= GrMax a b /\ b <= GrMax a b.
Proof. unfold GrMax. destruct (Z.ltb_spec b a); lia. Qed.

(** X23 (lockScratchTexture).  On a cache that keeps its invariant, the
    texture handed out fits the request: it has the requested pixel
    configuration, it is at least as wide and as high as asked, it is a
    render target if one was asked for, and its size is the size the
    search started from, or that size doubled in one of the two
    directions, never in both.  For an exact match it has the
    requested descriptor. *)
Theorem scratch_texture_fits X fuel inDesc m c t c1 :
  (9 <= fuel)%nat ->
  cacheInv c ->
  lockScratchTexture X fuel inDesc m c = Some (Some t, c1) ->
  tex_desc t ∈ probes inDesc m
  /\ fConfig (tex_desc t) = fConfig inDesc
  /\ fWidth inDesc <= fWidth (tex_desc t)
  /\ fHeight inDesc <= fHeight (tex_desc t)
  /\ (hasBit (fFlags inDesc) kRenderTarget_GrTextureFlagBit = true ->
      hasBit (fFlags (tex_desc t)) kRenderTarget_GrTextureFlagBit = true)
  /\ ((fWidth (tex_desc t) = fWidth (binned inDesc m)
       /\ fHeight (tex_desc t) = fHeight (binned inDesc m))
      \/ (fWidth (tex_desc t) = fWidth (binned inDesc m) * 2
          /\ fHeight (tex_desc t) = fHeight (binned inDesc m))
      \/ (fWidth (tex_desc t) = fWidth (binned inDesc m)
          /\ fHeight (tex_desc t) = fHeight (binned inDesc m) * 2))
  /\ (m = kExact_ScratchTexMatch -> tex_desc t = inDesc).
Proof.
  intros Hfuel Hinv Hlock.
  destruct (lockScratchTexture_shape X fuel inDesc m c t c1 Hfuel Hinv Hlock)
    as (ds1 & d & ds2 & e & A' & Hp & _ & _ & _ & _ & Hdesc & _).
  assert (Hin : tex_desc t ∈ probes inDesc m).
  { rewrite Hp, Hdesc. apply elem_of_app. right. now left. }
  split; [exact Hin|]. clear Hp Hdesc Hlock.
  destruct m; cbn [probes binned] in *.
  - apply list_elem_of_singleton in Hin. rewrite Hin. repeat split; try lia; auto.
  - set (d0 := mkDesc (fFlags inDesc) (GrMax MIN_SIZE (GrNextPow2 (fWidth inDesc)))
                 (GrMax MIN_SIZE (GrNextPow2 (fHeight inDesc))) (fConfig inDesc)) in *.
    pose proof (GrNextPow2_ge (fWidth inDesc)) as Hw.
    pose proof (GrNextPow2_ge (fHeight inDesc)) as Hh.
    destruct (GrMax_ge MIN_SIZE (GrNextPow2 (fWidth inDesc))) as [Hw1 Hw2].
    destruct (GrMax_ge MIN_SIZE (GrNextPow2 (fHeight inDesc))) as [Hh1 Hh2].
    unfold MIN_SIZE in *.
    unfold probeSequence in Hin. rewrite !elem_of_app in Hin.
    destruct Hin as [Hin|[Hin|Hin]]; apply flagSteps_facts in Hin as (HW & HH & HC & HF);
      cbn [fWidth fHeight fConfig fFlags d0 desc_setWidth desc_setHeight] in *;
      rewrite HW, HH, HC; repeat split; try lia; try exact HF; try discriminate.
Qed.

Lemma cacheInv_sampleCached : cacheInv sampleCached.
Proof.
  unfold cacheInv, cacheOk, allEntries. cbn.
  split; [|split].
  - apply list.NoDup_cons. split; [apply not_elem_of_nil|constructor].
  - repeat constructor.
  - repeat constructor.
Qed.

Lemma sampleCheckedOut_eq :
  lockScratchTexture sampleExternals 9 sampleDesc kApprox_ScratchTexMatch sampleCached
  = Some (Some sampleScratch, sampleCheckedOut).
Proof. vm_compute. reflexivity. Qed.

Lemma scratch_texture_reuse_witness :
  exists u,
    unlockTexture sampleScratch sampleCheckedOut = Some u
    /\ ResourceCache.detached (fTextureCache u)
       = ResourceCache.detached (fTextureCache sampleCached)
    /\ exists c2,
        lockScratchTexture sampleExternals 9 sampleDesc kApprox_ScratchTexMatch u
        = Some (Some sampleScratch, c2)
        /\ createdDescs (trace c2) = createdDescs (trace sampleCheckedOut)
        /\ fGpu c2 = fGpu sampleCheckedOut.
Proof.
  apply (scratch_texture_reuse sampleExternals 9 9 sampleDesc kApprox_ScratchTexMatch
           sampleCached);
    [lia|lia|exact cacheInv_sampleCached|exact sampleCheckedOut_eq].
Defined.

Lemma cacheInv_preserved_witness :
  cacheInv sampleCheckedOut
  /\ (exists u, unlockTexture sampleScratch sampleCheckedOut = Some u /\ cacheInv u)
  /\ unlockTexture sampleMask sampleCached = None.
Proof.
  destruct (cacheInv_preserved sampleExternals 9 sampleDesc kApprox_ScratchTexMatch
              sampleCached (Some sampleScratch) sampleCheckedOut sampleMask)
    as (H1 & _ & _ & H4 & H5);
    [lia|exact cacheInv_sampleCached|exact sampleCheckedOut_eq|].
  split; [exact H1|]. split; [exact (H4 sampleScratch eq_refl)|].
  destruct (unlockTexture sampleMask sampleCached) as [u|] eqn:E; [|reflexivity].
  destruct (proj1 H5 (ex_intro _ u eq_refl)) as [e He]. vm_compute in He. discriminate He.
Defined.

Lemma scratch_texture_fits_witness :
  tex_desc sampleScratch ∈ probes sampleDesc kApprox_ScratchTexMatch
  /\ fConfig (tex_desc sampleScratch) = fConfig sampleDesc
  /\ fWidth sampleDesc <= fWidth (tex_desc sampleScratch)
  /\ fHeight sampleDesc <= fHeight (tex_desc sampleScratch).
Proof.
  destruct (scratch_texture_fits sampleExternals 9 sampleDesc kApprox_ScratchTexMatch
              sampleCached sampleScratch sampleCheckedOut)
    as (H1 & H2 & H3 & H4 & _);
    [lia|exact cacheInv_sampleCached|exact sampleCheckedOut_eq|].
  now repeat split.
Defined.

(** ** Creating textures with content *)

Lemma unlockTexture_frame t c u :
  unlockTexture t c = Some u -> fGpu u = fGpu c /\ trace u = trace c.
Proof. intros [cache ->]%unlockTexture_cases. now split. Qed.

Lemma unlockTexture_cache t c c' u :
  fTextureCache c = fTextureCache c' ->
  unlockTexture t c = Some u ->
  exists u', unlockTexture t c' = Some u' /\ fTextureCache u = fTextureCache u'.
Proof.
  intros H. unfold unlockTexture, getCacheEntry. rewrite H.
  destruct (List.find _ _) as [e|]; [|discriminate]. cbn [mbind option_bind].
  destruct (IsScratchTexture _); intros [= <-]; eexists; (split; [reflexivity|]);
    reflexivity.
Qed.

Lemma GrNextPow2_pos n : 0 < GrNextPow2 n.
Proof. unfold GrNextPow2. apply Z.pow_pos_nonneg; [lia|apply Z.log2_up_nonneg]. Qed.

Lemma GrNextPow2_le_pow2 n k : 0 <= k -> 0 < n <= 2 ^ k -> GrNextPow2 n <= 2 ^ k.
Proof.
  intros Hk Hn. unfold GrNextPow2.
  assert (Z.log2_up n <= k).
  { rewrite <- (Z.log2_up_pow2 k) by exact Hk. apply Z.log2_up_le_mono. lia. }
  apply Z.pow_le_mono_r; lia.
Qed.

Lemma GrBytesPerPixel_le config : GrBytesPerPixel config <= 4.
Proof. destruct config; cbn; lia. Qed.

Section CreationProofs.

Variable X : Externals.
Variable GrTextureParams GrCacheData : Type.
Variable contentKey : option GrTextureParams -> GrTextureDesc -> GrCacheData -> GrResourceKey.
Variable NeedsResizing NeedsFiltering : GrResourceKey -> bool.
Variable gpuStretch : GrTexture -> GrTexture -> bool -> GrContext -> GrContext.

(** X24 (createAndLockTexture, createResizedTexture, stretchImage).
    When a texture of at most 2^14 by 2^14 pixels has to be resized and
    the device has no render target texture for the stretch, the image
    is stretched on the CPU, with no overflow in the buffer size or in
    [stretchImage], and the device is asked for a texture with the
    stretched pixels, but that texture is held by a variable declared
    inside the branch: the function returns NULL,
    [createAndLockTexture] registers nothing, and a texture the device
    did create is left behind.  The clamped texture found in the cache
    is released. *)
Theorem createAndLockTexture_cpu_stretch_lost fuel params desc cacheData srcData rowBytes
        c clamped c1 :
  NeedsResizing (contentKey params desc cacheData) = true ->
  findAndLockTexture contentKey desc cacheData None c = (Some clamped, c1) ->
  createTexture_ok X (gpu_nextHandle (fGpu c)) (resizedTargetDesc desc) = false ->
  0 < fWidth desc <= 2 ^ 14 -> 0 < fHeight desc <= 2 ^ 14 ->
  0 < GrBytesPerPixel (fConfig desc) ->
  fWidth desc * fHeight desc * GrBytesPerPixel (fConfig desc) <= Z.of_nat (length srcData) ->
  (Z.to_nat (GrNextPow2 (fWidth desc)) <= fuel)%nat ->
  (Z.to_nat (GrNextPow2 (fHeight desc)) <= fuel)%nat ->
  exists c' u,
    createAndLockTexture X contentKey NeedsResizing NeedsFiltering gpuStretch
      (S fuel) params desc cacheData srcData rowBytes c = Some (None, c')
    /\ createdDescs (trace c')
       = createdDescs (trace c) ++ [resizedTargetDesc desc; stretchedDesc desc]
    /\ unlockTexture clamped c1 = Some u
    /\ fTextureCache c' = fTextureCache u
    /\ (createTexture_ok X (gpu_nextHandle (fGpu c)) (stretchedDesc desc) = true ->
        gpu_nextHandle (fGpu c') = S (gpu_nextHandle (fGpu c))
        /\ EvCreateTexture (stretchedDesc desc) (Some (gpu_nextHandle (fGpu c))) ∈ trace c').
Proof.
  intros Hneeds Hfound Hfail Hw Hh Hbpp Hsrc HfW HfH.
  cbn [createAndLockTexture]. rewrite Hneeds.
  unfold createResizedTexture_with. rewrite Hfound. cbn [mbind option_bind].
  fold (resizedTargetDesc desc). fold (stretchedDesc desc).
  unfold findAndLockTexture in Hfound.
  destruct (findAndLock_hit_entry _ _ _ _ Hfound) as (e & He & Hres).
  apply findAndLock_strong in Hfound as (Hg & _ & _ & _ & Htr & _).
  unfold createTexture at 1. rewrite Hg, Hfail.
  set (bpp := GrBytesPerPixel (fConfig desc)) in *.
  pose proof (GrBytesPerPixel_le (fConfig desc)) as Hbpp4. fold bpp in Hbpp4.
  pose proof (GrNextPow2_pos (fWidth desc)) as HpW.
  pose proof (GrNextPow2_pos (fHeight desc)) as HpH.
  pose proof (GrNextPow2_le_pow2 (fWidth desc) 14 ltac:(lia) Hw) as HbW.
  pose proof (GrNextPow2_le_pow2 (fHeight desc) 14 ltac:(lia) Hh) as HbH.
  pose proof (GrNextPow2_ge (fWidth desc)) as HgW.
  pose proof (GrNextPow2_ge (fHeight desc)) as HgH.
  cbn [stretchedDesc fWidth fHeight].
  set (W := GrNextPow2 (fWidth desc)) in *. set (H := GrNextPow2 (fHeight desc)) in *.
  assert (HWH : W * H <= 2 ^ 28) by nia.
  assert (Hsize : W * H * bpp <= 2 ^ 30) by nia.
  assert (Hwh : fWidth desc * fHeight desc <= 2 ^ 28) by nia.
  rewrite (int_fits (bpp * W)) by nia. cbn [mbind option_bind].
  rewrite (int_fits (bpp * W * H)) by nia. cbn [mbind option_bind].
  destruct (stretchImage_eq fuel (replicate (Z.to_nat (bpp * W * H)) Byte.x00) W H
              srcData (fWidth desc) (fHeight desc) bpp) as [-> _];
    try assumption; try lia;
    try (apply lastStep_upscale; lia); try (unfold INT_MAX; nia).
  { rewrite length_replicate. nia. }
  cbn [mbind option_bind].
  rewrite (int_fits (W * bpp)) by nia. cbn [mbind option_bind].
  fold W H. change (mkDesc kNone_GrTextureFlags W H (fConfig desc)) with (stretchedDesc desc).
  unfold createTexture.
  cbn [fGpu emit]. rewrite Hg.
  assert (Hunlock : forall c0, fTextureCache c0 = fTextureCache c1 ->
             exists u0 u, unlockTexture clamped c0 = Some u0
                          /\ unlockTexture clamped c1 = Some u
                          /\ fTextureCache u0 = fTextureCache u
                          /\ fGpu u0 = fGpu c0 /\ trace u0 = trace c0).
  { intros c0 Hc0.
    destruct (unlockTexture_defined clamped c0 e) as [cache Hu0].
    - rewrite Hc0. apply elem_of_app. now right.
    - unfold ResourceCache.entry_id. now rewrite Hres.
    - destruct (unlockTexture_cache clamped c0 c1 _ Hc0 Hu0) as (u & Hu & Hcache).
      destruct (unlockTexture_frame clamped c0 _ Hu0) as [Hg0 Ht0].
      eexists _, u. split; [exact Hu0|]. now repeat split. }
  destruct (createTexture_ok X (gpu_nextHandle (fGpu c)) (stretchedDesc desc)) eqn:Eok;
    cbn [mbind option_bind];
    match goal with
    | |- context [unlockTexture clamped ?c0] =>
        destruct (Hunlock c0 eq_refl) as (u0 & u & Hu0 & Hu & Hcache & Hg' & Htr');
        rewrite Hu0
    end;
    cbn [mbind option_bind]; exists u0, u; (split; [reflexivity|]);
    rewrite Htr', Hg', Hcache;
    cbn [trace emit set_fGpu fGpu gpu_nextHandle]; rewrite Htr, !createdDescs_app;
    cbn [createdDescs flat_map app fmap option_fmap option_map];
    rewrite <- !app_assoc; (split; [reflexivity|]); (split; [exact Hu|]);
    (split; [reflexivity|]).
  - intros _. split; [reflexivity|]. rewrite !elem_of_app, !elem_of_cons. auto 10.
  - discriminate.
Qed.

End CreationProofs.

Lemma createAndLockTexture_cpu_stretch_lost_witness :
  exists c' u,
    createAndLockTexture sampleNoTargetExternals sampleContentKey (fun _ => true)
      (fun _ => false) (fun _ _ _ c => c) 3 (Some true) sampleSmallDesc tt sampleImage 2
      sampleWithClamped = Some (None, c')
    /\ createdDescs (trace c')
       = createdDescs (trace sampleWithClamped)
         ++ [resizedTargetDesc sampleSmallDesc; stretchedDesc sampleSmallDesc]
    /\ unlockTexture sampleClamped
         (findAndLockTexture sampleContentKey sampleSmallDesc tt None sampleWithClamped).2
       = Some u
    /\ fTextureCache c' = fTextureCache u
    /\ (createTexture_ok sampleNoTargetExternals (gpu_nextHandle (fGpu sampleWithClamped))
          (stretchedDesc sampleSmallDesc) = true ->
        gpu_nextHandle (fGpu c') = S (gpu_nextHandle (fGpu sampleWithClamped))
        /\ EvCreateTexture (stretchedDesc sampleSmallDesc)
             (Some (gpu_nextHandle (fGpu sampleWithClamped))) ∈ trace c').
Proof.
  apply (createAndLockTexture_cpu_stretch_lost sampleNoTargetExternals bool unit sampleContentKey
           (fun _ => true) (fun _ => false) (fun _ _ _ c => c) 2 (Some true)
           sampleSmallDesc tt sampleImage 2 sampleWithClamped sampleClamped);
    try reflexivity; try (vm_compute; intuition congruence).
Defined.

Section RoundTripProofs.

Variable X : Externals.
Variable GrTextureParams GrCacheData : Type.
Variable contentKey : option GrTextureParams -> GrTextureDesc -> GrCacheData -> GrResourceKey.
Variable NeedsResizing NeedsFiltering : GrResourceKey -> bool.
Variable gpuStretch : GrTexture -> GrTexture -> bool -> GrContext -> GrContext.

(** X25 (createAndLockTexture, findAndLockTexture).  A texture that
    needs no resizing is created by the device with the descriptor
    given and registered under its content key at the head of the
    cache, so that a lookup with the same parameters, descriptor and
    cache data finds this texture and locks it a second time.  When
    the device fails nothing is registered. *)
Theorem createAndLockTexture_round_trip fuel params desc cacheData srcData rowBytes c :
  NeedsResizing (contentKey params desc cacheData) = false ->
  (createTexture_ok X (gpu_nextHandle (fGpu c)) desc = true ->
   exists c1 c2 rest,
     createAndLockTexture X contentKey NeedsResizing NeedsFiltering gpuStretch
       (S fuel) params desc cacheData srcData rowBytes c
     = Some (Some (mkTexture (gpu_nextHandle (fGpu c)) desc), c1)
     /\ findAndLockTexture contentKey desc cacheData params c1
        = (Some (mkTexture (gpu_nextHandle (fGpu c)) desc), c2)
     /\ ResourceCache.attached (fTextureCache c2)
        = ResourceCache.mkEntry (contentKey params desc cacheData)
            (mkTexture (gpu_nextHandle (fGpu c)) desc) 2 :: rest)
  /\ (createTexture_ok X (gpu_nextHandle (fGpu c)) desc = false ->
      exists c1,
        createAndLockTexture X contentKey NeedsResizing NeedsFiltering gpuStretch
          (S fuel) params desc cacheData srcData rowBytes c = Some (None, c1)
        /\ fTextureCache c1 = fTextureCache c /\ fGpu c1 = fGpu c).
Proof.
  intros Hn. cbn [createAndLockTexture]. rewrite Hn. unfold createTexture.
  split; intros Hok; rewrite Hok; cbn [mbind option_bind].
  - set (t := mkTexture (gpu_nextHandle (fGpu c)) desc).
    set (k := contentKey params desc cacheData).
    cbn [fTextureCache emit set_fGpu].
    destruct (createAndLock_shape k t (fTextureCache c)) as (A' & HA & _).
    eexists _, _, _. split; [reflexivity|].
    unfold findAndLockTexture, findAndLock, ResourceCache.findAndLock.
    cbn [fTextureCache set_fTextureCache]. fold k. rewrite HA.
    cbn [ResourceCache.attached ResourceCache.lockFirst ResourceCache.entry_key].
    destruct (decide (k = k)) as [_|Hne]; [|now elim Hne].
    cbn [ResourceCache.entry_resource]. split; reflexivity.
  - eexists. split; [reflexivity|]. now split.
Qed.

End RoundTripProofs.

Lemma createAndLockTexture_round_trip_witness :
  (createTexture_ok sampleExternals (gpu_nextHandle (fGpu sampleContext)) sampleSmallDesc
   = true ->
   exists c1 c2 rest,
     createAndLockTexture sampleExternals sampleContentKey (fun _ => false) (fun _ => false)
       (fun _ _ _ c => c) 1 (Some true) sampleSmallDesc tt sampleImage 2 sampleContext
     = Some (Some (mkTexture (gpu_nextHandle (fGpu sampleContext)) sampleSmallDesc), c1)
     /\ findAndLockTexture sampleContentKey sampleSmallDesc tt (Some true) c1
        = (Some (mkTexture (gpu_nextHandle (fGpu sampleContext)) sampleSmallDesc), c2)
     /\ ResourceCache.attached (fTextureCache c2)
        = ResourceCache.mkEntry (sampleContentKey (Some true) sampleSmallDesc tt)
            (mkTexture (gpu_nextHandle (fGpu sampleContext)) sampleSmallDesc) 2 :: rest)
  /\ (createTexture_ok sampleExternals (gpu_nextHandle (fGpu sampleContext)) sampleSmallDesc
      = false ->
      exists c1,
        createAndLockTexture sampleExternals sampleContentKey (fun _ => false) (fun _ => false)
          (fun _ _ _ c => c) 1 (Some true) sampleSmallDesc tt sampleImage 2 sampleContext
        = Some (None, c1)
        /\ fTextureCache c1 = fTextureCache sampleContext /\ fGpu c1 = fGpu sampleContext).
Proof.
  apply (createAndLockTexture_round_trip sampleExternals bool unit sampleContentKey (fun _ => false)
           (fun _ => false) (fun _ _ _ c => c) 0 (Some true) sampleSmallDesc tt sampleImage 2
           sampleContext).
  reflexivity.
Defined.

(** ** Scratch textures of the pixel reads are given back *)

Lemma balanced_refl c : balanced c c.
Proof. now intros H. Qed.

Lemma balanced_trans c1 c2 c3 : balanced c1 c2 -> balanced c2 c3 -> balanced c1 c3.
Proof.
  intros H12 H23 H1. destruct (H12 H1) as [H2 E2]. destruct (H23 H2) as [H3 E3].
  split; [exact H3|congruence].
Qed.

Lemma balanced_same c c' :
  fTextureCache c' = fTextureCache c -> fGpu c' = fGpu c -> balanced c c'.
Proof. intros Hc Hg H. unfold cacheInv. now rewrite Hc, Hg. Qed.

Lemma balanced_emit c c1 e : balanced c c1 -> balanced c (emit e c1).
Proof. intros H. eapply balanced_trans; [exact H|]. now apply balanced_same. Qed.

Lemma flush0_frame n c :
  exists c1, flush (S (S n)) 0 c = Some c1
             /\ fTextureCache c1 = fTextureCache c /\ fGpu c1 = fGpu c.
Proof.
  destruct (fDrawBuffer c) as [buf|] eqn:E.
  - rewrite (flush_live n 0 c buf E). eexists. now repeat split.
  - rewrite flush_null by exact E. eexists. now repeat split.
Qed.

Section ReleaseProofs.

Variable X : Externals.

Lemma lockScratchTexture_total fuel inDesc m c :
  (9 <= fuel)%nat -> exists r c2, lockScratchTexture X fuel inDesc m c = Some (r, c2).
Proof.
  intros Hfuel. rewrite lockScratchTexture_eq by exact Hfuel.
  destruct (detachResult _) as [r c2]. now exists r, c2.
Qed.

(** A checkout followed by the release of the texture, with only
    device calls in between. *)
Lemma checkout_release_balanced fuel inDesc m c t c2 c3 :
  (9 <= fuel)%nat ->
  lockScratchTexture X fuel inDesc m c = Some (Some t, c2) ->
  fTextureCache c3 = fTextureCache c2 -> fGpu c3 = fGpu c2 ->
  exists u, unlockTexture t c3 = Some u /\ balanced c u.
Proof.
  intros Hfuel Hlock Hc Hg.
  destruct (lockScratchTexture_detaches X fuel inDesc m c t c2 Hfuel Hlock) as (e0 & He0 & Hr0).
  destruct (unlockTexture_defined t c3 e0) as [cache Hu].
  { rewrite Hc. apply elem_of_app. now left. }
  { unfold ResourceCache.entry_id. now rewrite Hr0. }
  eexists. split; [exact Hu|]. intros Hinv.
  destruct (lockScratchTexture_shape X fuel inDesc m c t c2 Hfuel Hinv Hlock)
    as (ds1 & d & ds2 & e & A' & _ & _ & _ & Hres & Hkey & _ & _ & Hc2 & _ & _ & HD & _).
  pose proof (cacheInv_checkout_aux X fuel inDesc m c (Some t) c2 Hfuel Hinv Hlock) as Hinv2.
  split.
  - apply (cacheOk_unlockTexture t c3 _ Hu). unfold cacheInv in *. now rewrite Hc, Hg.
  - rewrite <- Hc in Hc2.
    assert (Hscratch : key_scratch (ResourceCache.entry_key e) = true) by now rewrite Hkey.
    destruct (unlockTexture_checked_out t c3 _ _ _ _ _ Hc2 Hres Hscratch HD)
      as (u' & Hu' & Hcache & _).
    rewrite Hu in Hu'. injection Hu' as <-. now rewrite Hcache.
Qed.

Ltac balanced_leaf :=
  eexists _, _; split; [reflexivity|];
  repeat first [ assumption | apply balanced_refl | apply balanced_emit ].

Lemma readPixelsAfterFlush_balanced self fuel target left top width height config rowBytes
      flags c1 :
  (9 <= fuel)%nat ->
  (forall t l tp w h cfg rb c2,
      exists res c3, self (Some t) l tp w h cfg rb kDontFlush_PixelOpsFlag c2 = Some (res, c3)
                     /\ balanced c2 c3) ->
  exists res c',
    readPixelsAfterFlush X self fuel target left top width height config rowBytes flags c1
    = Some (res, c')
    /\ balanced c1 c'.
Proof.
  intros Hfuel Hself. unfold readPixelsAfterFlush.
  destruct (hasBit kUnpremul_PixelOpsFlag flags && negb (canPreserveReadWriteUnpremulPixels X)).
  - destruct (grconfig_to_config8888 (rt_config target) false) as [srcCfg|]; [|balanced_leaf].
    destruct (grconfig_to_config8888 config true) as [dstCfg|]; [|balanced_leaf].
    destruct (Hself target left top width height (rt_config target) rowBytes c1)
      as (res & c3 & -> & Hb).
    cbn [mbind option_bind]. balanced_leaf.
  - destruct (rt_asTexture target) as [srcTex|].
    + match goal with |- context [if ?b then _ else _] => destruct b end; [|balanced_leaf].
      match goal with |- context [lockScratchTexture X fuel ?d ?m c1] =>
        destruct (lockScratchTexture_total fuel d m c1 Hfuel) as (r & c2 & Hl); rewrite Hl
      end.
      cbn [mbind option_bind]. destruct r as [texture|].
      * match goal with |- context [unlockTexture texture ?c3] =>
          destruct (checkout_release_balanced fuel _ _ c1 texture c2 c3 Hfuel Hl
                      eq_refl eq_refl) as (u & Hu & Hb); rewrite Hu
        end.
        cbn [mbind option_bind]. eexists _, _. split; [reflexivity|exact Hb].
      * eexists _, _. split; [reflexivity|].
        destruct (lockScratchTexture_none X fuel _ _ c1 c2 Hfuel Hl) as [Hc Hg].
        now apply balanced_same.
    + destruct (hasBit kUnpremul_PixelOpsFlag flags); balanced_leaf.
Qed.

Lemma readRenderTargetPixels_nested_balanced fuel t left top width height config rowBytes c :
  (10 <= fuel)%nat ->
  exists res c',
    readRenderTargetPixels X fuel (Some t) left top width height config rowBytes
      kDontFlush_PixelOpsFlag c = Some (res, c')
    /\ balanced c c'.
Proof.
  intros Hfuel. destruct fuel as [|n]; [lia|]. rewrite readRenderTargetPixels_unfold.
  change (hasBit kDontFlush_PixelOpsFlag kDontFlush_PixelOpsFlag) with true.
  cbn [negb mbind option_bind].
  unfold readPixelsAfterFlush.
  change (hasBit kUnpremul_PixelOpsFlag kDontFlush_PixelOpsFlag) with false.
  cbn [andb orb].
  destruct (rt_asTexture t) as [srcTex|]; [|balanced_leaf].
  match goal with |- context [if ?b then _ else _] => destruct b end; [|balanced_leaf].
  match goal with |- context [lockScratchTexture X n ?d ?m c] =>
    destruct (lockScratchTexture_total n d m c ltac:(lia)) as (r & c2 & Hl); rewrite Hl
  end.
  cbn [mbind option_bind]. destruct r as [texture|].
  - match goal with |- context [unlockTexture texture ?c3] =>
      destruct (checkout_release_balanced n _ _ c texture c2 c3 ltac:(lia) Hl
                  eq_refl eq_refl) as (u & Hu & Hb); rewrite Hu
    end.
    cbn [mbind option_bind]. eexists _, _. split; [reflexivity|exact Hb].
  - eexists _, _. split; [reflexivity|].
    destruct (lockScratchTexture_none X n _ _ c c2 ltac:(lia) Hl) as [Hc Hg].
    now apply balanced_same.
Qed.

(** X26 (readRenderTargetPixels).  With fuel for the flush, the nested
    read and the search, a pixel read returns, and on a cache that
    keeps its invariant every path gives the scratch texture of the
    conversion back before returning: the invariant holds afterwards
    and no texture is checked out that was not before. *)
Theorem readRenderTargetPixels_releases_scratch fuel target left top width height config
        rowBytes flags c :
  (11 <= fuel)%nat ->
  cacheInv c ->
  exists res c',
    readRenderTargetPixels X fuel target left top width height config rowBytes flags c
    = Some (res, c')
    /\ cacheInv c'
    /\ ResourceCache.detached (fTextureCache c') = ResourceCache.detached (fTextureCache c).
Proof.
  intros Hfuel Hinv.
  enough (exists res c',
             readRenderTargetPixels X fuel target left top width height config rowBytes flags c
             = Some (res, c') /\ balanced c c') as (res & c' & Heq & Hb).
  { exists res, c'. split; [exact Heq|]. exact (Hb Hinv). }
  destruct fuel as [|[|[|n]]]; [lia|lia|lia|]. rewrite readRenderTargetPixels_unfold.
  destruct (match target with Some t => Some t | None => ds_renderTarget (fDrawState c) end)
    as [tgt|]; [|balanced_leaf].
  assert (Hflush : exists c1,
             (if negb (hasBit kDontFlush_PixelOpsFlag flags)
              then flush (S (S n)) 0 c else Some c) = Some c1 /\ balanced c c1).
  { destruct (negb _).
    - destruct (flush0_frame n c) as (c1 & -> & Hc & Hg). exists c1.
      split; [reflexivity|now apply balanced_same].
    - exists c. split; [reflexivity|apply balanced_refl]. }
  destruct Hflush as (c1 & -> & Hb1). cbn [mbind option_bind].
  destruct (readPixelsAfterFlush_balanced (readRenderTargetPixels X (S (S n))) (S (S n)) tgt
              left top width height config rowBytes flags c1) as (res & c' & -> & Hb2).
  - lia.
  - intros t' l tp w h cfg rb c2. apply readRenderTargetPixels_nested_balanced. lia.
  - exists res, c'. split; [reflexivity|]. eapply balanced_trans; eassumption.
Qed.

End ReleaseProofs.

Lemma readRenderTargetPixels_releases_scratch_witness :
  exists res c',
    readRenderTargetPixels sampleExternals 11 (Some (renderTargetOf sampleScratch)) 0 0 100 100
      kRGBA_8888_GrPixelConfig 400 kUnpremul_PixelOpsFlag sampleCached
    = Some (res, c')
    /\ cacheInv c'
    /\ ResourceCache.detached (fTextureCache c')
       = ResourceCache.detached (fTextureCache sampleCached).
Proof.
  apply (readRenderTargetPixels_releases_scratch sampleExternals 11);
    [lia|exact cacheInv_sampleCached].
Defined.

(** ** Content textures: create, release, find *)

Lemma find_absent id l r :
  (id ∉ ResourceCache.ids l) ->
  List.find (ResourceCache.isEntryOf id) (l ++ r) = List.find (ResourceCache.isEntryOf id) r.
Proof.
  induction l as [|x l IH]; intros Hid; [reflexivity|].
  unfold ResourceCache.ids in Hid. cbn [map] in Hid.
  apply not_elem_of_cons in Hid as [Hx Hl]. cbn [app List.find].
  destruct (ResourceCache.isEntryOf id x) eqn:E; [|now apply IH].
  apply isEntryOf_true in E. congruence.
Qed.

Section ContentProofs.

Variable X : Externals.
Variable GrTextureParams GrCacheData : Type.
Variable contentKey : option GrTextureParams -> GrTextureDesc -> GrCacheData -> GrResourceKey.
Variable NeedsResizing NeedsFiltering : GrResourceKey -> bool.
Variable gpuStretch : GrTexture -> GrTexture -> bool -> GrContext -> GrContext.

(** X27 (createAndLockTexture, unlockTexture, findAndLockTexture).  On
    a cache that keeps its invariant, a content texture that is created
    can be released, stays in the lookup structure with no lock on it,
    and the next lookup with the same parameters, descriptor and cache
    data returns it with exactly one lock; nothing is checked out on
    the way. *)
Theorem content_texture_release_find fuel params desc cacheData srcData rowBytes c :
  NeedsResizing (contentKey params desc cacheData) = false ->
  key_scratch (contentKey params desc cacheData) = false ->
  createTexture_ok X (gpu_nextHandle (fGpu c)) desc = true ->
  cacheInv c ->
  exists c1 u c2 rest,
    createAndLockTexture X contentKey NeedsResizing NeedsFiltering gpuStretch
      (S fuel) params desc cacheData srcData rowBytes c
    = Some (Some (mkTexture (gpu_nextHandle (fGpu c)) desc), c1)
    /\ unlockTexture (mkTexture (gpu_nextHandle (fGpu c)) desc) c1 = Some u
    /\ ResourceCache.attached (fTextureCache u)
       = ResourceCache.mkEntry (contentKey params desc cacheData)
           (mkTexture (gpu_nextHandle (fGpu c)) desc) 0 :: rest
    /\ findAndLockTexture contentKey desc cacheData params u
       = (Some (mkTexture (gpu_nextHandle (fGpu c)) desc), c2)
    /\ ResourceCache.attached (fTextureCache c2)
       = ResourceCache.mkEntry (contentKey params desc cacheData)
           (mkTexture (gpu_nextHandle (fGpu c)) desc) 1 :: rest
    /\ ResourceCache.detached (fTextureCache c2) = ResourceCache.detached (fTextureCache c).
Proof.
  intros Hn Hks Hok (Hnd & Hissued & _).
  cbn [createAndLockTexture]. rewrite Hn. unfold createTexture. rewrite Hok.
  cbn [mbind option_bind].
  set (n := gpu_nextHandle (fGpu c)). set (t := mkTexture n desc).
  set (k := contentKey params desc cacheData) in *.
  cbn [fTextureCache emit set_fGpu].
  destruct (createAndLock_shape k t (fTextureCache c)) as (A' & HA & Hsub).
  assert (Hfresh : forall l, l `sublist_of` allEntries (fTextureCache c) ->
                             n ∉ ResourceCache.ids l).
  { intros l Hl Hin. unfold ResourceCache.ids in Hin.
    apply list_elem_of_fmap in Hin as (e & Hn' & He).
    eapply elem_of_sublist in He; [|exact Hl].
    rewrite List.Forall_forall in Hissued. apply list_elem_of_In, Hissued in He.
    fold n in He. lia. }
  assert (HA' : n ∉ ResourceCache.ids A')
    by (apply Hfresh; unfold allEntries; now apply sublist_inserts_r).
  assert (HD : n ∉ ResourceCache.ids (ResourceCache.detached (fTextureCache c)))
    by (apply Hfresh; unfold allEntries; now apply sublist_inserts_l).
  eexists _, _, _, A'. split; [reflexivity|].
  unfold unlockTexture, getCacheEntry.
  cbn [fTextureCache set_fTextureCache]. rewrite HA.
  cbn [ResourceCache.attached ResourceCache.detached].
  change (tex_id t) with n. rewrite (find_absent n _ _ HD). cbn [List.find].
  assert (Hid : ResourceCache.isEntryOf n (ResourceCache.mkEntry k t 1) = true)
    by now apply isEntryOf_true.
  rewrite Hid. cbn [mbind option_bind].
  unfold IsScratchTexture. cbn [ResourceCache.entry_key]. rewrite Hks.
  split; [reflexivity|].
  unfold ResourceCache.unlock.
  cbn [fTextureCache set_fTextureCache ResourceCache.attached ResourceCache.detached
       ResourceCache.maxCount ResourceCache.maxBytes].
  rewrite filter_is_cons, filter_not_cons, Hid.
  destruct (filter_absent n A' HA') as [-> ->].
  cbn [map app]. unfold ResourceCache.unlockEntry.
  cbn [ResourceCache.entry_key ResourceCache.entry_resource
       ResourceCache.entry_lockCount Nat.pred].
  split; [reflexivity|].
  unfold findAndLockTexture, findAndLock, ResourceCache.findAndLock.
  cbn [fTextureCache set_fTextureCache ResourceCache.attached ResourceCache.lockFirst
       ResourceCache.entry_key]. fold k.
  destruct (decide (k = k)) as [_|Hne]; [|now elim Hne].
  unfold ResourceCache.lockEntry.
  cbn [ResourceCache.entry_key ResourceCache.entry_resource ResourceCache.entry_lockCount].
  split; [reflexivity|]. split; reflexivity.
Qed.

End ContentProofs.

Lemma cacheInv_sampleContext : cacheInv sampleContext.
Proof.
  unfold cacheInv, cacheOk, allEntries. cbn. split; [constructor|]. split; constructor.
Qed.

Lemma content_texture_release_find_witness :
  exists c1 u c2 rest,
    createAndLockTexture sampleExternals sampleContentKey (fun _ => false) (fun _ => false)
      (fun _ _ _ c => c) 1 (Some true) sampleSmallDesc tt sampleImage 2 sampleContext
    = Some (Some (mkTexture (gpu_nextHandle (fGpu sampleContext)) sampleSmallDesc), c1)
    /\ unlockTexture (mkTexture (gpu_nextHandle (fGpu sampleContext)) sampleSmallDesc) c1
       = Some u
    /\ ResourceCache.attached (fTextureCache u)
       = ResourceCache.mkEntry (sampleContentKey (Some true) sampleSmallDesc tt)
           (mkTexture (gpu_nextHandle (fGpu sampleContext)) sampleSmallDesc) 0 :: rest
    /\ findAndLockTexture sampleContentKey sampleSmallDesc tt (Some true) u
       = (Some (mkTexture (gpu_nextHandle (fGpu sampleContext)) sampleSmallDesc), c2)
    /\ ResourceCache.attached (fTextureCache c2)
       = ResourceCache.mkEntry (sampleContentKey (Some true) sampleSmallDesc tt)
           (mkTexture (gpu_nextHandle (fGpu sampleContext)) sampleSmallDesc) 1 :: rest
    /\ ResourceCache.detached (fTextureCache c2)
       = ResourceCache.detached (fTextureCache sampleContext).
Proof.
  apply (content_texture_release_find sampleExternals bool unit sampleContentKey
           (fun _ => false) (fun _ => false) (fun _ _ _ c => c) 0 (Some true)
           sampleSmallDesc tt sampleImage 2 sampleContext);
    [reflexivity|reflexivity|reflexivity|exact cacheInv_sampleContext].
Defined.
